(** * Verification of docker/cloud_run_entrypoint.sh

    A shallow embedding of the Cloud Run entrypoint script: the remote
    bootstrap fetcher that pulls configuration and handler files into
    [CONFIG_DIR] before it hands over to /app/docker/prod_entrypoint.sh.

    The script is a POSIX shell program run with [set -e].  It is embedded
    as a program in a small state-and-exit monad over
      - the shell's variable store (imported from the environment),
      - an abstract outside world (network and file system) reached only
        through the external commands the script runs (curl, mkdir, ls),
      - a trace of the externally visible actions, in program order.

    How the shell is modelled:
      - text is a string of bytes; tr, sed, grep and read work on the lines
        of their input, and tr maps bytes as in the POSIX locale;
      - the environment is the list of NAME/value entries in the order
        [env] prints them, [env] prints every exported entry as NAME=value
        and a newline, so a value with a newline makes several lines;
      - the trace keeps the operand of each [echo]; that is the line
        written when the operand has no backslash (POSIX leaves operands
        with a backslash to the implementation: dash expands escapes);
      - an external command is one step: its exit status, its output and
        its effect on the outside world come from the [Outside] interface;
        which HTTP statuses make [curl -f] fail is curl's business;
      - under [set -e] a failing simple command outside a condition ends
        the shell with that status; the last command of a pipeline runs in
        a subshell, whose status is the pipeline's;
      - the store holds the variables of the environment and those the
        script assigns; variables a shell keeps of its own accord (PWD and
        the like) are left out. *)

From Stdlib Require Import String Ascii List Bool Arith Lia.
Import ListNotations.
Open Scope list_scope.
Open Scope string_scope.

(* ================================================================== *)
(** * Part I. Definitions *)
(* ================================================================== *)

(** ** Text utilities used by the script (tr, sed, grep, read, case) *)

Module Text.

Definition newline : ascii := "010"%char.

Definition equals_sign : ascii := "="%char.

Definition double_quote : ascii := "034"%char.

(** The test [-n s]. *)
Definition nonempty (s : string) : bool :=
  match s with EmptyString => false | String _ _ => true end.

(** One-character class [[:upper:]] in the POSIX locale. *)
Definition is_upper (c : ascii) : bool :=
  ((65 <=? nat_of_ascii c) && (nat_of_ascii c <=? 90))%nat.

Definition is_lower (c : ascii) : bool :=
  ((97 <=? nat_of_ascii c) && (nat_of_ascii c <=? 122))%nat.

Definition is_digit (c : ascii) : bool :=
  ((48 <=? nat_of_ascii c) && (nat_of_ascii c <=? 57))%nat.

(** [[:space:]]: space, \t, \n, \v, \f, \r. *)
Definition is_space (c : ascii) : bool :=
  ((nat_of_ascii c =? 32) || ((9 <=? nat_of_ascii c) && (nat_of_ascii c <=? 13)))%nat.

Definition to_lower (c : ascii) : ascii :=
  if is_upper c then ascii_of_nat (nat_of_ascii c + 32)%nat else c.

(** [tr '[:upper:]' '[:lower:]'] *)
Fixpoint tr_upper_lower (s : string) : string :=
  match s with
  | EmptyString => EmptyString
  | String c r => String (to_lower c) (tr_upper_lower r)
  end.

(** [tr -d '\n'] *)
Fixpoint tr_d_newline (s : string) : string :=
  match s with
  | EmptyString => EmptyString
  | String c r =>
      if Ascii.eqb c newline then tr_d_newline r else String c (tr_d_newline r)
  end.

(** [strip_prefix p s] is [Some r] when [s = p ++ r]. *)
Fixpoint strip_prefix (p s : string) : option string :=
  match p with
  | EmptyString => Some s
  | String a p' =>
      match s with
      | EmptyString => None
      | String b s' => if Ascii.eqb a b then strip_prefix p' s' else None
      end
  end.

Definition starts_with (p s : string) : bool :=
  match strip_prefix p s with Some _ => true | None => false end.

(** The expansion [${s#p}] for a quoted (literal) pattern [p], and
    [sed 's/^p//'] on one line when [p] has no regex metacharacter. *)
Definition remove_prefix (p s : string) : string :=
  match strip_prefix p s with Some r => r | None => s end.

(** The glob [*p*] of a [case] pattern with literal [p]. *)
Fixpoint contains (p s : string) : bool :=
  starts_with p s ||
  match s with
  | EmptyString => false
  | String _ r => contains p r
  end.

Fixpoint mem_char (c : ascii) (s : string) : bool :=
  match s with
  | EmptyString => false
  | String d r => Ascii.eqb c d || mem_char c r
  end.

(** Command substitution [$(...)] drops every trailing newline. *)
Fixpoint strip_trailing_newlines (s : string) : string :=
  match s with
  | EmptyString => EmptyString
  | String c r =>
      match strip_trailing_newlines r with
      | EmptyString => if Ascii.eqb c newline then EmptyString else String c EmptyString
      | r' => String c r'
      end
  end.

(** The lines of a text, as a line-oriented reader (grep, read) sees them. *)
Fixpoint lines_of (s : string) : list string :=
  match s with
  | EmptyString => []
  | String c r =>
      if Ascii.eqb c newline then EmptyString :: lines_of r
      else match lines_of r with
           | [] => [String c EmptyString]
           | l :: ls => String c l :: ls
           end
  end.

(** [grep '^p'] for a literal [p]. *)
Definition grep_anchored (p : string) (lines : list string) : list string :=
  filter (starts_with p) lines.

(** Split at the first '='. *)
Fixpoint break_equals (s : string) : string * option string :=
  match s with
  | EmptyString => (EmptyString, None)
  | String c r =>
      if Ascii.eqb c equals_sign then (EmptyString, Some r)
      else let '(a, b) := break_equals r in (String c a, b)
  end.

(** [IFS='=' read -r name url] on one line.  [name] is the first field.
    [url], the last variable, takes the rest of the line with its
    separators, except that a rest made of one field closed by a single
    '=' is that field alone (POSIX field splitting: a trailing separator
    ends a field, it does not open an empty one). *)
Definition read_last_field (rest : string) : string :=
  match break_equals rest with
  | (f, Some EmptyString) => f
  | _ => rest
  end.

Definition read_name_url (line : string) : string * string :=
  match break_equals line with
  | (n, None) => (n, EmptyString)
  | (n, Some rest) => (n, read_last_field rest)
  end.

(** [echo $s | sed 's/^p//' | tr '[:upper:]' '[:lower:]'] inside [$(...)].
    [echo] writes its operand and a newline ([s] is a field produced by
    [read], it has no newline); sed and tr work on that line; the command
    substitution removes the trailing newline again. *)
Definition sed_tr_suffix (p s : string) : string :=
  strip_trailing_newlines
    (tr_upper_lower (remove_prefix p s ++ String newline EmptyString)).

(** extract_json_field runs the sed script
    [s/.*QFIELDQ[[:space:]]*:[[:space:]]*Q\([^Q]*\)Q.*/\1/p],
    writing Q for the double quote character. *)

Fixpoint skip_spaces (s : string) : string :=
  match s with
  | String c r => if is_space c then skip_spaces r else s
  | EmptyString => EmptyString
  end.

(** [\([^Q]*\)Q]: the text up to the next double quote, which must exist. *)
Fixpoint until_quote (s : string) : option string :=
  match s with
  | EmptyString => None
  | String c r =>
      if Ascii.eqb c double_quote then Some EmptyString
      else match until_quote r with
           | Some v => Some (String c v)
           | None => None
           end
  end.

(** The part of the regex after the leading [.*], matched at the head of [s].
    The script pastes the field name into the regex.  It asks for the two
    fields authorizationToken and downloadUrl; a name of letters, digits
    and underscores stands for itself in a regex, and that is how the
    field is matched here.  A field with characters that are special in
    a regex is outside this embedding: the properties of
    extract_json_field below are stated for fields of [A-Za-z0-9_]. *)
Definition match_field_here (field s : string) : option string :=
  match strip_prefix (String double_quote field ++ String double_quote EmptyString) s with
  | None => None
  | Some r1 =>
      match skip_spaces r1 with
      | String c r2 =>
          if Ascii.eqb c ":"%char then
            match skip_spaces r2 with
            | String q r3 => if Ascii.eqb q double_quote then until_quote r3 else None
            | EmptyString => None
            end
          else None
      | EmptyString => None
      end
  end.

(** The leading [.*] is greedy: of all positions where the rest of the
    regex matches, the last one is taken. *)
Fixpoint sed_capture_field (field s : string) : option string :=
  match s with
  | EmptyString => None
  | String _ r =>
      match sed_capture_field field r with
      | Some v => Some v
      | None => match_field_here field s
      end
  end.

(** [printf '%s' $json_payload | tr -d '\n' | sed -n s/.../\1/p], as the
    value of [$(extract_json_field payload field)]: sed prints the captured
    text and a newline when the line matches and nothing otherwise, and the
    command substitution drops trailing newlines. *)
Definition extract_json_field (json_payload field_name : string) : string :=
  match sed_capture_field field_name (tr_d_newline json_payload) with
  | Some v => strip_trailing_newlines (v ++ String newline EmptyString)
  | None => EmptyString
  end.

(** Determine whether URL is likely a Backblaze B2 file URL.  The global
    BACKBLAZE_DOWNLOAD_URL the shell function reads is its first argument
    here; [true] is the function's exit status 0. *)
Definition is_backblaze_url (BACKBLAZE_DOWNLOAD_URL url : string) : bool :=
  if nonempty BACKBLAZE_DOWNLOAD_URL
     && negb (String.eqb (remove_prefix (BACKBLAZE_DOWNLOAD_URL ++ "/") url) url)
  then true
  else contains "backblazeb2.com/" url.

(** [${v:-d}] *)
Definition default_if_null (v d : string) : string :=
  if nonempty v then v else d.

(** The characters [A-Za-z0-9_] of a portable variable name. *)
Definition is_name_char (c : ascii) : bool :=
  is_upper c || is_lower c || is_digit c || Ascii.eqb c "_"%char.

Fixpoint all_chars (P : ascii -> bool) (s : string) : bool :=
  match s with
  | EmptyString => true
  | String c r => P c && all_chars P r
  end.

(** [path] names a file directly inside [dir]: [dir], a slash, and one
    path component that is neither empty nor a traversal component. *)
Definition inside_dir (dir path : string) : Prop :=
  exists f, path = dir ++ "/" ++ f
            /\ mem_char "/"%char f = false
            /\ f <> "" /\ f <> "." /\ f <> "..".

(** [s] between double quotes. *)
Definition in_quotes (s : string) : string :=
  String double_quote (s ++ String double_quote EmptyString).

(** No upper-case letter of [A-Z]. *)
Definition no_upper (s : string) : bool :=
  all_chars (fun c => negb (is_upper c)) s.

(** A name the shell accepts for a variable: letters, digits and
    underscores, not starting with a digit. *)
Definition variable_name (x : string) : bool :=
  match x with
  | EmptyString => false
  | String c _ => negb (is_digit c) && all_chars is_name_char x
  end.

Definition backslash : ascii := "092"%char.

(** A text echo writes as it stands, on every shell. *)
Definition no_backslash (s : string) : bool := negb (mem_char backslash s).

End Text.

(** ** The shell: variables, environment, outside world *)

Module Shell.
Import Text.

(** A shell variable.  Variables imported from the environment are
    exported; a variable first assigned by the script is not. *)
Record variable := mk_var {
  v_name : string;
  v_value : string;
  v_exported : bool
}.

Definition store := list variable.

(** The variables a shell starts with.  Every entry of the environment
    is taken over here.  Shells differ on entries whose name is not a
    variable name (dash drops them, bash hands them on untouched without
    making them variables): what is said below about the variables of an
    environment is said for entries with proper variable names. *)
Definition import_env (env : list (string * string)) : store :=
  map (fun nv => mk_var (fst nv) (snd nv) true) env.

(** [$x]: the value, empty when unset (the script does not use [set -u]). *)
Fixpoint sh_get (sh : store) (x : string) : string :=
  match sh with
  | [] => EmptyString
  | e :: r => if String.eqb (v_name e) x then v_value e else sh_get r x
  end.

Fixpoint sh_isset (sh : store) (x : string) : bool :=
  match sh with
  | [] => false
  | e :: r => String.eqb (v_name e) x || sh_isset r x
  end.

(** [x=v]: an existing variable keeps its export attribute. *)
Definition sh_assign (sh : store) (x v : string) : store :=
  if sh_isset sh x
  then map (fun e => if String.eqb (v_name e) x then mk_var x v (v_exported e) else e) sh
  else (sh ++ [mk_var x v false])%list.

(** [export x=v] *)
Definition sh_export (sh : store) (x v : string) : store :=
  if sh_isset sh x
  then map (fun e => if String.eqb (v_name e) x then mk_var x v true else e) sh
  else (sh ++ [mk_var x v true])%list.

(** The environment handed to a child process. *)
Definition exported_env (sh : store) : list (string * string) :=
  map (fun e => (v_name e, v_value e)) (filter v_exported sh).

Fixpoint env_lookup (env : list (string * string)) (x : string) : option string :=
  match env with
  | [] => None
  | (n, v) :: r => if String.eqb n x then Some v else env_lookup r x
  end.

(** What the [env] utility prints: NAME=value and a newline per entry. *)
Fixpoint env_output (env : list (string * string)) : string :=
  match env with
  | [] => EmptyString
  | (n, v) :: r => n ++ "=" ++ v ++ String newline (env_output r)
  end.

Definition env_lines (sh : store) : list string :=
  lines_of (env_output (exported_env sh)).

(** One invocation of curl, by the options the script passes besides
    [-fsSL]: [-u user], [-H header], the URL and [-o file]. *)
Record curl_call := mk_curl {
  curl_user : option string;
  curl_header : option string;
  curl_url : string;
  curl_output : option string
}.

(** Externally visible actions, in program order: the commands mkdir,
    echo (to standard output or, with >&2, to standard error), curl and
    ls -la, each with its operands; curl and ls with their exit status.
    [EvStdout line] and [EvStderr line] carry the operand of echo. *)
Inductive event :=
| EvMkdir (dir : string)
| EvStdout (line : string)
| EvStderr (line : string)
| EvCurl (call : curl_call) (status : nat)
| EvLs (dir : string) (status : nat).

(** How the process ends: [exit code], or [exec prog argv] with the
    exported environment. *)
Inductive outcome :=
| Exited (code : nat)
| Execed (prog : string) (argv : list string) (envp : list (string * string)).

Inductive result (A : Type) :=
| Ret (a : A)
| Exit (code : nat).

Arguments Ret {A} a.

Arguments Exit {A} code.

(** Reading a trace: the file fetches attempted (source URL and
    destination of each [curl ... -o dest]), and their destinations. *)
Fixpoint fetch_attempts (evs : list event) : list (string * string) :=
  match evs with
  | [] => []
  | EvCurl (mk_curl _ _ url (Some dest)) _ :: r => (url, dest) :: fetch_attempts r
  | _ :: r => fetch_attempts r
  end.

Definition destinations (evs : list event) : list string :=
  map snd (fetch_attempts evs).

(** All HTTP calls of a trace, the authorization call included. *)
Fixpoint curl_calls (evs : list event) : list curl_call :=
  match evs with
  | [] => []
  | EvCurl c _ :: r => c :: curl_calls r
  | _ :: r => curl_calls r
  end.

(** An environment entry that [env] prints on one line, NAME=value: no
    newline in the name or the value, and (as for every environment entry)
    no '=' in the name. *)
Definition single_line_entry (nv : string * string) : bool :=
  negb (mem_char newline (fst nv)) && negb (mem_char equals_sign (fst nv))
  && negb (mem_char newline (snd nv)).

Definition entry_line (nv : string * string) : string :=
  fst nv ++ "=" ++ snd nv.

(** [s'] comes from [s] by assignments [x=v] to names of [xs]. *)
Inductive assigned (xs : list string) : store -> store -> Prop :=
| assigned_none s : assigned xs s s
| assigned_more s s' x v :
    assigned xs s s' -> In x xs -> assigned xs s (sh_assign s' x v).

(** A store whose values are one-line texts, but for the variable
    backblaze_auth_response (the output of curl, kept as it comes), which
    is not exported. *)
Definition neat_variable (e : variable) : bool :=
  if String.eqb (v_name e) "backblaze_auth_response" then negb (v_exported e)
  else negb (mem_char newline (v_value e)).

Definition neat (s : store) : bool := forallb neat_variable s.



(** The exit status of [curl -fsSL url -o file], a request without
    [-u], for a transfer that ends with the HTTP status [http_status]
    (with [-L], the status of the last response: that of a redirect only
    when curl does not follow it).  With [-f], curl exits with 22 on a
    status of 400 or above, and with 0 on any other, also one outside
    200-299.  (When there is no response, or the file cannot be written,
    curl exits with another non-zero status.) *)
Definition curl_f_status (http_status : nat) : nat :=
  if Nat.leb 400 http_status then 22 else 0.

(** The outside world: network and file system.  The script reaches it
    only through these commands:
      - [curl]: exit status, standard output and the world afterwards;
      - [mkdir_p]: the world after [mkdir -p dir] (its status is dropped
        by [|| true]);
      - [dir_has_entries]: the test that [dir] is a directory and
        [ls -A dir] prints something;
      - [ls_la]: exit status of [ls -la dir] and the world afterwards. *)
Class Outside (World : Type) := {
  curl : curl_call -> World -> nat * string * World;
  mkdir_p : string -> World -> World;
  dir_has_entries : string -> World -> bool;
  ls_la : string -> World -> nat * World
}.

End Shell.

(** ** The script *)

Module Entrypoint.
Import Text Shell.

Section Script.

Context {World : Type} {outside : Outside World}.

Record machine := mk_machine {
  sh : store;
  world : World
}.

(** A shell command: it writes a piece of trace and either completes with
    a value or ends the shell with an exit status. *)
Definition sh_m (A : Type) : Type := machine -> list event * result A * machine.

Definition trace {A} (x : list event * result A * machine) : list event :=
  fst (fst x).

Definition outcome_of {A} (x : list event * result A * machine) : result A :=
  snd (fst x).

Definition ret {A} (a : A) : sh_m A := fun m => ([], Ret a, m).

Definition bind {A B} (c : sh_m A) (k : A -> sh_m B) : sh_m B :=
  fun m =>
    match c m with
    | (e1, Ret a, m1) =>
        let '(e2, r, m2) := k a m1 in ((e1 ++ e2)%list, r, m2)
    | (e1, Exit code, m1) => (e1, Exit code, m1)
    end.

Notation "x <- c ;; k" := (bind c (fun x => k))
  (at level 61, c at next level, right associativity).

Notation "c ;; k" := (bind c (fun _ => k))
  (at level 61, right associativity).

Definition var (x : string) : sh_m string :=
  fun m => ([], Ret (sh_get (sh m) x), m).

Definition assign (x v : string) : sh_m unit :=
  fun m => ([], Ret tt, mk_machine (sh_assign (sh m) x v) (world m)).

Definition export (x v : string) : sh_m unit :=
  fun m => ([], Ret tt, mk_machine (sh_export (sh m) x v) (world m)).

Definition emit (e : event) : sh_m unit := fun m => ([e], Ret tt, m).

(** [echo line].  The trace keeps the operand.  What echo writes is the
    operand and a newline when the operand has no backslash; for an
    operand with a backslash POSIX leaves the text to the echo builtin
    (dash expands escape sequences, bash does not). *)
Definition echo (line : string) : sh_m unit := emit (EvStdout line).

Definition echo_err (line : string) : sh_m unit := emit (EvStderr line).

Definition exit {A} (code : nat) : sh_m A := fun m => ([], Exit code, m).

(** [set -e]: a command that fails outside a condition ends the shell with
    the command's status. *)
Definition errexit (status : nat) : sh_m unit :=
  fun m => if Nat.eqb status 0 then ([], Ret tt, m) else ([], Exit status, m).

Definition run_curl (c : curl_call) : sh_m (nat * string) :=
  fun m =>
    let '(status, out, w) := curl c (world m) in
    ([EvCurl c status], Ret (status, out), mk_machine (sh m) w).

(** [( c )]: a subshell works on a copy of the variables; [exit] inside it
    ends the subshell only, and becomes its status. *)
Definition subshell (c : sh_m unit) : sh_m nat :=
  fun m =>
    match c m with
    | (e, Ret _, m1) => (e, Ret 0, mk_machine (sh m) (world m1))
    | (e, Exit code, m1) => (e, Ret code, mk_machine (sh m) (world m1))
    end.

(** [IFS='=' read -r name url] on the next line of standard input. *)
Definition read_line (line : string) : sh_m unit :=
  assign "name" (fst (read_name_url line)) ;;
  assign "url" (snd (read_name_url line)).

(** [while IFS='=' read -r name url; do body; done] over the lines of its
    standard input. *)
Fixpoint while_read (body : sh_m unit) (lines : list string) : sh_m unit :=
  match lines with
  | [] => ret tt
  | line :: rest =>
      read_line line ;;
      body ;;
      while_read body rest
  end.

(** [env | grep '^PREFIX' | while ...; done]: [env] prints the exported
    variables; the loop, last in the pipeline, runs in a subshell whose
    status is the pipeline's. *)
Definition env_grep_while (prefix : string) (body : sh_m unit) : sh_m unit :=
  fun m =>
    (status <- subshell (while_read body (grep_anchored prefix (env_lines (sh m)))) ;;
     errexit status) m.

(** Lines 39-47. *)
Definition init : sh_m unit :=
  config_dir <- var "CONFIG_DIR" ;;
  assign "CONFIG_DIR" (default_if_null config_dir "/app/config") ;;
  auth_url <- var "BACKBLAZE_AUTH_URL" ;;
  assign "BACKBLAZE_AUTH_URL"
    (default_if_null auth_url "https://api.backblazeb2.com/b2api/v2/b2_authorize_account") ;;
  key_id <- var "BACKBLAZE_KEY_ID" ;;
  b2_key_id <- var "B2_KEY_ID" ;;
  assign "BACKBLAZE_KEY_ID" (default_if_null key_id (default_if_null b2_key_id "")) ;;
  app_key <- var "BACKBLAZE_APPLICATION_KEY" ;;
  b2_app_key <- var "B2_APPLICATION_KEY" ;;
  assign "BACKBLAZE_APPLICATION_KEY" (default_if_null app_key (default_if_null b2_app_key "")) ;;
  assign "BACKBLAZE_AUTH_HEADER" "" ;;
  assign "BACKBLAZE_DOWNLOAD_URL" "" ;;
  config_dir <- var "CONFIG_DIR" ;;
  (* mkdir -p "$CONFIG_DIR" 2>/dev/null || true *)
  (fun m => ([EvMkdir config_dir], Ret tt, mk_machine (sh m) (mkdir_p config_dir (world m)))).

(** Lines 75-92: optionally authorize with Backblaze B2. *)
Definition authorize : sh_m unit :=
  key_id <- var "BACKBLAZE_KEY_ID" ;;
  app_key <- var "BACKBLAZE_APPLICATION_KEY" ;;
  if nonempty key_id || nonempty app_key then
    (if negb (nonempty key_id) || negb (nonempty app_key) then
       echo_err "Both BACKBLAZE_KEY_ID (or B2_KEY_ID) and BACKBLAZE_APPLICATION_KEY (or B2_APPLICATION_KEY) must be set" ;;
       exit 1
     else ret tt) ;;
    echo "Authorizing with Backblaze B2..." ;;
    auth_url <- var "BACKBLAZE_AUTH_URL" ;;
    r <- run_curl (mk_curl (Some (key_id ++ ":" ++ app_key)) None auth_url None) ;;
    assign "backblaze_auth_response" (strip_trailing_newlines (snd r)) ;;
    errexit (fst r) ;;
    response <- var "backblaze_auth_response" ;;
    assign "backblaze_auth_token" (extract_json_field response "authorizationToken") ;;
    assign "BACKBLAZE_DOWNLOAD_URL" (extract_json_field response "downloadUrl") ;;
    token <- var "backblaze_auth_token" ;;
    (if negb (nonempty token) then
       echo_err "Failed to read Backblaze authorizationToken from auth response" ;;
       exit 1
     else ret tt) ;;
    assign "BACKBLAZE_AUTH_HEADER" ("Authorization: " ++ token)
  else ret tt.

(** The shell function is_backblaze_url: it sets [url] and reads the
    global BACKBLAZE_DOWNLOAD_URL. *)
Definition call_is_backblaze_url (arg : string) : sh_m bool :=
  assign "url" arg ;;
  url <- var "url" ;;
  download_url <- var "BACKBLAZE_DOWNLOAD_URL" ;;
  ret (is_backblaze_url download_url url).

(** [curl -fsSL [-H header] "$url" -o "$dest"] as a simple command. *)
Definition curl_to_file (header : option string) (url dest : string) : sh_m unit :=
  r <- run_curl (mk_curl None header url (Some dest)) ;;
  errexit (fst r).

(** Lines 95-106: helper function to fetch a file. *)
Definition fetch_file (arg1 arg2 : string) : sh_m unit :=
  assign "url" arg1 ;;
  assign "dest" arg2 ;;
  url <- var "url" ;;
  dest <- var "dest" ;;
  echo ("Fetching " ++ url ++ " -> " ++ dest) ;;
  auth_header <- var "AUTH_HEADER" ;;
  if nonempty auth_header then
    curl_to_file (Some auth_header) url dest
  else
    b2_header <- var "BACKBLAZE_AUTH_HEADER" ;;
    applies <- (if nonempty b2_header then call_is_backblaze_url url else ret false) ;;
    if applies then
      b2_header <- var "BACKBLAZE_AUTH_HEADER" ;;
      url <- var "url" ;;
      dest <- var "dest" ;;
      curl_to_file (Some b2_header) url dest
    else
      url <- var "url" ;;
      dest <- var "dest" ;;
      curl_to_file None url dest.

(** Lines 109-111: fetch main config if URL is specified. *)
Definition fetch_main_config : sh_m unit :=
  main_url <- var "LITELLM_CONFIG_URL" ;;
  if nonempty main_url then
    config_dir <- var "CONFIG_DIR" ;;
    fetch_file main_url (config_dir ++ "/config.yaml")
  else ret tt.

(** The body shared by the two loops (lines 115-120 and 125-130), by the
    variable-name prefix and the file-name ending that differ. *)
Definition loop_body (prefix ending : string) : sh_m unit :=
  url <- var "url" ;;
  if nonempty url then
    name <- var "name" ;;
    assign "suffix" (sed_tr_suffix prefix name) ;;
    suffix <- var "suffix" ;;
    assign "filename" (suffix ++ ending) ;;
    url <- var "url" ;;
    config_dir <- var "CONFIG_DIR" ;;
    filename <- var "filename" ;;
    fetch_file url (config_dir ++ "/" ++ filename)
  else ret tt.

(** Lines 114-121: fetch additional config files, the CONFIG_URL_ variables. *)
Definition fetch_additional_configs : sh_m unit :=
  env_grep_while "CONFIG_URL_" (loop_body "CONFIG_URL_" ".yaml").

(** Lines 124-131: fetch custom handler files, the HANDLER_URL_ variables. *)
Definition fetch_handlers : sh_m unit :=
  env_grep_while "HANDLER_URL_" (loop_body "HANDLER_URL_" "_handler.py").

(** Lines 134-137: list fetched files for debugging. *)
Definition list_files : sh_m unit :=
  config_dir <- var "CONFIG_DIR" ;;
  fun m =>
    if dir_has_entries config_dir (world m) then
      (echo ("Files in " ++ config_dir ++ ":") ;;
       status <- (fun m' =>
          let '(status, w) := ls_la config_dir (world m') in
          ([EvLs config_dir status], Ret status, mk_machine (sh m') w)) ;;
       errexit status) m
    else ([], Ret tt, m).

(** Line 140: add config dir to Python path. *)
Definition export_pythonpath : sh_m unit :=
  config_dir <- var "CONFIG_DIR" ;;
  pythonpath <- var "PYTHONPATH" ;;
  export "PYTHONPATH" (config_dir ++ ":" ++ default_if_null pythonpath "").

Definition downstream_entrypoint : string := "/app/docker/prod_entrypoint.sh".

(** Everything before the final [exec]. *)
Definition bootstrap : sh_m unit :=
  init ;;
  authorize ;;
  fetch_main_config ;;
  fetch_additional_configs ;;
  fetch_handlers ;;
  list_files ;;
  export_pythonpath.

(** The whole script, started with environment [env] and arguments
    [argv]; line 143 replaces the shell by the downstream entrypoint. *)
Definition cloud_run_entrypoint (env : list (string * string)) (argv : list string)
    (w : World) : list event * outcome :=
  match bootstrap (mk_machine (import_env env) w) with
  | (evs, Ret _, m) => (evs, Execed downstream_entrypoint argv (exported_env (sh m)))
  | (evs, Exit code, _) => (evs, Exited code)
  end.

(** *** Vocabulary of the properties *)

Definition prepend {A} (e1 : list event) (x : list event * result A * machine)
  : list event * result A * machine :=
  let '(e2, r, m2) := x in ((e1 ++ e2)%list, r, m2).

(** The header fetch_file passes to curl, by the variables it reads. *)
Definition attached_header (s : store) (url : string) : option string :=
  if nonempty (sh_get s "AUTH_HEADER") then Some (sh_get s "AUTH_HEADER")
  else if nonempty (sh_get s "BACKBLAZE_AUTH_HEADER")
          && is_backblaze_url (sh_get s "BACKBLAZE_DOWNLOAD_URL") url
       then Some (sh_get s "BACKBLAZE_AUTH_HEADER")
       else None.

Definition fetch_call (s : store) (url dest : string) : curl_call :=
  mk_curl None (attached_header s url) url (Some dest).

Definition status_result (status : nat) : result unit :=
  if Nat.eqb status 0 then Ret tt else Exit status.

(** The variables of [s'] are those of [s] except for the names [xs]. *)
Definition agree_except (xs : list string) (s s' : store) : Prop :=
  forall x, ~ In x xs -> sh_get s' x = sh_get s x.

(** Variables the loops and fetch_file write. *)
Definition scratch : list string := ["name"; "url"; "suffix"; "filename"; "dest"].

(** The fetch one line of the filtered [env] output asks for: source URL
    and destination path, or none when the url field is empty. *)
Definition line_request (prefix ending config_dir line : string)
  : option (string * string) :=
  if nonempty (snd (read_name_url line))
  then Some (snd (read_name_url line),
             config_dir ++ "/" ++ sed_tr_suffix prefix (fst (read_name_url line)) ++ ending)
  else None.

Fixpoint requests (prefix ending config_dir : string) (lines : list string)
  : list (string * string) :=
  match lines with
  | [] => []
  | line :: rest =>
      match line_request prefix ending config_dir line with
      | Some r => r :: requests prefix ending config_dir rest
      | None => requests prefix ending config_dir rest
      end
  end.

Definition fetch_trace (s : store) (u d : string) (w : World) : list event :=
  [EvStdout ("Fetching " ++ u ++ " -> " ++ d);
   EvCurl (fetch_call s u d) (fst (fst (curl (fetch_call s u d) w)))].

(** Fetching a list of requests in order, stopping at the first failure. *)
Fixpoint fetch_all (s : store) (reqs : list (string * string)) (w : World)
  : list event * result unit * World :=
  match reqs with
  | [] => ([], Ret tt, w)
  | (u, d) :: rest =>
      if Nat.eqb (fst (fst (curl (fetch_call s u d) w))) 0
      then let '(evs, r, w') := fetch_all s rest (snd (curl (fetch_call s u d) w)) in
           ((fetch_trace s u d w ++ evs)%list, r, w')
      else (fetch_trace s u d w, Exit (fst (fst (curl (fetch_call s u d) w))),
            snd (curl (fetch_call s u d) w))
  end.

(** The settings lines 39-42 compute from the environment. *)
Definition config_dir_of (s : store) : string :=
  default_if_null (sh_get s "CONFIG_DIR") "/app/config".

Definition auth_url_of (s : store) : string :=
  default_if_null (sh_get s "BACKBLAZE_AUTH_URL")
    "https://api.backblazeb2.com/b2api/v2/b2_authorize_account".

Definition key_id_of (s : store) : string :=
  default_if_null (sh_get s "BACKBLAZE_KEY_ID") (default_if_null (sh_get s "B2_KEY_ID") "").

Definition application_key_of (s : store) : string :=
  default_if_null (sh_get s "BACKBLAZE_APPLICATION_KEY")
    (default_if_null (sh_get s "B2_APPLICATION_KEY") "").

Definition init_vars : list string :=
  ["CONFIG_DIR"; "BACKBLAZE_AUTH_URL"; "BACKBLAZE_KEY_ID";
   "BACKBLAZE_APPLICATION_KEY"; "BACKBLAZE_AUTH_HEADER"; "BACKBLAZE_DOWNLOAD_URL"].

(** The authorization request the script sends for an environment, and
    the response text it keeps (the output of curl in [$(...)]). *)
Definition authorization_request (env : list (string * string)) : curl_call :=
  mk_curl (Some (key_id_of (import_env env) ++ ":" ++ application_key_of (import_env env)))
          None (auth_url_of (import_env env)) None.

Definition authorization_reply (env : list (string * string)) (w : World)
  : nat * string * World :=
  curl (authorization_request env) (mkdir_p (config_dir_of (import_env env)) w).

Definition authorization_response (env : list (string * string)) (w : World) : string :=
  strip_trailing_newlines (snd (fst (authorization_reply env w))).

(** What a completed authorization step leaves registered for an
    environment: the Backblaze header and the download URL, both empty
    when no credential half is set. *)
Definition registered_backblaze_header (env : list (string * string)) (w : World) : string :=
  if nonempty (key_id_of (import_env env)) || nonempty (application_key_of (import_env env))
  then "Authorization: "
       ++ extract_json_field (authorization_response env w) "authorizationToken"
  else "".

Definition registered_download_url (env : list (string * string)) (w : World) : string :=
  if nonempty (key_id_of (import_env env)) || nonempty (application_key_of (import_env env))
  then extract_json_field (authorization_response env w) "downloadUrl"
  else "".

(** Every file fetch of a trace carries the header [rule] gives its URL. *)
Definition header_rule (rule : string -> option string) (evs : list event) : Prop :=
  forall c status dest,
    In (EvCurl c status) evs -> curl_output c = Some dest ->
    curl_header c = rule (curl_url c).

Definition authorize_call (s : store) : curl_call :=
  mk_curl (Some (sh_get s "BACKBLAZE_KEY_ID" ++ ":" ++ sh_get s "BACKBLAZE_APPLICATION_KEY"))
          None (sh_get s "BACKBLAZE_AUTH_URL") None.

Definition auth_vars : list string :=
  ["backblaze_auth_response"; "backblaze_auth_token";
   "BACKBLAZE_DOWNLOAD_URL"; "BACKBLAZE_AUTH_HEADER"].

Definition both_must_be_set : string :=
  "Both BACKBLAZE_KEY_ID (or B2_KEY_ID) and BACKBLAZE_APPLICATION_KEY (or B2_APPLICATION_KEY) must be set".

Definition failed_to_read_token : string :=
  "Failed to read Backblaze authorizationToken from auth response".

(** A variable a loop fetches: its name has the prefix and [read] leaves
    its value non-empty. *)
Definition wanted (prefix : string) (nv : string * string) : bool :=
  starts_with prefix (fst nv) && nonempty (read_last_field (snd nv)).

(** The fetch made for such a variable. *)
Definition variable_request (prefix ending config_dir : string) (nv : string * string)
  : string * string :=
  (read_last_field (snd nv),
   config_dir ++ "/" ++ tr_upper_lower (remove_prefix prefix (fst nv)) ++ ending).

(** Every HTTP call of the trace succeeded. *)
Definition all_ok (evs : list event) : Prop :=
  forall c status, In (EvCurl c status) evs -> status = 0.

(** Either every call succeeded, or the one failing call is the last entry
    of the trace and its status is the exit status. *)
Definition fails_last {A} (evs : list event) (r : result A) : Prop :=
  all_ok evs
  \/ exists pre c status,
       evs = (pre ++ [EvCurl c status])%list /\ all_ok pre /\ status <> 0
       /\ r = Exit status.

(** *** Vocabulary of the run as a whole *)

(** Every variable the script assigns in its main shell: lines 39-44,
    82-91, and the arguments fetch_file and is_backblaze_url keep in url
    and dest.  The variables of the two loops live in their subshells. *)
Definition script_vars : list string :=
  ["CONFIG_DIR"; "BACKBLAZE_AUTH_URL"; "BACKBLAZE_KEY_ID";
   "BACKBLAZE_APPLICATION_KEY"; "BACKBLAZE_AUTH_HEADER"; "BACKBLAZE_DOWNLOAD_URL";
   "backblaze_auth_response"; "backblaze_auth_token"; "url"; "dest"].

(** A destination the script writes: the config directory, a slash, a
    stem without upper-case letters, and one of the two endings. *)
Definition fetched_path (config_dir dest : string) : Prop :=
  exists stem ending,
    dest = config_dir ++ "/" ++ stem ++ ending
    /\ no_upper stem = true
    /\ (ending = ".yaml" \/ ending = "_handler.py").

(** The events of fetch_file: the line it prints and its call of curl,
    without [-u], into a file under the config directory. *)
Definition fetch_event (config_dir : string) (ev : event) : Prop :=
  exists url dest,
    fetched_path config_dir dest
    /\ (ev = EvStdout ("Fetching " ++ url ++ " -> " ++ dest)
        \/ exists header status,
             ev = EvCurl (mk_curl None header url (Some dest)) status).

Definition fetch_events (config_dir : string) (evs : list event) : Prop :=
  forall ev, In ev evs -> fetch_event config_dir ev.

(** A run of fetches in a trace: each call of curl comes right after the
    line that announces it, with the same URL and destination. *)
Inductive fetch_blocks (config_dir : string) : list event -> Prop :=
| fetch_blocks_none : fetch_blocks config_dir []
| fetch_blocks_more url dest header status rest :
    fetched_path config_dir dest ->
    fetch_blocks config_dir rest ->
    fetch_blocks config_dir
      (EvStdout ("Fetching " ++ url ++ " -> " ++ dest)
       :: EvCurl (mk_curl None header url (Some dest)) status :: rest).

(** The four shapes of the authorization step (lines 75-92) in a trace,
    for the call [c] it makes. *)
Definition authorization_events (c : curl_call) (evs : list event) : Prop :=
  evs = []
  \/ evs = [EvStderr both_must_be_set]
  \/ exists status,
       evs = [EvStdout "Authorizing with Backblaze B2..."; EvCurl c status]
       \/ evs = [EvStdout "Authorizing with Backblaze B2..."; EvCurl c status;
                 EvStderr failed_to_read_token].

(** The listing (lines 134-137) in a trace that ends with result [r]. *)
Definition listing_events (config_dir : string) (evs : list event) (r : result unit)
  : Prop :=
  evs = []
  \/ exists status,
       evs = [EvStdout ("Files in " ++ config_dir ++ ":"); EvLs config_dir status]
       /\ r = status_result status.

(** The file fetches of a run that completes, in order: the main config,
    the CONFIG_URL_ variables, the HANDLER_URL_ variables.  Within a
    group the order is that in which [env] prints the variables; the
    list [env] stands for the environment in that order. *)
Definition main_config_request (env : list (string * string))
  : list (string * string) :=
  if nonempty (sh_get (import_env env) "LITELLM_CONFIG_URL")
  then [(sh_get (import_env env) "LITELLM_CONFIG_URL",
         config_dir_of (import_env env) ++ "/config.yaml")]
  else [].

Definition fetch_plan (env : list (string * string)) : list (string * string) :=
  (main_config_request env
   ++ map (variable_request "CONFIG_URL_" ".yaml" (config_dir_of (import_env env)))
        (filter (wanted "CONFIG_URL_") env)
   ++ map (variable_request "HANDLER_URL_" "_handler.py" (config_dir_of (import_env env)))
        (filter (wanted "HANDLER_URL_") env))%list.

(** What the script does last when it exits with [code]: one of its two
    complaints (then the code is 1), or a curl or ls that failed with
    that status. *)
Definition exit_cause (code : nat) (last : event) : Prop :=
  (code = 1 /\ (last = EvStderr both_must_be_set \/ last = EvStderr failed_to_read_token))
  \/ (exists c, last = EvCurl c code)
  \/ (exists dir, last = EvLs dir code).

Definition exit_explained {A} (evs : list event) (r : result A) : Prop :=
  forall code, r = Exit code ->
    code <> 0 /\ exists pre last, evs = (pre ++ [last])%list /\ exit_cause code last.


(** Every status a trace records for a call of curl is the one the
    outside world gave to that call, in some state of the world. *)
Definition reported (evs : list event) : Prop :=
  forall c status, In (EvCurl c status) evs ->
                   exists w, status = fst (fst (curl c w)).

(** A run of fetches as it is seen from outside: before each call of
    curl a line is written, which is Fetching URL -> DEST for the URL and
    the destination of that call when neither holds a backslash. *)
Inductive announced_fetches (config_dir : string) : list event -> Prop :=
| announced_none : announced_fetches config_dir []
| announced_more line url dest header status rest :
    fetched_path config_dir dest ->
    (no_backslash url = true -> no_backslash dest = true ->
     line = "Fetching " ++ url ++ " -> " ++ dest) ->
    announced_fetches config_dir rest ->
    announced_fetches config_dir
      (EvStdout line :: EvCurl (mk_curl None header url (Some dest)) status :: rest).

End Script.

Arguments machine World : clear implicits.
Arguments sh_m World A : clear implicits.

Notation "x <- c ;; k" := (bind c (fun x => k))
  (at level 61, c at next level, right associativity).
Notation "c ;; k" := (bind c (fun _ => k))
  (at level 61, right associativity).

(** *** A scripted outside world *)

(** A small outside world to run the script on: it counts the commands
    run; the authorization endpoint answers with an empty JSON object;
    a file URL containing the word missing fails as [curl -f] does on a
    404 (status 22), every other one is stored. *)
Definition lab_curl (c : curl_call) (w : nat) : nat * string * nat :=
  match curl_output c with
  | None => (0, "{}", S w)
  | Some _ => (if contains "missing" (curl_url c) then 22 else 0, "", S w)
  end.

Definition lab_mkdir (dir : string) (w : nat) : nat := w.
Definition lab_dir_has_entries (dir : string) (w : nat) : bool := Nat.ltb 0 w.
Definition lab_ls_la (dir : string) (w : nat) : nat * nat := (0, w).

#[export] Instance lab_outside : Outside nat := {|
  curl := lab_curl;
  mkdir_p := lab_mkdir;
  dir_has_entries := lab_dir_has_entries;
  ls_la := lab_ls_la
|}.

Definition lab_run (env : list (string * string)) (argv : list string)
  : list event * outcome :=
  cloud_run_entrypoint env argv 0.

Definition lab_machine (env : list (string * string)) : machine nat :=
  mk_machine (import_env env) 0.

(** An environment to run the script on: a main config, two additional
    configs (one with a signed URL, one left empty), a handler, and
    settings of other programs. *)
Definition lab_env : list (string * string) :=
  [("DATABASE_URL", "postgres://db/litellm");
   ("LITELLM_CONFIG_URL", "https://x/config.yaml");
   ("CONFIG_URL_TEAMS", "https://x/teams.yaml?sig=");
   ("CONFIG_URL_EMPTY", "");
   ("BACKBLAZE_AUTH_HEADER", "Authorization: handed-in");
   ("HANDLER_URL_CUSTOM", "https://x/custom.py")].

(** A world of HTTP servers: [serve url] is the status of the last
    response to a request for [url]; curl runs with [-f]. *)
Definition http_curl (serve : string -> nat) (c : curl_call) (w : nat)
  : nat * string * nat :=
  (curl_f_status (serve (curl_url c)), "", S w).

Definition http_outside (serve : string -> nat) : Outside nat := {|
  curl := http_curl serve;
  mkdir_p := lab_mkdir;
  dir_has_entries := lab_dir_has_entries;
  ls_la := lab_ls_la
|}.

(** A server that has lost one file (404 Not Found), answers 304 Not
    Modified, without a body, for another, and serves the rest. *)
Definition sample_server (url : string) : nat :=
  if contains "missing" url then 404
  else if contains "unchanged" url then 304
  else 200.

(** The same world with an authorization endpoint that answers as
    Backblaze B2 does, with a token and a download URL. *)
Definition quoted (s : string) : string :=
  String double_quote (s ++ String double_quote "").

Definition b2_reply : string :=
  "{" ++ quoted "authorizationToken" ++ ": " ++ quoted "TOK" ++ ","
  ++ String newline (" " ++ quoted "downloadUrl" ++ ": "
                     ++ quoted "https://f002.backblazeb2.com" ++ "}").

Definition b2_curl (c : curl_call) (w : nat) : nat * string * nat :=
  match curl_output c with
  | None => (0, b2_reply, S w)
  | Some _ => lab_curl c w
  end.

Definition b2_outside : Outside nat := {|
  curl := b2_curl;
  mkdir_p := lab_mkdir;
  dir_has_entries := lab_dir_has_entries;
  ls_la := lab_ls_la
|}.

(** A world whose authorization endpoint answers with a token and, on a
    line of its own, text that looks like an environment entry. *)
Definition stray_reply : string :=
  "{" ++ quoted "authorizationToken" ++ ": " ++ quoted "TOK" ++ ","
  ++ String newline ("CONFIG_URL_EXTRA=https://x/extra.yaml" ++ String newline "}").

Definition stray_curl (c : curl_call) (w : nat) : nat * string * nat :=
  match curl_output c with
  | None => (0, stray_reply, S w)
  | Some _ => lab_curl c w
  end.

Definition stray_outside : Outside nat := {|
  curl := stray_curl;
  mkdir_p := lab_mkdir;
  dir_has_entries := lab_dir_has_entries;
  ls_la := lab_ls_la
|}.

(** The headers of the file fetches of a trace, with their URLs. *)
Fixpoint fetch_headers (evs : list event) : list (string * option string) :=
  match evs with
  | [] => []
  | EvCurl (mk_curl _ header url (Some _)) _ :: r => (url, header) :: fetch_headers r
  | _ :: r => fetch_headers r
  end.

End Entrypoint.

(* ================================================================== *)
(** * Part II. Facts *)
(* ================================================================== *)

(** ** Facts about the text utilities *)

Module TextFacts.
Import Text.

Lemma strip_prefix_app (p r : string) : strip_prefix p (p ++ r) = Some r.
Proof.
  induction p as [|a p IH]; simpl; [reflexivity|].
  rewrite Ascii.eqb_refl. exact IH.
Qed.

Lemma strip_prefix_some (p s r : string) : strip_prefix p s = Some r -> s = p ++ r.
Proof.
  revert s. induction p as [|a p IH]; intros s; simpl.
  - intros H. inversion H. reflexivity.
  - destruct s as [|b s]; [discriminate|].
    destruct (Ascii.eqb a b) eqn:E; [|discriminate].
    apply Ascii.eqb_eq in E. subst b. intros H. rewrite (IH _ H). reflexivity.
Qed.

Lemma starts_with_spec (p s : string) :
  starts_with p s = true <-> exists r, s = p ++ r.
Proof.
  unfold starts_with. split.
  - destruct (strip_prefix p s) as [r|] eqn:E; [|discriminate].
    intros _. exists r. apply strip_prefix_some, E.
  - intros [r ->]. rewrite strip_prefix_app. reflexivity.
Qed.


Lemma length_append (a b : string) :
  String.length (a ++ b) = (String.length a + String.length b)%nat.
Proof. induction a as [|c a IH]; simpl; [reflexivity|]. rewrite IH. reflexivity. Qed.

Lemma append_assoc (a b c : string) : (a ++ b) ++ c = a ++ (b ++ c).
Proof. induction a as [|x a IH]; simpl; [reflexivity|]. rewrite IH. reflexivity. Qed.

Lemma append_nil_r (a : string) : a ++ "" = a.
Proof. induction a as [|x a IH]; simpl; [reflexivity|]. rewrite IH. reflexivity. Qed.

(** [${s#p}] changes [s] exactly when [s] starts with a non-empty [p]. *)
Lemma remove_prefix_changes (p s : string) :
  p <> "" -> negb (String.eqb (remove_prefix p s) s) = starts_with p s.
Proof.
  intros Hp. unfold remove_prefix, starts_with.
  destruct (strip_prefix p s) as [r|] eqn:E.
  - apply strip_prefix_some in E. subst s.
    destruct (String.eqb r (p ++ r)) eqn:Er; [|reflexivity].
    apply String.eqb_eq in Er. exfalso.
    assert (H : String.length r = String.length (p ++ r)) by (rewrite <- Er; reflexivity).
    rewrite length_append in H. destruct p; [congruence|simpl in H; lia].
  - rewrite String.eqb_refl. reflexivity.
Qed.

Lemma contains_spec (p s : string) :
  contains p s = true <-> exists a b, s = a ++ p ++ b.
Proof.
  split.
  - induction s as [|c s IH]; simpl.
    + intros H. apply orb_true_iff in H. destruct H as [H|H]; [|discriminate].
      apply starts_with_spec in H.
      destruct H as [r Hr]. exists "", r. exact Hr.
    + intros H. apply orb_true_iff in H. destruct H as [H|H].
      * apply starts_with_spec in H. destruct H as [r Hr]. exists "", r. exact Hr.
      * destruct (IH H) as [a [b Hab]]. exists (String c a), b.
        simpl. rewrite Hab. reflexivity.
  - intros [a [b ->]]. induction a as [|c a IH]; simpl.
    + assert (H : starts_with p (p ++ b) = true)
        by (apply starts_with_spec; exists b; reflexivity).
      destruct (p ++ b); simpl; rewrite H; reflexivity.
    + apply orb_true_iff. right. exact IH.
Qed.

Lemma mem_char_append (c : ascii) (a b : string) :
  mem_char c (a ++ b) = mem_char c a || mem_char c b.
Proof.
  induction a as [|x a IH]; simpl; [reflexivity|].
  rewrite IH, orb_assoc. reflexivity.
Qed.

Lemma strip_trailing_newlines_line (t : string) :
  mem_char newline t = false ->
  strip_trailing_newlines (t ++ String newline "") = t.
Proof.
  induction t as [|c t IH]; [reflexivity|].
  cbn [mem_char append strip_trailing_newlines].
  intros H. apply orb_false_iff in H. destruct H as [Hc Ht].
  rewrite (IH Ht). destruct t as [|d t'].
  - rewrite Ascii.eqb_sym, Hc. reflexivity.
  - reflexivity.
Qed.

Lemma to_lower_newline (c : ascii) :
  Ascii.eqb newline (to_lower c) = Ascii.eqb newline c.
Proof.
  destruct c as [[] [] [] [] [] [] [] []]; reflexivity.
Qed.

Lemma mem_char_newline_lower (s : string) :
  mem_char newline (tr_upper_lower s) = mem_char newline s.
Proof.
  induction s as [|c s IH]; [reflexivity|].
  cbn [mem_char tr_upper_lower].
  rewrite IH, to_lower_newline. reflexivity.
Qed.

Lemma tr_upper_lower_append (a b : string) :
  tr_upper_lower (a ++ b) = tr_upper_lower a ++ tr_upper_lower b.
Proof. induction a as [|c a IH]; simpl; [reflexivity|]. rewrite IH. reflexivity. Qed.

Lemma break_equals_app (n v : string) :
  mem_char equals_sign n = false ->
  break_equals (n ++ String equals_sign v) = (n, Some v).
Proof.
  induction n as [|c n IH]; [reflexivity|].
  cbn [mem_char append break_equals].
  intros H. apply orb_false_iff in H. destruct H as [Hc Hn].
  rewrite Ascii.eqb_sym, Hc, (IH Hn). reflexivity.
Qed.

Lemma all_chars_append P (a b : string) :
  all_chars P (a ++ b) = all_chars P a && all_chars P b.
Proof.
  induction a as [|c a IH]; simpl; [reflexivity|].
  rewrite IH, andb_assoc. reflexivity.
Qed.

Lemma all_chars_remove_prefix P (p s : string) :
  all_chars P s = true -> all_chars P (remove_prefix p s) = true.
Proof.
  unfold remove_prefix. destruct (strip_prefix p s) as [r|] eqn:E; [|tauto].
  apply strip_prefix_some in E. subst s. rewrite all_chars_append.
  intros H. apply andb_true_iff in H. tauto.
Qed.

Lemma name_char_lower_plain (c : ascii) :
  is_name_char c = true ->
  Ascii.eqb "/"%char (to_lower c) = false /\ Ascii.eqb newline c = false.
Proof.
  destruct c as [[] [] [] [] [] [] [] []]; vm_compute; intros H;
    first [discriminate H | split; reflexivity].
Qed.

Lemma name_chars_no_newline (s : string) :
  all_chars is_name_char s = true -> mem_char newline s = false.
Proof.
  induction s as [|c s IH]; [reflexivity|].
  cbn [all_chars mem_char]. intros H. apply andb_true_iff in H. destruct H as [Hc Hs].
  destruct (name_char_lower_plain c Hc) as [_ Hn]. rewrite Hn, (IH Hs). reflexivity.
Qed.

Lemma name_chars_lower_no_slash (s : string) :
  all_chars is_name_char s = true -> mem_char "/"%char (tr_upper_lower s) = false.
Proof.
  induction s as [|c s IH]; [reflexivity|].
  cbn [all_chars mem_char tr_upper_lower]. intros H.
  apply andb_true_iff in H. destruct H as [Hc Hs].
  destruct (name_char_lower_plain c Hc) as [Hl _]. rewrite Hl, (IH Hs). reflexivity.
Qed.

(** The suffix computed for a one-line name. *)
Lemma sed_tr_suffix_line (p s : string) :
  mem_char newline (remove_prefix p s) = false ->
  sed_tr_suffix p s = tr_upper_lower (remove_prefix p s).
Proof.
  intros H. unfold sed_tr_suffix. rewrite tr_upper_lower_append.
  cbn [tr_upper_lower]. change (to_lower newline) with newline.
  apply strip_trailing_newlines_line. rewrite mem_char_newline_lower. exact H.
Qed.

Lemma inside_dir_file (dir a ending : string) :
  mem_char "/"%char a = false ->
  mem_char "/"%char ending = false ->
  2 < String.length ending ->
  inside_dir dir (dir ++ "/" ++ a ++ ending).
Proof.
  intros Ha He Hlen. exists (a ++ ending). split; [reflexivity|].
  split; [rewrite mem_char_append, Ha, He; reflexivity|].
  assert (Hl : 2 < String.length (a ++ ending)) by (rewrite length_append; lia).
  repeat split; intros E; rewrite E in Hl; simpl in Hl; lia.
Qed.

(** A response in which the quoted field name does not occur yields the
    empty string. *)
Lemma extract_json_field_absent (payload field : string) :
  contains (String double_quote field ++ String double_quote "") (tr_d_newline payload) = false ->
  extract_json_field payload field = "".
Proof.
  unfold extract_json_field.
  induction (tr_d_newline payload) as [|c r IH]; [reflexivity|].
  cbn [contains sed_capture_field]. intros H.
  apply orb_false_iff in H. destruct H as [Hhere Hrest].
  specialize (IH Hrest).
  destruct (sed_capture_field field r) as [v|] eqn:E.
  - exfalso. clear - E Hrest.
    revert v E. induction r as [|d r IHr]; intros v E; [discriminate|].
    cbn [contains sed_capture_field] in *.
    apply orb_false_iff in Hrest. destruct Hrest as [Hh Hr].
    destruct (sed_capture_field field r) as [v'|] eqn:E'; [eapply IHr; eauto|].
    unfold match_field_here, starts_with in *.
    destruct (strip_prefix _ (String d r)); [discriminate Hh|discriminate E].
  - unfold match_field_here, starts_with in *.
    destruct (strip_prefix _ (String c r)); [discriminate Hhere|reflexivity].
Qed.

Lemma lines_of_line (t r : string) :
  mem_char newline t = false ->
  lines_of (t ++ String newline r) = t :: lines_of r.
Proof.
  induction t as [|c t IH]; [reflexivity|].
  cbn [mem_char append lines_of]. intros H.
  apply orb_false_iff in H. destruct H as [Hc Ht].
  rewrite Ascii.eqb_sym, Hc, (IH Ht). reflexivity.
Qed.

(** [grep '^p'] looks at the name only, for a pattern without '='. *)
Lemma starts_with_entry (p n v : string) :
  mem_char equals_sign p = false ->
  starts_with p (n ++ String equals_sign v) = starts_with p n.
Proof.
  unfold starts_with. revert n. induction p as [|a p IH]; intros n; [reflexivity|].
  cbn [mem_char]. intros H. apply orb_false_iff in H. destruct H as [Ha Hp].
  destruct n as [|b n]; cbn [append strip_prefix].
  - rewrite Ascii.eqb_sym, Ha. reflexivity.
  - destruct (Ascii.eqb a b); [apply IH; exact Hp|reflexivity].
Qed.

(** [read] on the line NAME=value that [env] prints for a variable. *)
Lemma read_name_url_entry (n v : string) :
  mem_char equals_sign n = false ->
  read_name_url (n ++ "=" ++ v) = (n, read_last_field v).
Proof.
  intros H. unfold read_name_url.
  change ("=" ++ v) with (String equals_sign v).
  rewrite (break_equals_app n v H). reflexivity.
Qed.

(** ** More about extract_json_field *)

Lemma tr_d_newline_plain (s : string) : mem_char newline (tr_d_newline s) = false.
Proof.
  induction s as [|c s IH]; [reflexivity|].
  cbn [tr_d_newline]. destruct (Ascii.eqb c newline) eqn:E; [exact IH|].
  cbn [mem_char]. rewrite Ascii.eqb_sym, E, IH. reflexivity.
Qed.




Lemma until_quote_some (s v : string) :
  until_quote s = Some v ->
  mem_char double_quote v = false /\ exists post, s = v ++ String double_quote post.
Proof.
  revert v. induction s as [|c s IH]; intros v; cbn [until_quote]; [discriminate|].
  destruct (Ascii.eqb c double_quote) eqn:E.
  - intros H. inversion H; subst. split; [reflexivity|].
    apply Ascii.eqb_eq in E. subst c. exists s. reflexivity.
  - destruct (until_quote s) as [v'|]; [|discriminate].
    intros H. inversion H; subst. destruct (IH v' eq_refl) as [Hq [post Hpost]].
    split.
    + cbn [mem_char]. rewrite Ascii.eqb_sym, E, Hq. reflexivity.
    + exists post. cbn [append]. rewrite <- Hpost. reflexivity.
Qed.


Lemma skip_spaces_split (s : string) :
  exists ws, s = ws ++ skip_spaces s /\ all_chars is_space ws = true.
Proof.
  induction s as [|c s [ws [Hs Hws]]]; [exists ""; split; reflexivity|].
  cbn [skip_spaces]. destruct (is_space c) eqn:E.
  - exists (String c ws). split.
    + cbn [append]. rewrite <- Hs. reflexivity.
    + cbn [all_chars]. rewrite E, Hws. reflexivity.
  - exists "". split; reflexivity.
Qed.


(** What a match of the regex at the head of [s] looks like. *)
Lemma match_field_here_some (field s v : string) :
  match_field_here field s = Some v ->
  mem_char double_quote v = false
  /\ exists ws1 ws2 post,
       s = in_quotes field ++ ws1 ++ ":" ++ ws2 ++ in_quotes v ++ post
       /\ all_chars is_space ws1 = true /\ all_chars is_space ws2 = true.
Proof.
  unfold match_field_here.
  destruct (strip_prefix _ s) as [r1|] eqn:E1; [|discriminate].
  apply strip_prefix_some in E1.
  destruct (skip_spaces_split r1) as [ws1 [H1 Hws1]].
  destruct (skip_spaces r1) as [|c r2]; [discriminate|].
  destruct (Ascii.eqb c ":"%char) eqn:Ec; [|discriminate].
  apply Ascii.eqb_eq in Ec. subst c.
  destruct (skip_spaces_split r2) as [ws2 [H2 Hws2]].
  destruct (skip_spaces r2) as [|q r3]; [discriminate|].
  destruct (Ascii.eqb q double_quote) eqn:Eq; [|discriminate].
  apply Ascii.eqb_eq in Eq. subst q.
  intros Hv. apply until_quote_some in Hv. destruct Hv as [Hq [post Hpost]].
  split; [exact Hq|]. exists ws1, ws2, post. split; [|split; assumption].
  rewrite E1, H1, H2, Hpost. unfold in_quotes. cbn [append].
  rewrite !append_assoc. reflexivity.
Qed.

Lemma sed_capture_field_some (field s v : string) :
  sed_capture_field field s = Some v ->
  mem_char double_quote v = false
  /\ exists pre ws1 ws2 post,
       s = pre ++ in_quotes field ++ ws1 ++ ":" ++ ws2 ++ in_quotes v ++ post
       /\ all_chars is_space ws1 = true /\ all_chars is_space ws2 = true.
Proof.
  revert v. induction s as [|c s IH]; intros v; cbn [sed_capture_field]; [discriminate|].
  destruct (sed_capture_field field s) as [v'|].
  - intros H. inversion H; subst.
    destruct (IH v eq_refl) as [Hq [pre [ws1 [ws2 [post [Hs Hws]]]]]].
    split; [exact Hq|]. exists (String c pre), ws1, ws2, post.
    split; [|exact Hws]. rewrite Hs. reflexivity.
  - intros H. apply match_field_here_some in H.
    destruct H as [Hq [ws1 [ws2 [post [Hs Hws]]]]].
    split; [exact Hq|]. exists "", ws1, ws2, post. split; [exact Hs|exact Hws].
Qed.



Lemma mem_char_append_sub (c : ascii) (a b : string) :
  mem_char c (a ++ b) = false -> mem_char c a = false /\ mem_char c b = false.
Proof. rewrite mem_char_append. intros H. apply orb_false_iff in H. exact H. Qed.

Lemma sed_capture_field_plain (c : ascii) (field s v : string) :
  mem_char c s = false -> sed_capture_field field s = Some v -> mem_char c v = false.
Proof.
  intros Hc H.
  destruct (sed_capture_field_some _ _ _ H) as [_ [pre [ws1 [ws2 [post [Hs _]]]]]].
  rewrite Hs in Hc.
  apply mem_char_append_sub in Hc. destruct Hc as [_ Hc].
  apply mem_char_append_sub in Hc. destruct Hc as [_ Hc].
  apply mem_char_append_sub in Hc. destruct Hc as [_ Hc].
  apply mem_char_append_sub in Hc. destruct Hc as [_ Hc].
  apply mem_char_append_sub in Hc. destruct Hc as [_ Hc].
  apply mem_char_append_sub in Hc. destruct Hc as [Hc _].
  unfold in_quotes in Hc. cbn [mem_char] in Hc.
  apply orb_false_iff in Hc. destruct Hc as [_ Hc].
  apply mem_char_append_sub in Hc. tauto.
Qed.

Lemma extract_json_field_of_capture (payload field v : string) :
  sed_capture_field field (tr_d_newline payload) = Some v ->
  extract_json_field payload field = v.
Proof.
  intros H. unfold extract_json_field. rewrite H.
  apply strip_trailing_newlines_line.
  exact (sed_capture_field_plain _ _ _ _ (tr_d_newline_plain payload) H).
Qed.













Lemma extract_json_field_plain (payload field : string) :
  mem_char newline (extract_json_field payload field) = false.
Proof.
  destruct (sed_capture_field field (tr_d_newline payload)) as [v|] eqn:E.
  - rewrite (extract_json_field_of_capture _ _ _ E).
    exact (sed_capture_field_plain _ _ _ _ (tr_d_newline_plain payload) E).
  - unfold extract_json_field. rewrite E. reflexivity.
Qed.

(** ** More about read and the file-name stem *)

Lemma break_equals_some (s a b : string) :
  break_equals s = (a, Some b) ->
  s = a ++ String equals_sign b /\ mem_char equals_sign a = false.
Proof.
  revert a. induction s as [|c s IH]; intros a; cbn [break_equals]; [discriminate|].
  destruct (Ascii.eqb c equals_sign) eqn:E.
  - intros H. inversion H; subst. apply Ascii.eqb_eq in E. subst c.
    split; reflexivity.
  - destruct (break_equals s) as [a' b'] eqn:Es. intros H. inversion H; subst.
    destruct (IH a' eq_refl) as [Hs Ha]. split.
    + cbn [append]. rewrite <- Hs. reflexivity.
    + cbn [mem_char]. rewrite Ascii.eqb_sym, E, Ha. reflexivity.
Qed.

(** X5. What [read] makes of a line NAME=value: the name, and the value
    as it is, unless the value is one piece without an equals sign closed
    by a single equals sign; then that closing sign is dropped, and the
    URL fetched is the value without it. *)
Theorem read_url_field (name value : string) :
  mem_char equals_sign name = false ->
  (forall f, mem_char equals_sign f = false -> value = f ++ "=" ->
             read_name_url (name ++ "=" ++ value) = (name, f))
  /\ ((forall f, mem_char equals_sign f = false -> value <> f ++ "=") ->
      read_name_url (name ++ "=" ++ value) = (name, value)).
Proof.
  intros Hname. rewrite (read_name_url_entry name value Hname). split.
  - intros f Hf ->. unfold read_last_field.
    change (f ++ "=") with (f ++ String equals_sign "").
    rewrite (break_equals_app f "" Hf). reflexivity.
  - intros Hno. unfold read_last_field.
    destruct (break_equals value) as [f [[|c r]|]] eqn:E; try reflexivity.
    exfalso. destruct (break_equals_some _ _ _ E) as [Hv Hf].
    exact (Hno f Hf Hv).
Qed.

Lemma to_lower_no_upper (c : ascii) : is_upper (to_lower c) = false.
Proof. destruct c as [[] [] [] [] [] [] [] []]; vm_compute; reflexivity. Qed.

Lemma tr_upper_lower_no_upper (s : string) : no_upper (tr_upper_lower s) = true.
Proof.
  unfold no_upper. induction s as [|c s IH]; [reflexivity|].
  cbn [tr_upper_lower all_chars]. rewrite to_lower_no_upper, IH. reflexivity.
Qed.

Lemma strip_trailing_newlines_chars P (s : string) :
  all_chars P s = true -> all_chars P (strip_trailing_newlines s) = true.
Proof.
  induction s as [|c s IH]; [reflexivity|].
  cbn [all_chars strip_trailing_newlines]. intros H.
  apply andb_true_iff in H. destruct H as [Hc Hs]. specialize (IH Hs).
  destruct (strip_trailing_newlines s) as [|d r].
  - destruct (Ascii.eqb c newline); [reflexivity|].
    cbn [all_chars]. rewrite Hc. reflexivity.
  - cbn [all_chars] in *. rewrite Hc. exact IH.
Qed.

(** The stem of a file name is free of upper-case letters, whatever the
    variable is called. *)
Lemma sed_tr_suffix_no_upper (p s : string) : no_upper (sed_tr_suffix p s) = true.
Proof.
  unfold sed_tr_suffix. apply strip_trailing_newlines_chars.
  apply tr_upper_lower_no_upper.
Qed.

Lemma plain_default (a b : string) :
  mem_char newline a = false -> mem_char newline b = false ->
  mem_char newline (default_if_null a b) = false.
Proof. unfold default_if_null. destruct (nonempty a); tauto. Qed.

Lemma plain_append (a b : string) :
  mem_char newline a = false -> mem_char newline b = false ->
  mem_char newline (a ++ b) = false.
Proof. intros Ha Hb. rewrite mem_char_append, Ha, Hb. reflexivity. Qed.

End TextFacts.

(** ** Facts about the shell store *)

Module ShellFacts.
Import Text Shell TextFacts.

Lemma env_output_single_lines (env : list (string * string)) :
  forallb single_line_entry env = true ->
  lines_of (env_output env) = map entry_line env.
Proof.
  induction env as [|[n v] r IH]; [reflexivity|].
  cbn [forallb env_output map]. intros H.
  apply andb_true_iff in H. destruct H as [Hnv Hr].
  unfold single_line_entry in Hnv. cbn [fst snd] in Hnv.
  apply andb_true_iff in Hnv. destruct Hnv as [Hnv Hv].
  apply andb_true_iff in Hnv. destruct Hnv as [Hn He].
  apply negb_true_iff in Hn, He, Hv.
  replace (n ++ "=" ++ v ++ String newline (env_output r))
    with ((n ++ "=" ++ v) ++ String newline (env_output r))
    by (rewrite !append_assoc; reflexivity).
  rewrite lines_of_line, (IH Hr); [reflexivity|].
  rewrite !mem_char_append, Hn, Hv. reflexivity.
Qed.

Lemma sh_get_unset (s : store) (x : string) :
  sh_isset s x = false -> sh_get s x = EmptyString.
Proof.
  induction s as [|e r IH]; simpl; [reflexivity|].
  destruct (String.eqb (v_name e) x); simpl; [discriminate|exact IH].
Qed.

Lemma sh_get_update (f : variable -> bool) (s : store) (x v y : string) :
  sh_isset s x = true ->
  sh_get (map (fun e => if String.eqb (v_name e) x then mk_var x v (f e) else e) s) y
  = if String.eqb x y then v else sh_get s y.
Proof.
  induction s as [|e r IH]; simpl; [discriminate|].
  destruct (String.eqb (v_name e) x) eqn:Ex; simpl.
  - intros _. apply String.eqb_eq in Ex.
    destruct (String.eqb x y) eqn:Exy; [reflexivity|].
    rewrite Ex, Exy.
    destruct (sh_isset r x) eqn:Er.
    + apply IH. reflexivity.
    + clear IH. induction r as [|e' r' IH']; simpl in *; [reflexivity|].
      destruct (String.eqb (v_name e') x) eqn:Ex'; simpl in Er; [discriminate|].
      rewrite (IH' Er). reflexivity.
  - intros Hr. rewrite (IH Hr).
    destruct (String.eqb (v_name e) y) eqn:Ey; [|reflexivity].
    apply String.eqb_eq in Ey. subst y. rewrite String.eqb_sym, Ex. reflexivity.
Qed.

Lemma sh_get_append (s : store) (x v y : string) (b : bool) :
  sh_isset s x = false ->
  sh_get (s ++ [mk_var x v b])%list y = if String.eqb x y then v else sh_get s y.
Proof.
  induction s as [|e r IH]; simpl.
  - destruct (String.eqb x y); reflexivity.
  - destruct (String.eqb (v_name e) x) eqn:Ex; simpl; [discriminate|].
    intros Hr. rewrite (IH Hr).
    destruct (String.eqb (v_name e) y) eqn:Ey; [|reflexivity].
    apply String.eqb_eq in Ey. subst y. rewrite String.eqb_sym, Ex. reflexivity.
Qed.

Lemma sh_get_assign (s : store) (x v y : string) :
  sh_get (sh_assign s x v) y = if String.eqb x y then v else sh_get s y.
Proof.
  unfold sh_assign. destruct (sh_isset s x) eqn:E.
  - apply (sh_get_update v_exported); exact E.
  - apply sh_get_append; exact E.
Qed.

Lemma sh_get_export (s : store) (x v y : string) :
  sh_get (sh_export s x v) y = if String.eqb x y then v else sh_get s y.
Proof.
  unfold sh_export. destruct (sh_isset s x) eqn:E.
  - apply (sh_get_update (fun _ => true)); exact E.
  - apply sh_get_append; exact E.
Qed.

Lemma sh_get_import (env : list (string * string)) (x : string) :
  sh_get (import_env env) x
  = match env_lookup env x with Some v => v | None => EmptyString end.
Proof.
  induction env as [|[n v] r IH]; simpl; [reflexivity|].
  destruct (String.eqb n x); [reflexivity|exact IH].
Qed.

(** After [export x=v] a child process sees [x=v]. *)
Lemma env_lookup_export (s : store) (x v : string) :
  env_lookup (exported_env (sh_export s x v)) x = Some v.
Proof.
  unfold sh_export, exported_env. destruct (sh_isset s x) eqn:E.
  - induction s as [|e r IH]; simpl in *; [discriminate|].
    destruct (String.eqb (v_name e) x) eqn:Ex; simpl.
    + rewrite String.eqb_refl. reflexivity.
    + simpl in E. destruct (v_exported e); simpl; [rewrite Ex|]; apply IH; exact E.
  - induction s as [|e r IH]; simpl in *.
    + rewrite String.eqb_refl. reflexivity.
    + destruct (String.eqb (v_name e) x) eqn:Ex; simpl in E; [discriminate|].
      destruct (v_exported e); simpl; [rewrite Ex|]; apply IH; exact E.
Qed.

(** ** What assignments do to the environment of a child process *)

Lemma exported_env_import (env : list (string * string)) :
  exported_env (import_env env) = env.
Proof.
  unfold exported_env, import_env.
  induction env as [|[n v] r IH]; [reflexivity|].
  cbn [map filter v_exported v_name v_value fst snd]. rewrite IH. reflexivity.
Qed.

(** [x=v] changes the value of the exported entries named [x], and
    neither adds nor removes an entry. *)
Lemma exported_env_assign (s : store) (x v : string) :
  exported_env (sh_assign s x v)
  = map (fun nv => if String.eqb (fst nv) x then (x, v) else nv) (exported_env s).
Proof.
  unfold sh_assign, exported_env. destruct (sh_isset s x) eqn:E.
  - clear E. induction s as [|e r IH]; [reflexivity|].
    cbn [map filter]. destruct (String.eqb (v_name e) x) eqn:Ex.
    + cbn [v_exported]. destruct (v_exported e); [|exact IH].
      cbn [map v_name v_value fst]. rewrite Ex, IH. reflexivity.
    + destruct (v_exported e); [|exact IH].
      cbn [map v_name v_value fst]. rewrite Ex, IH. reflexivity.
  - rewrite filter_app. cbn [filter v_exported]. rewrite app_nil_r.
    induction s as [|e r IH]; [reflexivity|].
    cbn [sh_isset] in E. apply orb_false_iff in E. destruct E as [He Hr].
    cbn [filter]. destruct (v_exported e); [|exact (IH Hr)].
    cbn [map fst]. rewrite He, <- (IH Hr). reflexivity.
Qed.

Lemma env_lookup_assign_other (s : store) (x v y : string) :
  String.eqb x y = false ->
  env_lookup (exported_env (sh_assign s x v)) y = env_lookup (exported_env s) y.
Proof.
  intros Hxy. rewrite exported_env_assign.
  induction (exported_env s) as [|[n old] r IH]; [reflexivity|].
  cbn [map fst env_lookup]. destruct (String.eqb n x) eqn:En.
  - apply String.eqb_eq in En. subst n. cbn [env_lookup]. rewrite Hxy. exact IH.
  - cbn [env_lookup]. rewrite IH. reflexivity.
Qed.

Lemma env_lookup_assign_none (s : store) (x v y : string) :
  env_lookup (exported_env s) y = None ->
  env_lookup (exported_env (sh_assign s x v)) y = None.
Proof.
  rewrite exported_env_assign.
  induction (exported_env s) as [|[n old] r IH]; [reflexivity|].
  cbn [map fst env_lookup]. destruct (String.eqb n y) eqn:Eny; [discriminate|].
  intros H. destruct (String.eqb n x) eqn:En.
  - apply String.eqb_eq in En. subst n. cbn [env_lookup]. rewrite Eny. exact (IH H).
  - cbn [env_lookup]. rewrite Eny. exact (IH H).
Qed.


(** [export x=v] leaves every other name as a child process sees it. *)
Lemma env_lookup_export_other (s : store) (x v y : string) :
  String.eqb x y = false ->
  env_lookup (exported_env (sh_export s x v)) y = env_lookup (exported_env s) y.
Proof.
  intros Hxy. unfold sh_export, exported_env. destruct (sh_isset s x).
  - induction s as [|e r IH]; [reflexivity|].
    cbn [map filter]. destruct (String.eqb (v_name e) x) eqn:Ex.
    + apply String.eqb_eq in Ex. cbn [v_exported map v_name v_value env_lookup].
      rewrite Hxy. rewrite IH. destruct (v_exported e); [|reflexivity].
      cbn [map env_lookup]. rewrite Ex, Hxy. reflexivity.
    + destruct (v_exported e); [|exact IH].
      cbn [map env_lookup]. rewrite IH. reflexivity.
  - rewrite filter_app, map_app. cbn [filter v_exported map v_name v_value].
    induction (map (fun e => (v_name e, v_value e)) (filter v_exported s))
      as [|[n old] r IH].
    + cbn [app env_lookup]. rewrite Hxy. reflexivity.
    + cbn [app env_lookup]. rewrite IH. reflexivity.
Qed.

Lemma assigned_lookup xs s s' y :
  assigned xs s s' -> ~ In y xs ->
  env_lookup (exported_env s') y = env_lookup (exported_env s) y.
Proof.
  intros H Hy. induction H as [|s s' x v H IH Hx]; [reflexivity|].
  rewrite env_lookup_assign_other; [exact IH|].
  apply String.eqb_neq. intros ->. exact (Hy Hx).
Qed.

Lemma assigned_lookup_none xs s s' y :
  assigned xs s s' -> env_lookup (exported_env s) y = None ->
  env_lookup (exported_env s') y = None.
Proof.
  intros H Hy. induction H as [|s s' x v H IH Hx]; [exact Hy|].
  apply env_lookup_assign_none. auto.
Qed.


Lemma assigned_trans xs s1 s2 s3 :
  assigned xs s1 s2 -> assigned xs s2 s3 -> assigned xs s1 s3.
Proof.
  intros H12 H23. induction H23 as [|s2 s3 x v H IH Hx]; [exact H12|].
  apply assigned_more; [exact (IH H12)|exact Hx].
Qed.

(** ** One-line stores *)

Lemma neat_get (s : store) (x : string) :
  neat s = true -> String.eqb x "backblaze_auth_response" = false ->
  mem_char newline (sh_get s x) = false.
Proof.
  intros Hs Hx. induction s as [|e r IH]; [reflexivity|].
  cbn [neat forallb] in Hs. apply andb_true_iff in Hs. destruct Hs as [He Hr].
  cbn [sh_get]. destruct (String.eqb (v_name e) x) eqn:Ex; [|exact (IH Hr)].
  apply String.eqb_eq in Ex. unfold neat_variable in He. rewrite Ex, Hx in He.
  apply negb_true_iff in He. exact He.
Qed.

Lemma neat_assign (s : store) (x v : string) :
  neat s = true ->
  String.eqb x "backblaze_auth_response" = true \/ mem_char newline v = false ->
  neat (sh_assign s x v) = true.
Proof.
  intros Hs Hv. unfold sh_assign. destruct (sh_isset s x).
  - induction s as [|e r IH]; [reflexivity|].
    cbn [neat forallb] in Hs. apply andb_true_iff in Hs. destruct Hs as [He Hr].
    cbn [map neat forallb]. apply andb_true_iff. split; [|exact (IH Hr)].
    destruct (String.eqb (v_name e) x) eqn:Ex; [|exact He].
    apply String.eqb_eq in Ex. unfold neat_variable in *. cbn [v_name v_value v_exported].
    rewrite Ex in He. destruct (String.eqb x "backblaze_auth_response"); [exact He|].
    destruct Hv as [Hv|Hv]; [discriminate Hv|]. rewrite Hv. reflexivity.
  - unfold neat. rewrite forallb_app. apply andb_true_iff. split; [exact Hs|].
    cbn [forallb]. unfold neat_variable. cbn [v_name v_value v_exported].
    destruct (String.eqb x "backblaze_auth_response"); [reflexivity|].
    destruct Hv as [Hv|Hv]; [discriminate Hv|]. rewrite Hv. reflexivity.
Qed.








End ShellFacts.

(** ** Facts about the script, and the properties of the specification *)

Module EntrypointSpec.
Import Text Shell Entrypoint TextFacts ShellFacts.

Section Facts.

Context {World : Type} {outside : Outside World}.

Local Abbreviation machine := (machine World).
Local Abbreviation sh_m := (sh_m World).

Lemma prepend_nil {A} (x : list event * result A * machine) : prepend [] x = x.
Proof. destruct x as [[e r] m]. reflexivity. Qed.

Lemma prepend_prepend {A} e1 e2 (x : list event * result A * machine) :
  prepend e1 (prepend e2 x) = prepend (e1 ++ e2)%list x.
Proof. destruct x as [[e r] m]. simpl. rewrite app_assoc. reflexivity. Qed.

Lemma bind_ret {A B} (a : A) (k : A -> sh_m B) m : bind (ret a) k m = k a m.
Proof. unfold bind, ret. destruct (k a m) as [[e r] m2]. reflexivity. Qed.

Lemma bind_var {B} x (k : string -> sh_m B) m :
  bind (var x) k m = k (sh_get (sh m) x) m.
Proof. unfold bind, var. destruct (k _ m) as [[e r] m2]. reflexivity. Qed.

Lemma bind_assign {B} x v (k : unit -> sh_m B) m :
  bind (assign x v) k m = k tt (mk_machine (sh_assign (sh m) x v) (world m)).
Proof. unfold bind, assign. destruct (k tt _) as [[e r] m2]. reflexivity. Qed.

Lemma bind_export {B} x v (k : unit -> sh_m B) m :
  bind (export x v) k m = k tt (mk_machine (sh_export (sh m) x v) (world m)).
Proof. unfold bind, export. destruct (k tt _) as [[e r] m2]. reflexivity. Qed.

Lemma bind_emit {B} ev (k : unit -> sh_m B) m :
  bind (emit ev) k m = prepend [ev] (k tt m).
Proof. reflexivity. Qed.

Lemma bind_exit {A B} code (k : A -> sh_m B) m :
  bind (exit code) k m = ([], Exit code, m).
Proof. reflexivity. Qed.

Lemma bind_errexit {B} status (k : unit -> sh_m B) m :
  bind (errexit status) k m
  = if Nat.eqb status 0 then k tt m else ([], Exit status, m).
Proof.
  unfold bind, errexit. destruct (Nat.eqb status 0); [|reflexivity].
  destruct (k tt m) as [[e r] m2]. reflexivity.
Qed.

Lemma bind_run_curl {B} c (k : nat * string -> sh_m B) m :
  bind (run_curl c) k m
  = prepend [EvCurl c (fst (fst (curl c (world m))))]
      (k (fst (curl c (world m))) (mk_machine (sh m) (snd (curl c (world m))))).
Proof.
  unfold bind, run_curl. destruct (curl c (world m)) as [[st out] w]. reflexivity.
Qed.

Lemma bind_bind {A B C} (c : sh_m A) (k : A -> sh_m B) (h : B -> sh_m C) m :
  bind (bind c k) h m = bind c (fun a => bind (k a) h) m.
Proof.
  unfold bind. destruct (c m) as [[e1 [a|code]] m1]; [|reflexivity].
  destruct (k a m1) as [[e2 [b|code]] m2]; [|reflexivity].
  destruct (h b m2) as [[e3 r] m3]. rewrite app_assoc. reflexivity.
Qed.

Lemma bind_if {A B} (b : bool) (c1 c2 : sh_m A) (k : A -> sh_m B) m :
  bind (if b then c1 else c2) k m = if b then bind c1 k m else bind c2 k m.
Proof. destruct b; reflexivity. Qed.

Lemma apply_if {A} (b : bool) (c1 c2 : sh_m A) m :
  (if b then c1 else c2) m = if b then c1 m else c2 m.
Proof. destruct b; reflexivity. Qed.

Ltac sh_reads :=
  repeat (rewrite sh_get_assign;
          match goal with
          | |- context [String.eqb ?a ?b] =>
              let r := eval vm_compute in (String.eqb a b) in
              change (String.eqb a b) with r; cbv iota
          end).

Ltac sh_step :=
  first [ rewrite bind_bind | rewrite bind_ret | rewrite bind_var
        | rewrite bind_assign | rewrite bind_export | rewrite bind_emit
        | rewrite bind_exit | rewrite bind_errexit | rewrite bind_run_curl
        | rewrite bind_if | rewrite apply_if ];
  cbn [sh world fst snd].

Ltac sh_run := repeat sh_step; sh_reads.

Lemma agree_except_refl xs s : agree_except xs s s.
Proof. intros x _. reflexivity. Qed.

Lemma agree_except_trans xs s1 s2 s3 :
  agree_except xs s1 s2 -> agree_except xs s2 s3 -> agree_except xs s1 s3.
Proof. intros H12 H23 x Hx. rewrite (H23 x Hx). apply H12, Hx. Qed.

Lemma agree_except_assign xs s x v :
  In x xs -> agree_except xs s (sh_assign s x v).
Proof.
  intros Hin y Hy. rewrite sh_get_assign.
  destruct (String.eqb x y) eqn:E; [|reflexivity].
  apply String.eqb_eq in E. subst y. contradiction.
Qed.

Lemma agree_except_weaken xs ys s s' :
  incl xs ys -> agree_except xs s s' -> agree_except ys s s'.
Proof. intros Hi H x Hx. apply H. intros Hin. apply Hx, Hi, Hin. Qed.

Ltac agree_tac :=
  repeat (eapply agree_except_trans;
          [|apply agree_except_assign; simpl; tauto]);
  apply agree_except_refl.

Lemma fetch_file_run (u d : string) (m : machine) :
  exists s',
    fetch_file u d m
    = ([EvStdout ("Fetching " ++ u ++ " -> " ++ d);
        EvCurl (fetch_call (sh m) u d)
               (fst (fst (curl (fetch_call (sh m) u d) (world m))))],
       status_result (fst (fst (curl (fetch_call (sh m) u d) (world m)))),
       mk_machine s' (snd (curl (fetch_call (sh m) u d) (world m))))
    /\ agree_except ["url"; "dest"] (sh m) s'.
Proof.
  unfold fetch_call, attached_header, fetch_file, echo, curl_to_file, call_is_backblaze_url.
  destruct m as [s w]. sh_run.
  destruct (nonempty (sh_get s "AUTH_HEADER")); simpl;
    [|destruct (nonempty (sh_get s "BACKBLAZE_AUTH_HEADER")); simpl;
      [destruct (is_backblaze_url (sh_get s "BACKBLAZE_DOWNLOAD_URL") u)|]];
    sh_run;
    unfold errexit, status_result;
    match goal with
    | |- context [Nat.eqb ?st 0] => destruct (Nat.eqb st 0)
    end;
    (eexists; split; [reflexivity|agree_tac]).
Qed.

Lemma attached_header_agree xs s s' u :
  agree_except xs s s' ->
  ~ In "AUTH_HEADER" xs -> ~ In "BACKBLAZE_AUTH_HEADER" xs ->
  ~ In "BACKBLAZE_DOWNLOAD_URL" xs ->
  attached_header s' u = attached_header s u.
Proof.
  intros H Ha Hb Hd. unfold attached_header.
  rewrite (H _ Ha), (H _ Hb), (H _ Hd). reflexivity.
Qed.

Lemma fetch_call_agree xs s s' u d :
  agree_except xs s s' ->
  ~ In "AUTH_HEADER" xs -> ~ In "BACKBLAZE_AUTH_HEADER" xs ->
  ~ In "BACKBLAZE_DOWNLOAD_URL" xs ->
  fetch_call s' u d = fetch_call s u d.
Proof.
  intros. unfold fetch_call. erewrite attached_header_agree; eauto.
Qed.

Lemma fetch_all_agree xs s s' reqs w :
  agree_except xs s s' ->
  ~ In "AUTH_HEADER" xs -> ~ In "BACKBLAZE_AUTH_HEADER" xs ->
  ~ In "BACKBLAZE_DOWNLOAD_URL" xs ->
  fetch_all s' reqs w = fetch_all s reqs w.
Proof.
  intros H Ha Hb Hd. revert w.
  induction reqs as [|[u d] rest IH]; intros w; simpl; [reflexivity|].
  unfold fetch_trace. rewrite (fetch_call_agree xs s s' u d H Ha Hb Hd).
  rewrite IH. reflexivity.
Qed.

Ltac not_in_list :=
  let H := fresh in
  intros H; unfold scratch in H; simpl in H; intuition discriminate.

(** One turn of a loop: [read] sets name and url, then the body runs. *)
Lemma iteration_run (prefix ending line : string) (k : sh_m unit) (m : machine) :
  exists s',
    agree_except scratch (sh m) s' /\
    (read_line line ;; loop_body prefix ending ;; k) m
    = match line_request prefix ending (sh_get (sh m) "CONFIG_DIR") line with
      | None => k (mk_machine s' (world m))
      | Some (u, d) =>
          if Nat.eqb (fst (fst (curl (fetch_call (sh m) u d) (world m)))) 0
          then prepend (fetch_trace (sh m) u d (world m))
                 (k (mk_machine s' (snd (curl (fetch_call (sh m) u d) (world m)))))
          else (fetch_trace (sh m) u d (world m),
                Exit (fst (fst (curl (fetch_call (sh m) u d) (world m)))),
                mk_machine s' (snd (curl (fetch_call (sh m) u d) (world m))))
      end.
Proof.
  destruct m as [s w]. unfold line_request, loop_body, read_line.
  set (name := fst (read_name_url line)). set (url := snd (read_name_url line)).
  sh_run. destruct (nonempty url) eqn:Eu.
  - sh_run.
    match goal with
    | |- context [bind (fetch_file ?u ?d) _ ?m] =>
        destruct (fetch_file_run u d m) as [s' [Hrun Hag]]
    end.
    cbn [sh world] in Hrun, Hag.
    exists s'. split.
    + eapply agree_except_trans;
        [|eapply agree_except_weaken; [|exact Hag]; intros x Hx; simpl in *; tauto].
      unfold scratch.
      repeat (eapply agree_except_trans;
              [|apply agree_except_assign; simpl; tauto]).
      apply agree_except_refl.
    + unfold bind at 1. rewrite Hrun. unfold fetch_trace.
      match goal with
      | |- context [fetch_call ?s1 url ?d] =>
          assert (Hc : fetch_call s1 url d = fetch_call s url d)
      end.
      { apply (fetch_call_agree scratch); try not_in_list.
        unfold scratch.
        repeat (eapply agree_except_trans;
                [|apply agree_except_assign; simpl; tauto]).
        apply agree_except_refl. }
      rewrite Hc. unfold status_result.
      destruct (Nat.eqb _ 0); reflexivity.
  - sh_run. eexists. split; [|reflexivity].
    unfold scratch.
    repeat (eapply agree_except_trans;
            [|apply agree_except_assign; simpl; tauto]).
    apply agree_except_refl.
Qed.

Lemma while_read_run (prefix ending : string) (lines : list string) (m : machine) :
  exists s',
    agree_except scratch (sh m) s' /\
    while_read (loop_body prefix ending) lines m
    = let '(evs, r, w') :=
        fetch_all (sh m) (requests prefix ending (sh_get (sh m) "CONFIG_DIR") lines)
                  (world m) in
      (evs, r, mk_machine s' w').
Proof.
  revert m. induction lines as [|line rest IH]; intros [s w]; cbn [sh world].
  - exists s. split; [apply agree_except_refl|reflexivity].
  - cbn [while_read requests].
    destruct (iteration_run prefix ending line
                (while_read (loop_body prefix ending) rest) (mk_machine s w))
      as [s1 [Hag1 Hrun]].
    cbn [sh world] in Hag1, Hrun. rewrite Hrun. clear Hrun.
    assert (Hcfg : sh_get s1 "CONFIG_DIR" = sh_get s "CONFIG_DIR")
      by (apply Hag1; not_in_list).
    assert (Hall : forall reqs w0, fetch_all s1 reqs w0 = fetch_all s reqs w0)
      by (intros; apply (fetch_all_agree scratch); try not_in_list; exact Hag1).
    destruct (line_request prefix ending (sh_get s "CONFIG_DIR") line) as [[u d]|].
    + cbn [fetch_all].
      destruct (Nat.eqb (fst (fst (curl (fetch_call s u d) w))) 0).
      * destruct (IH (mk_machine s1 (snd (curl (fetch_call s u d) w))))
          as [s2 [Hag2 Hrun2]].
        cbn [sh world] in Hag2, Hrun2. rewrite Hrun2, Hcfg, Hall.
        exists s2. split; [eapply agree_except_trans; eauto|].
        destruct (fetch_all s _ _) as [[evs r] w']. reflexivity.
      * exists s1. split; [exact Hag1|reflexivity].
    + destruct (IH (mk_machine s1 w)) as [s2 [Hag2 Hrun2]].
      cbn [sh world] in Hag2, Hrun2. rewrite Hrun2, Hcfg, Hall.
      exists s2. split; [eapply agree_except_trans; eauto|reflexivity].
Qed.

Lemma fetch_all_exit_status s reqs w evs code w' :
  fetch_all s reqs w = (evs, Exit code, w') -> code <> 0.
Proof.
  revert w evs. induction reqs as [|[u d] rest IH]; intros w evs; simpl.
  - discriminate.
  - destruct (Nat.eqb (fst (fst (curl (fetch_call s u d) w))) 0) eqn:E.
    + destruct (fetch_all s rest _) as [[evs1 r1] w1] eqn:E1.
      intros H. inversion H; subst. eapply IH; eauto.
    + intros H. inversion H; subst. apply Nat.eqb_neq in E. exact E.
Qed.

(** A whole pipeline [env | grep '^PREFIX' | while ...]: the requests of
    the selected lines are fetched in order; the variables of the calling
    shell are untouched. *)
Lemma env_grep_while_run (prefix ending : string) (m : machine) :
  env_grep_while prefix (loop_body prefix ending) m
  = let '(evs, r, w') :=
      fetch_all (sh m)
        (requests prefix ending (sh_get (sh m) "CONFIG_DIR")
           (grep_anchored prefix (env_lines (sh m))))
        (world m) in
    (evs, r, mk_machine (sh m) w').
Proof.
  unfold env_grep_while, bind, subshell.
  destruct (while_read_run prefix ending
              (grep_anchored prefix (env_lines (sh m))) m) as [s' [_ Hrun]].
  rewrite Hrun.
  destruct (fetch_all _ _ _) as [[evs r] w'] eqn:E.
  destruct r as [[]|code]; unfold errexit; cbn [Nat.eqb sh world].
  - rewrite app_nil_r. reflexivity.
  - apply fetch_all_exit_status in E.
    destruct code as [|n]; [contradiction|].
    cbn [Nat.eqb]. rewrite app_nil_r. reflexivity.
Qed.

Lemma bind_ret_tt (c : sh_m unit) (m : machine) : (c ;; ret tt) m = c m.
Proof.
  unfold bind, ret. destruct (c m) as [[e [[]|code]] m1]; [|reflexivity].
  rewrite app_nil_r. reflexivity.
Qed.

(** One turn of a loop on its own. *)
Lemma loop_turn_run (prefix ending line : string) (m : machine) :
  exists s',
    agree_except scratch (sh m) s' /\
    (read_line line ;; loop_body prefix ending) m
    = match line_request prefix ending (sh_get (sh m) "CONFIG_DIR") line with
      | None => ([], Ret tt, mk_machine s' (world m))
      | Some (u, d) =>
          (fetch_trace (sh m) u d (world m),
           status_result (fst (fst (curl (fetch_call (sh m) u d) (world m)))),
           mk_machine s' (snd (curl (fetch_call (sh m) u d) (world m))))
      end.
Proof.
  destruct (iteration_run prefix ending line (ret tt) m) as [s' [Hag Hrun]].
  exists s'. split; [exact Hag|].
  assert (E : (read_line line ;; loop_body prefix ending) m
              = (read_line line ;; loop_body prefix ending ;; ret tt) m).
  { unfold bind, ret. destruct (read_line line m) as [[e1 [[]|code]] m1]; [|reflexivity].
    destruct (loop_body prefix ending m1) as [[e2 [[]|code]] m2]; [|reflexivity].
    rewrite app_nil_r. reflexivity. }
  rewrite E, Hrun.
  destruct (line_request _ _ _ _) as [[u d]|]; [|reflexivity].
  unfold status_result, ret, prepend.
  destruct (Nat.eqb _ 0); [rewrite app_nil_r|]; reflexivity.
Qed.

Lemma fetch_main_config_run (m : machine) :
  exists s',
    agree_except ["url"; "dest"] (sh m) s' /\
    fetch_main_config m
    = if nonempty (sh_get (sh m) "LITELLM_CONFIG_URL")
      then (fetch_trace (sh m) (sh_get (sh m) "LITELLM_CONFIG_URL")
              (sh_get (sh m) "CONFIG_DIR" ++ "/config.yaml") (world m),
            status_result
              (fst (fst (curl (fetch_call (sh m) (sh_get (sh m) "LITELLM_CONFIG_URL")
                                 (sh_get (sh m) "CONFIG_DIR" ++ "/config.yaml"))
                              (world m)))),
            mk_machine s'
              (snd (curl (fetch_call (sh m) (sh_get (sh m) "LITELLM_CONFIG_URL")
                            (sh_get (sh m) "CONFIG_DIR" ++ "/config.yaml"))
                         (world m))))
      else ([], Ret tt, m).
Proof.
  unfold fetch_main_config. sh_run.
  destruct (nonempty (sh_get (sh m) "LITELLM_CONFIG_URL")).
  - sh_run.
    destruct (fetch_file_run (sh_get (sh m) "LITELLM_CONFIG_URL")
                (sh_get (sh m) "CONFIG_DIR" ++ "/config.yaml") m) as [s' [Hrun Hag]].
    exists s'. split; [exact Hag|exact Hrun].
  - exists (sh m). split; [apply agree_except_refl|reflexivity].
Qed.

Lemma init_run (m : machine) :
  exists s',
    init m = ([EvMkdir (config_dir_of (sh m))], Ret tt,
              mk_machine s' (mkdir_p (config_dir_of (sh m)) (world m)))
    /\ agree_except init_vars (sh m) s'
    /\ sh_get s' "CONFIG_DIR" = config_dir_of (sh m)
    /\ sh_get s' "BACKBLAZE_AUTH_URL" = auth_url_of (sh m)
    /\ sh_get s' "BACKBLAZE_KEY_ID" = key_id_of (sh m)
    /\ sh_get s' "BACKBLAZE_APPLICATION_KEY" = application_key_of (sh m)
    /\ sh_get s' "BACKBLAZE_AUTH_HEADER" = ""
    /\ sh_get s' "BACKBLAZE_DOWNLOAD_URL" = "".
Proof.
  unfold init. destruct m as [s w]. sh_run.
  eexists. split; [reflexivity|]. cbn [sh world].
  split; [unfold init_vars; agree_tac|].
  sh_reads. repeat split; reflexivity.
Qed.

Lemma authorize_run (m : machine) :
  let key_id := sh_get (sh m) "BACKBLAZE_KEY_ID" in
  let app_key := sh_get (sh m) "BACKBLAZE_APPLICATION_KEY" in
  let c := authorize_call (sh m) in
  let status := fst (fst (curl c (world m))) in
  let response := strip_trailing_newlines (snd (fst (curl c (world m)))) in
  let token := extract_json_field response "authorizationToken" in
  exists s',
    agree_except auth_vars (sh m) s'
    /\ authorize m
       = (if nonempty key_id || nonempty app_key then
            if negb (nonempty key_id) || negb (nonempty app_key) then
              ([EvStderr both_must_be_set], Exit 1, m)
            else if Nat.eqb status 0 then
              if nonempty token then
                ([EvStdout "Authorizing with Backblaze B2..."; EvCurl c status],
                 Ret tt, mk_machine s' (snd (curl c (world m))))
              else
                ([EvStdout "Authorizing with Backblaze B2..."; EvCurl c status;
                  EvStderr failed_to_read_token],
                 Exit 1, mk_machine s' (snd (curl c (world m))))
            else
              ([EvStdout "Authorizing with Backblaze B2..."; EvCurl c status],
               Exit status, mk_machine s' (snd (curl c (world m))))
          else ([], Ret tt, m))
    /\ (nonempty key_id || nonempty app_key = true ->
        outcome_of (authorize m) = Ret tt ->
        sh_get s' "BACKBLAZE_AUTH_HEADER" = "Authorization: " ++ token
        /\ sh_get s' "BACKBLAZE_DOWNLOAD_URL" = extract_json_field response "downloadUrl").
Proof.
  cbv zeta. unfold outcome_of, authorize, authorize_call, echo, echo_err.
  destruct m as [s w]. cbn [sh world]. sh_run.
  set (c := mk_curl _ _ _ _).
  destruct (nonempty (sh_get s "BACKBLAZE_KEY_ID")
            || nonempty (sh_get s "BACKBLAZE_APPLICATION_KEY")) eqn:Eany.
  2:{ exists s. split; [apply agree_except_refl|]. split; [reflexivity|discriminate]. }
  sh_run.
  destruct (negb (nonempty (sh_get s "BACKBLAZE_KEY_ID"))
            || negb (nonempty (sh_get s "BACKBLAZE_APPLICATION_KEY"))) eqn:Eone.
  { sh_run. exists s. split; [apply agree_except_refl|].
    split; [reflexivity|]. intros _ H. discriminate H. }
  sh_run. fold c.
  destruct (Nat.eqb (fst (fst (curl c w))) 0) eqn:Est.
  - destruct (nonempty (extract_json_field
                          (strip_trailing_newlines (snd (fst (curl c w))))
                          "authorizationToken")) eqn:Etok; cbn [negb]; sh_run.
    + eexists. split; [|split; [reflexivity|]].
      * unfold auth_vars; agree_tac.
      * intros _ _. cbn [sh]. sh_reads. split; reflexivity.
    + eexists. split; [|split; [reflexivity|]].
      * unfold auth_vars; agree_tac.
      * intros _ H. discriminate H.
  - eexists. split; [|split; [reflexivity|]].
    + unfold auth_vars; agree_tac.
    + intros _ H. discriminate H.
Qed.

Lemma list_files_run (m : machine) :
  list_files m
  = if dir_has_entries (sh_get (sh m) "CONFIG_DIR") (world m)
    then ([EvStdout ("Files in " ++ sh_get (sh m) "CONFIG_DIR" ++ ":");
           EvLs (sh_get (sh m) "CONFIG_DIR")
                (fst (ls_la (sh_get (sh m) "CONFIG_DIR") (world m)))],
          status_result (fst (ls_la (sh_get (sh m) "CONFIG_DIR") (world m))),
          mk_machine (sh m) (snd (ls_la (sh_get (sh m) "CONFIG_DIR") (world m))))
    else ([], Ret tt, m).
Proof.
  unfold list_files. rewrite bind_var.
  destruct (dir_has_entries _ _); [|reflexivity].
  unfold echo. rewrite bind_emit. unfold bind, errexit, status_result, prepend.
  destruct (ls_la _ _) as [st w']. cbn [fst snd sh world].
  destruct (Nat.eqb st 0); reflexivity.
Qed.

Lemma export_pythonpath_run (m : machine) :
  export_pythonpath m
  = ([], Ret tt,
     mk_machine
       (sh_export (sh m) "PYTHONPATH"
          (sh_get (sh m) "CONFIG_DIR" ++ ":" ++ default_if_null (sh_get (sh m) "PYTHONPATH") ""))
       (world m)).
Proof. unfold export_pythonpath. sh_run. reflexivity. Qed.

(** Sequencing, by the way the first command ends. *)
Lemma bind_continues {A B} (c : sh_m A) (k : A -> sh_m B) m e1 a m1 :
  c m = (e1, Ret a, m1) -> bind c k m = prepend e1 (k a m1).
Proof. intros H. unfold bind. rewrite H. reflexivity. Qed.

Lemma bind_stops {A B} (c : sh_m A) (k : A -> sh_m B) m e1 code m1 :
  c m = (e1, Exit code, m1) -> bind c k m = (e1, Exit code, m1).
Proof. intros H. unfold bind. rewrite H. reflexivity. Qed.

Lemma bind_completed {A B} (c : sh_m A) (k : A -> sh_m B) m evs b m2 :
  bind c k m = (evs, Ret b, m2) ->
  exists e1 a m1 e2,
    c m = (e1, Ret a, m1) /\ k a m1 = (e2, Ret b, m2) /\ evs = (e1 ++ e2)%list.
Proof.
  unfold bind. destruct (c m) as [[e1 [a|code]] m1]; [|discriminate].
  destruct (k a m1) as [[e2 r] m2'] eqn:Ek. intros H. inversion H; subst.
  exists e1, a, m1, e2. split; [reflexivity|]. split; [exact Ek|reflexivity].
Qed.

(** Which variables each step may change. *)
Lemma authorize_frame m evs r m' :
  authorize m = (evs, r, m') -> agree_except auth_vars (sh m) (sh m').
Proof.
  destruct (authorize_run m) as [s' [Hag [Hrun _]]]. rewrite Hrun.
  repeat match goal with
         | |- context [if ?b then _ else _] => destruct b
         end;
    intros H; inversion H; subst; cbn [sh]; first [exact Hag | apply agree_except_refl].
Qed.

Lemma fetch_main_config_frame m evs r m' :
  fetch_main_config m = (evs, r, m') -> agree_except ["url"; "dest"] (sh m) (sh m').
Proof.
  destruct (fetch_main_config_run m) as [s' [Hag Hrun]]. rewrite Hrun.
  destruct (nonempty _); intros H; inversion H; subst; cbn [sh];
    first [exact Hag | apply agree_except_refl].
Qed.

Lemma env_grep_while_frame prefix ending m evs r m' :
  env_grep_while prefix (loop_body prefix ending) m = (evs, r, m') -> sh m' = sh m.
Proof.
  rewrite env_grep_while_run. destruct (fetch_all _ _ _) as [[e r0] w'].
  intros H. inversion H. reflexivity.
Qed.

Lemma list_files_frame m evs r m' :
  list_files m = (evs, r, m') -> sh m' = sh m.
Proof.
  rewrite list_files_run. destruct (dir_has_entries _ _);
    intros H; inversion H; reflexivity.
Qed.

(** The store in which a completed bootstrap leaves the shell. *)
Lemma bootstrap_completed (m : machine) evs m' :
  bootstrap m = (evs, Ret tt, m') ->
  exists s6,
    sh m' = sh_export s6 "PYTHONPATH"
              (sh_get s6 "CONFIG_DIR" ++ ":" ++ default_if_null (sh_get s6 "PYTHONPATH") "")
    /\ sh_get s6 "CONFIG_DIR" = config_dir_of (sh m)
    /\ sh_get s6 "PYTHONPATH" = sh_get (sh m) "PYTHONPATH".
Proof.
  unfold bootstrap. intros H.
  apply bind_completed in H. destruct H as [e1 [[] [m1 [r1 [H1 [H E1]]]]]].
  apply bind_completed in H. destruct H as [e2 [[] [m2 [r2 [H2 [H E2]]]]]].
  apply bind_completed in H. destruct H as [e3 [[] [m3 [r3 [H3 [H E3]]]]]].
  apply bind_completed in H. destruct H as [e4 [[] [m4 [r4 [H4 [H E4]]]]]].
  apply bind_completed in H. destruct H as [e5 [[] [m5 [r5 [H5 [H E5]]]]]].
  apply bind_completed in H. destruct H as [e6 [[] [m6 [r6 [H6 [H E6]]]]]].
  rewrite export_pythonpath_run in H. inversion H; subst. clear H.
  exists (sh m6). split; [reflexivity|].
  destruct (init_run m) as [s1 [Hinit [Hag1 [Hcfg _]]]].
  rewrite Hinit in H1. inversion H1; subst. clear H1.
  apply authorize_frame in H2. apply fetch_main_config_frame in H3.
  apply env_grep_while_frame in H4. apply env_grep_while_frame in H5.
  apply list_files_frame in H6. cbn [sh] in *.
  rewrite H6, H5, H4.
  split.
  - rewrite (H3 "CONFIG_DIR") by not_in_list.
    rewrite (H2 "CONFIG_DIR") by (unfold auth_vars; not_in_list). exact Hcfg.
  - rewrite (H3 "PYTHONPATH") by not_in_list.
    rewrite (H2 "PYTHONPATH") by (unfold auth_vars; not_in_list).
    apply Hag1. unfold init_vars; not_in_list.
Qed.

Lemma mem_char_remove_prefix c p s :
  mem_char c s = false -> mem_char c (remove_prefix p s) = false.
Proof.
  unfold remove_prefix. destruct (strip_prefix p s) as [r|] eqn:E; [|tauto].
  apply strip_prefix_some in E. subst s. rewrite mem_char_append.
  intros H. apply orb_false_iff in H. tauto.
Qed.

Lemma requests_of_entries (prefix ending config_dir : string) (env : list (string * string)) :
  mem_char equals_sign prefix = false ->
  forallb single_line_entry env = true ->
  requests prefix ending config_dir (grep_anchored prefix (map entry_line env))
  = map (variable_request prefix ending config_dir) (filter (wanted prefix) env).
Proof.
  intros Hp. induction env as [|[n v] r IH]; [reflexivity|].
  cbn [forallb map grep_anchored filter]. intros H.
  apply andb_true_iff in H. destruct H as [Hnv Hr].
  unfold single_line_entry in Hnv. cbn [fst snd] in Hnv.
  apply andb_true_iff in Hnv. destruct Hnv as [Hnv Hv].
  apply andb_true_iff in Hnv. destruct Hnv as [Hn He].
  apply negb_true_iff in Hn, He, Hv.
  specialize (IH Hr). unfold grep_anchored in IH.
  unfold entry_line at 1, wanted at 1. cbn [fst snd].
  assert (Hs : starts_with prefix (n ++ "=" ++ v) = starts_with prefix n)
    by (apply (starts_with_entry prefix n v Hp)).
  rewrite Hs.
  destruct (starts_with prefix n); cbn [andb].
  - cbn [requests]. unfold line_request.
    change (entry_line (n, v)) with (n ++ "=" ++ v).
    rewrite (read_name_url_entry n v He). cbn [fst snd].
    destruct (nonempty (read_last_field v)).
    + cbn [map]. rewrite IH. unfold variable_request at 1. cbn [fst snd].
      rewrite sed_tr_suffix_line by (apply mem_char_remove_prefix; exact Hn).
      reflexivity.
    + exact IH.
  - exact IH.
Qed.


Lemma all_ok_app e1 e2 : all_ok e1 -> all_ok e2 -> all_ok (e1 ++ e2)%list.
Proof.
  intros H1 H2 c st Hin. apply in_app_or in Hin. destruct Hin; eauto.
Qed.

Lemma all_ok_nil : all_ok [].
Proof. intros c st []. Qed.

Lemma fails_last_ret {A} evs (a : A) : fails_last evs (Ret a) -> all_ok evs.
Proof.
  intros [H|[pre [c [st [_ [_ [_ H]]]]]]]; [exact H|discriminate].
Qed.

Lemma fails_last_prepend {A} e1 e2 (r : result A) :
  all_ok e1 -> fails_last e2 r -> fails_last (e1 ++ e2)%list r.
Proof.
  intros H1 [H2|[pre [c [st [E [Hpre [Hst Hr]]]]]]].
  - left. apply all_ok_app; assumption.
  - right. exists (e1 ++ pre)%list, c, st. subst e2. rewrite app_assoc.
    repeat split; try assumption. apply all_ok_app; assumption.
Qed.

Lemma fails_last_bind {A B} (c : sh_m A) (k : A -> sh_m B) (m : machine) :
  fails_last (trace (c m)) (outcome_of (c m)) ->
  (forall a m1, fails_last (trace (k a m1)) (outcome_of (k a m1))) ->
  fails_last (trace (bind c k m)) (outcome_of (bind c k m)).
Proof.
  unfold bind, trace, outcome_of.
  destruct (c m) as [[e1 [a|code]] m1]; cbn [fst snd]; intros Hc Hk.
  - specialize (Hk a m1). destruct (k a m1) as [[e2 r] m2]. cbn [fst snd] in *.
    apply fails_last_prepend; [eapply fails_last_ret; exact Hc|exact Hk].
  - destruct Hc as [H|[pre [c0 [st [E [Hpre [Hst Hr]]]]]]].
    + left. exact H.
    + right. exists pre, c0, st. inversion Hr; subst.
      repeat split; try assumption; reflexivity.
Qed.

Ltac all_ok_tac :=
  let c := fresh "c" in
  let st := fresh "st" in
  let H := fresh "H" in
  unfold trace; cbn [fst snd];
  intros c st H; cbn [In] in H;
  repeat match goal with
         | H : _ \/ _ |- _ => destruct H as [H|H]
         end;
  first [contradiction | discriminate | (inversion H; subst; assumption)].

Lemma fetch_trace_fails_last s u d w :
  fails_last (fetch_trace s u d w)
             (status_result (fst (fst (curl (fetch_call s u d) w)))).
Proof.
  unfold fetch_trace, status_result.
  destruct (Nat.eqb (fst (fst (curl (fetch_call s u d) w))) 0) eqn:E.
  - left. apply Nat.eqb_eq in E. all_ok_tac.
  - right. apply Nat.eqb_neq in E.
    exists [EvStdout ("Fetching " ++ u ++ " -> " ++ d)], (fetch_call s u d),
           (fst (fst (curl (fetch_call s u d) w))).
    repeat split; [all_ok_tac|exact E].
Qed.

Lemma fetch_all_fails_last s reqs w :
  fails_last (fst (fst (fetch_all s reqs w))) (snd (fst (fetch_all s reqs w))).
Proof.
  revert w. induction reqs as [|[u d] rest IH]; intros w; cbn [fetch_all].
  - left. apply all_ok_nil.
  - pose proof (fetch_trace_fails_last s u d w) as Hone. unfold status_result in Hone.
    destruct (Nat.eqb (fst (fst (curl (fetch_call s u d) w))) 0).
    + specialize (IH (snd (curl (fetch_call s u d) w))).
      destruct (fetch_all s rest _) as [[evs r] w']. cbn [fst snd] in *.
      apply fails_last_prepend; [eapply fails_last_ret; exact Hone|exact IH].
    + exact Hone.
Qed.

Lemma init_fails_last m : fails_last (trace (init m)) (outcome_of (init m)).
Proof.
  destruct (init_run m) as [s' [Hrun _]]. rewrite Hrun. left. all_ok_tac.
Qed.

Lemma authorize_fails_last m : fails_last (trace (authorize m)) (outcome_of (authorize m)).
Proof.
  destruct (authorize_run m) as [s' [_ [Hrun _]]]. rewrite Hrun.
  set (c := authorize_call (sh m)).
  destruct (nonempty _ || nonempty _); [|left; apply all_ok_nil].
  destruct (negb _ || negb _); [left; all_ok_tac|].
  destruct (Nat.eqb (fst (fst (curl c (world m)))) 0) eqn:E.
  - apply Nat.eqb_eq in E. destruct (nonempty _); left; all_ok_tac.
  - apply Nat.eqb_neq in E. right.
    exists [EvStdout "Authorizing with Backblaze B2..."], c, (fst (fst (curl c (world m)))).
    repeat split; [all_ok_tac|exact E].
Qed.

Lemma fetch_main_config_fails_last m :
  fails_last (trace (fetch_main_config m)) (outcome_of (fetch_main_config m)).
Proof.
  destruct (fetch_main_config_run m) as [s' [_ Hrun]]. rewrite Hrun.
  destruct (nonempty _); [apply fetch_trace_fails_last|left; apply all_ok_nil].
Qed.

Lemma env_grep_while_fails_last prefix ending m :
  fails_last (trace (env_grep_while prefix (loop_body prefix ending) m))
             (outcome_of (env_grep_while prefix (loop_body prefix ending) m)).
Proof.
  rewrite env_grep_while_run.
  pose proof (fetch_all_fails_last (sh m)
                (requests prefix ending (sh_get (sh m) "CONFIG_DIR")
                   (grep_anchored prefix (env_lines (sh m)))) (world m)) as H.
  destruct (fetch_all _ _ _) as [[evs r] w']. exact H.
Qed.

Lemma list_files_fails_last m :
  fails_last (trace (list_files m)) (outcome_of (list_files m)).
Proof.
  rewrite list_files_run. destruct (dir_has_entries _ _); left;
    [all_ok_tac|apply all_ok_nil].
Qed.

Lemma bootstrap_fails_last m :
  fails_last (trace (bootstrap m)) (outcome_of (bootstrap m)).
Proof.
  unfold bootstrap.
  apply fails_last_bind; [apply init_fails_last|intros _ m1].
  apply fails_last_bind; [apply authorize_fails_last|intros _ m2].
  apply fails_last_bind; [apply fetch_main_config_fails_last|intros _ m3].
  apply fails_last_bind; [apply env_grep_while_fails_last|intros _ m4].
  apply fails_last_bind; [apply env_grep_while_fails_last|intros _ m5].
  apply fails_last_bind; [apply list_files_fails_last|intros _ m6].
  rewrite export_pythonpath_run. left. apply all_ok_nil.
Qed.

(** ** The header of every fetch of a run *)

Lemma trace_bind_in {A B} (c : sh_m A) (k : A -> sh_m B) (m : machine) (ev : event) :
  In ev (trace (bind c k m)) ->
  In ev (trace (c m))
  \/ exists e1 a m1, c m = (e1, Ret a, m1) /\ In ev (trace (k a m1)).
Proof.
  unfold bind, trace. destruct (c m) as [[e1 [a|code]] m1]; cbn [fst snd].
  - destruct (k a m1) as [[e2 r] m2] eqn:Ek. cbn [fst]. intros Hin.
    apply in_app_or in Hin. destruct Hin as [Hin|Hin]; [left; exact Hin|].
    right. exists e1, a, m1. split; [reflexivity|]. rewrite Ek. exact Hin.
  - intros Hin. left. exact Hin.
Qed.

Lemma fetch_trace_header_rule rule s u d w :
  attached_header s u = rule u -> header_rule rule (fetch_trace s u d w).
Proof.
  intros Hrule c st dest Hin _. unfold fetch_trace in Hin. cbn [In] in Hin.
  destruct Hin as [Hin|[Hin|[]]]; [discriminate Hin|].
  inversion Hin; subst. cbn [fetch_call curl_header curl_url]. exact Hrule.
Qed.

Lemma fetch_all_header_rule rule s reqs w :
  (forall u, attached_header s u = rule u) ->
  header_rule rule (fst (fst (fetch_all s reqs w))).
Proof.
  intros Hrule. revert w. induction reqs as [|[u d] rest IH]; intros w; cbn [fetch_all].
  - intros c st dest [].
  - destruct (Nat.eqb (fst (fst (curl (fetch_call s u d) w))) 0).
    + specialize (IH (snd (curl (fetch_call s u d) w))).
      destruct (fetch_all s rest _) as [[evs r] w']. cbn [fst snd] in *.
      intros c st dest Hin Hout. apply in_app_or in Hin. destruct Hin as [Hin|Hin].
      * exact (fetch_trace_header_rule rule _ _ _ _ (Hrule _) c st dest Hin Hout).
      * exact (IH c st dest Hin Hout).
    + cbn [fst]. apply fetch_trace_header_rule, Hrule.
Qed.

Lemma attached_header_frame xs s s' :
  agree_except xs s s' ->
  ~ In "AUTH_HEADER" xs -> ~ In "BACKBLAZE_AUTH_HEADER" xs ->
  ~ In "BACKBLAZE_DOWNLOAD_URL" xs ->
  forall rule, (forall u, attached_header s u = rule u) ->
               (forall u, attached_header s' u = rule u).
Proof.
  intros Hag Ha Hb Hd rule Hrule u.
  rewrite (attached_header_agree xs s s' u Hag Ha Hb Hd). apply Hrule.
Qed.

(** The fetching steps: from the main config to the end of the bootstrap. *)
Lemma fetch_steps_header_rule (rule : string -> option string) (m : machine) :
  (forall u, attached_header (sh m) u = rule u) ->
  header_rule rule
    (trace ((fetch_main_config ;; fetch_additional_configs ;; fetch_handlers ;;
             list_files ;; export_pythonpath) m)).
Proof.
  intros Hrule c st dest Hin Hout.
  apply trace_bind_in in Hin. destruct Hin as [Hin|[e1 [[] [m1 [H1 Hin]]]]].
  { destruct (fetch_main_config_run m) as [s' [_ Hrun]]. rewrite Hrun in Hin.
    destruct (nonempty _); [|destruct Hin].
    exact (fetch_trace_header_rule rule _ _ _ _ (Hrule _) c st dest Hin Hout). }
  assert (Hrule1 : forall u, attached_header (sh m1) u = rule u).
  { apply fetch_main_config_frame in H1.
    eapply (attached_header_frame ["url"; "dest"]); eauto; not_in_list. }
  apply trace_bind_in in Hin. destruct Hin as [Hin|[e2 [[] [m2 [H2 Hin]]]]].
  { unfold fetch_additional_configs in Hin. rewrite env_grep_while_run in Hin.
    pose proof (fetch_all_header_rule rule (sh m1)
                  (requests "CONFIG_URL_" ".yaml" (sh_get (sh m1) "CONFIG_DIR")
                     (grep_anchored "CONFIG_URL_" (env_lines (sh m1))))
                  (world m1) Hrule1) as Hall.
    destruct (fetch_all _ _ _) as [[evs r] w']. exact (Hall c st dest Hin Hout). }
  assert (Hrule2 : forall u, attached_header (sh m2) u = rule u).
  { apply env_grep_while_frame in H2. rewrite H2. exact Hrule1. }
  apply trace_bind_in in Hin. destruct Hin as [Hin|[e3 [[] [m3 [H3 Hin]]]]].
  { unfold fetch_handlers in Hin. rewrite env_grep_while_run in Hin.
    pose proof (fetch_all_header_rule rule (sh m2)
                  (requests "HANDLER_URL_" "_handler.py" (sh_get (sh m2) "CONFIG_DIR")
                     (grep_anchored "HANDLER_URL_" (env_lines (sh m2))))
                  (world m2) Hrule2) as Hall.
    destruct (fetch_all _ _ _) as [[evs r] w']. exact (Hall c st dest Hin Hout). }
  apply trace_bind_in in Hin. destruct Hin as [Hin|[e4 [[] [m4 [H4 Hin]]]]].
  { rewrite list_files_run in Hin. destruct (dir_has_entries _ _); [|destruct Hin].
    cbn in Hin. destruct Hin as [Hin|[Hin|[]]]; discriminate Hin. }
  rewrite export_pythonpath_run in Hin. destruct Hin.
Qed.

(** The whole bootstrap, for the rule the environment and the
    authorization reply determine. *)
Lemma bootstrap_header_rule (env : list (string * string)) (w : World) :
  header_rule
    (fun url =>
       if nonempty (sh_get (import_env env) "AUTH_HEADER")
       then Some (sh_get (import_env env) "AUTH_HEADER")
       else if nonempty (registered_backblaze_header env w)
               && is_backblaze_url (registered_download_url env w) url
            then Some (registered_backblaze_header env w)
            else None)
    (trace (bootstrap (mk_machine (import_env env) w))).
Proof.
  set (rule := fun url : string => _).
  intros c st dest Hin Hout. unfold bootstrap in Hin.
  destruct (init_run (mk_machine (import_env env) w))
    as [s1 [Hinit [Hag1 [_ [Hurl [Hkey [Happ [Hb2 Hdl]]]]]]]].
  cbn [sh world] in *.
  apply trace_bind_in in Hin. destruct Hin as [Hin|[e1 [[] [m1 [H1 Hin]]]]].
  { rewrite Hinit in Hin. destruct Hin as [Hin|[]]. discriminate Hin. }
  rewrite Hinit in H1. inversion H1; subst e1 m1. clear H1.
  set (m1 := mk_machine s1 (mkdir_p (config_dir_of (import_env env)) w)) in *.
  destruct (authorize_run m1) as [s2 [Hag2 [Hauth Hreg]]].
  unfold authorize_call in Hauth, Hreg. cbn [sh world m1] in Hauth, Hreg, Hag2.
  rewrite Hkey, Happ, Hurl in Hauth, Hreg.
  fold (authorization_request env) in Hauth, Hreg.
  fold (authorization_reply env w) in Hauth, Hreg.
  fold (authorization_response env w) in Hreg.
  apply trace_bind_in in Hin. destruct Hin as [Hin|[e2 [[] [m2 [H2 Hin]]]]].
  { exfalso. rewrite Hauth in Hin.
    repeat match type of Hin with
           | context [if ?b then _ else _] => destruct b
           end;
      cbn in Hin;
      repeat match type of Hin with
             | _ \/ _ => destruct Hin as [Hin|Hin]
             end;
      try contradiction; try discriminate Hin;
      inversion Hin; subst; discriminate Hout. }
  refine (fetch_steps_header_rule rule m2 _ c st dest Hin Hout).
  intros u. unfold rule, attached_header.
  assert (Hauth_hdr : sh_get (sh m2) "AUTH_HEADER" = sh_get (import_env env) "AUTH_HEADER").
  { apply authorize_frame in H2. cbn [sh m1] in H2.
    rewrite (H2 "AUTH_HEADER") by (unfold auth_vars; not_in_list).
    apply Hag1. unfold init_vars; not_in_list. }
  rewrite Hauth_hdr.
  destruct (nonempty (sh_get (import_env env) "AUTH_HEADER")); [reflexivity|].
  unfold registered_backblaze_header, registered_download_url.
  assert (Hout2 : outcome_of (authorize m1) = Ret tt) by (rewrite H2; reflexivity).
  rewrite Hauth in H2.
  destruct (nonempty (key_id_of (import_env env))
            || nonempty (application_key_of (import_env env))) eqn:Eany.
  - destruct (Hreg eq_refl Hout2) as [Hh Hd].
    assert (Hs2 : sh m2 = s2).
    { repeat match type of H2 with
             | context [if ?b then _ else _] => destruct b
             end; inversion H2; reflexivity. }
    rewrite Hs2, Hh, Hd. reflexivity.
  - inversion H2; subst m2. cbn [sh m1]. rewrite Hb2, Hdl. reflexivity.
Qed.

(** C1. fetch_file runs curl once on the URL and chooses the header by
    strict precedence: a non-empty AUTH_HEADER is sent verbatim whatever
    the URL and whatever the Backblaze state; otherwise the Backblaze
    header is sent when one is registered and is_backblaze_url accepts the
    URL; otherwise no header is sent.  And in every run of the script every
    file fetch of the trace carries the header this precedence gives, for
    the AUTH_HEADER of the environment and the Backblaze header and
    download URL the authorization step registered. *)
Theorem fetch_header_precedence :
  (forall (url dest : string) (m : machine),
     exists header status,
       trace (fetch_file url dest m)
       = [EvStdout ("Fetching " ++ url ++ " -> " ++ dest);
          EvCurl (mk_curl None header url (Some dest)) status]
       /\ (sh_get (sh m) "AUTH_HEADER" <> ""
           -> header = Some (sh_get (sh m) "AUTH_HEADER"))
       /\ (sh_get (sh m) "AUTH_HEADER" = ""
           -> sh_get (sh m) "BACKBLAZE_AUTH_HEADER" <> ""
           -> is_backblaze_url (sh_get (sh m) "BACKBLAZE_DOWNLOAD_URL") url = true
           -> header = Some (sh_get (sh m) "BACKBLAZE_AUTH_HEADER"))
       /\ (sh_get (sh m) "AUTH_HEADER" = ""
           -> sh_get (sh m) "BACKBLAZE_AUTH_HEADER" = ""
              \/ is_backblaze_url (sh_get (sh m) "BACKBLAZE_DOWNLOAD_URL") url = false
           -> header = None))
  /\ (forall (env : list (string * string)) (argv : list string) (w : World)
             (c : curl_call) (status : nat) (dest : string),
        In (EvCurl c status) (fst (cloud_run_entrypoint env argv w)) ->
        curl_output c = Some dest ->
        (sh_get (import_env env) "AUTH_HEADER" <> ""
         -> curl_header c = Some (sh_get (import_env env) "AUTH_HEADER"))
        /\ (sh_get (import_env env) "AUTH_HEADER" = ""
            -> registered_backblaze_header env w <> ""
            -> is_backblaze_url (registered_download_url env w) (curl_url c) = true
            -> curl_header c = Some (registered_backblaze_header env w))
        /\ (sh_get (import_env env) "AUTH_HEADER" = ""
            -> registered_backblaze_header env w = ""
               \/ is_backblaze_url (registered_download_url env w) (curl_url c) = false
            -> curl_header c = None)).
Proof.
  assert (Hcases : forall a b d url (header : option string),
             header = (if nonempty a then Some a
                       else if nonempty b && is_backblaze_url d url then Some b else None) ->
             (a <> "" -> header = Some a)
             /\ (a = "" -> b <> "" -> is_backblaze_url d url = true -> header = Some b)
             /\ (a = "" -> b = "" \/ is_backblaze_url d url = false -> header = None)).
  { intros a b d url header ->. destruct a as [|a0 a]; cbn [nonempty].
    - repeat split; try congruence.
      + intros _ Hb Hu. rewrite Hu. destruct b; [congruence|reflexivity].
      + intros _ [Hb|Hu]; [rewrite Hb; reflexivity|rewrite Hu, andb_false_r; reflexivity].
    - repeat split; try congruence; try discriminate. }
  split.
  - intros url dest m.
    destruct (fetch_file_run url dest m) as [s' [Hrun _]].
    exists (attached_header (sh m) url),
           (fst (fst (curl (fetch_call (sh m) url dest) (world m)))).
    split; [rewrite Hrun; reflexivity|].
    apply Hcases. reflexivity.
  - intros env argv w c status dest Hin Hout.
    apply Hcases.
    refine (bootstrap_header_rule env w c status dest _ Hout).
    unfold cloud_run_entrypoint in Hin. unfold trace.
    destruct (bootstrap (mk_machine (import_env env) w)) as [[evs [[]|code]] m'];
      exact Hin.
Qed.

(** C6, as the code has it. is_backblaze_url accepts a URL exactly when
    (a) BACKBLAZE_DOWNLOAD_URL is non-empty and the URL begins with it
    followed by a slash, or (b) the URL contains the text backblazeb2.com/
    (with the slash); a URL it rejects is fetched without the Backblaze
    header: with AUTH_HEADER when that is set, with no header otherwise. *)
Theorem is_backblaze_url_exact :
  (forall download_url url,
     is_backblaze_url download_url url = true
     <-> (download_url <> "" /\ exists rest, url = download_url ++ "/" ++ rest)
         \/ (exists a b, url = a ++ "backblazeb2.com/" ++ b))
  /\ (forall url dest m,
        is_backblaze_url (sh_get (sh m) "BACKBLAZE_DOWNLOAD_URL") url = false ->
        exists status,
          trace (fetch_file url dest m)
          = [EvStdout ("Fetching " ++ url ++ " -> " ++ dest);
             EvCurl (mk_curl None
                       (if nonempty (sh_get (sh m) "AUTH_HEADER")
                        then Some (sh_get (sh m) "AUTH_HEADER") else None)
                       url (Some dest)) status]).
Proof.
  split.
  - intros D url. unfold is_backblaze_url.
    rewrite <- contains_spec.
    destruct D as [|c D'].
    + cbn [nonempty andb]. split; [intros H; right; exact H|].
      intros [[H _]|H]; [congruence|exact H].
    + cbn [nonempty andb].
      rewrite remove_prefix_changes by (simpl; discriminate).
      destruct (starts_with (String c D' ++ "/") url) eqn:E.
      * split; [|reflexivity]. intros _. left. split; [discriminate|].
        apply starts_with_spec in E. destruct E as [r Hr]. exists r.
        rewrite Hr, append_assoc. reflexivity.
      * split; [intros H; right; exact H|].
        intros [[_ [rest Hrest]]|H]; [|exact H].
        assert (Hs : starts_with (String c D' ++ "/") url = true).
        { apply starts_with_spec. exists rest. rewrite Hrest, append_assoc. reflexivity. }
        congruence.
  - intros url dest m Hno.
    destruct (fetch_file_run url dest m) as [s' [Hrun _]].
    eexists. rewrite Hrun. unfold trace, fetch_call, attached_header.
    rewrite Hno, andb_false_r. cbn [fst]. reflexivity.
Qed.


Lemma fetch_all_attempts_incl s reqs w :
  incl (fetch_attempts (fst (fst (fetch_all s reqs w)))) reqs.
Proof.
  revert w. induction reqs as [|[u d] rest IH]; intros w; cbn [fetch_all].
  - intros x [].
  - destruct (Nat.eqb (fst (fst (curl (fetch_call s u d) w))) 0).
    + specialize (IH (snd (curl (fetch_call s u d) w))).
      destruct (fetch_all s rest _) as [[evs r] w']. cbn [fst snd] in *.
      cbn [fetch_trace app fetch_attempts fetch_call].
      intros x [Hx|Hx]; [left; exact Hx|right; apply IH; exact Hx].
    + cbn [fst fetch_trace fetch_attempts fetch_call].
      intros x [Hx|[]]. left. exact Hx.
Qed.

(** X14. The loops as a whole, in a shell whose exported variables are
    printed one per line and are all named with characters of
    [A-Za-z0-9_]: every destination they fetch to, also on a run that
    fails, lies directly inside CONFIG_DIR. *)
Theorem loops_write_inside_config_dir (m : machine) (dest : string) :
  forallb single_line_entry (exported_env (sh m)) = true ->
  forallb (fun nv => all_chars is_name_char (fst nv)) (exported_env (sh m)) = true ->
  In dest (destinations (trace (fetch_additional_configs m))
           ++ destinations (trace (fetch_handlers m)))%list ->
  inside_dir (sh_get (sh m) "CONFIG_DIR") dest.
Proof.
  intros Hwf Hnames Hin.
  assert (Hloop : forall prefix ending,
             mem_char equals_sign prefix = false ->
             mem_char "/"%char ending = false -> 2 < String.length ending ->
             In dest (destinations
                        (trace (env_grep_while prefix (loop_body prefix ending) m))) ->
             inside_dir (sh_get (sh m) "CONFIG_DIR") dest).
  { intros prefix ending Hp He Hlen Hd.
    rewrite env_grep_while_run in Hd. unfold env_lines in Hd.
    rewrite (env_output_single_lines _ Hwf) in Hd.
    rewrite (requests_of_entries prefix ending _ _ Hp Hwf) in Hd.
    pose proof (fetch_all_attempts_incl (sh m)
                  (map (variable_request prefix ending (sh_get (sh m) "CONFIG_DIR"))
                     (filter (wanted prefix) (exported_env (sh m)))) (world m)) as Hincl.
    destruct (fetch_all _ _ _) as [[evs r] w']. unfold trace, destinations in Hd.
    cbn [fst snd] in Hd, Hincl.
    apply in_map_iff in Hd. destruct Hd as [[u d] [Hd Hatt]]. cbn [snd] in Hd. subst d.
    apply Hincl in Hatt. apply in_map_iff in Hatt. destruct Hatt as [[n v] [Hreq Hnv]].
    apply filter_In in Hnv. destruct Hnv as [Hnv _].
    unfold variable_request in Hreq. cbn [fst snd] in Hreq. inversion Hreq; subst.
    rewrite forallb_forall in Hnames. specialize (Hnames _ Hnv). cbn [fst] in Hnames.
    apply inside_dir_file; [|exact He|exact Hlen].
    apply name_chars_lower_no_slash, all_chars_remove_prefix, Hnames. }
  apply in_app_or in Hin. destruct Hin as [Hin|Hin].
  - apply (Hloop "CONFIG_URL_" ".yaml"); [reflexivity|reflexivity|simpl; lia|exact Hin].
  - apply (Hloop "HANDLER_URL_" "_handler.py"); [reflexivity|reflexivity|simpl; lia|exact Hin].
Qed.

(** One turn of a loop: when the name read from the line has only
    characters of [A-Za-z0-9_], every destination of the turn, for a
    config as for a handler, is CONFIG_DIR, a slash and one file name
    without a slash that is not a traversal component; so is the
    destination of the main config. *)
Lemma loop_turn_inside_config_dir (m : machine) (line dest : string) :
  all_chars is_name_char (fst (read_name_url line)) = true ->
  In dest
     (destinations (trace ((read_line line ;; loop_body "CONFIG_URL_" ".yaml") m))
      ++ destinations (trace ((read_line line ;; loop_body "HANDLER_URL_" "_handler.py") m))
      ++ destinations (trace (fetch_main_config m)))%list ->
  inside_dir (sh_get (sh m) "CONFIG_DIR") dest.
Proof.
  intros Hname Hin.
  assert (Hturn : forall prefix ending,
             mem_char "/"%char ending = false -> 2 < String.length ending ->
             In dest (destinations
                        (trace ((read_line line ;; loop_body prefix ending) m))) ->
             inside_dir (sh_get (sh m) "CONFIG_DIR") dest).
  { intros prefix ending He Hlen Hd.
    destruct (loop_turn_run prefix ending line m) as [s' [_ Hrun]].
    rewrite Hrun in Hd. unfold line_request in Hd.
    destruct (nonempty (snd (read_name_url line))); [|contradiction].
    cbn in Hd. destruct Hd as [Hd|[]]. subst dest.
    pose proof (all_chars_remove_prefix is_name_char prefix _ Hname) as Hrest.
    rewrite sed_tr_suffix_line by (apply name_chars_no_newline; exact Hrest).
    apply inside_dir_file; [apply name_chars_lower_no_slash; exact Hrest|exact He|exact Hlen]. }
  apply in_app_or in Hin. destruct Hin as [Hin|Hin].
  { apply (Hturn "CONFIG_URL_" ".yaml"); [reflexivity|simpl; lia|exact Hin]. }
  apply in_app_or in Hin. destruct Hin as [Hin|Hin].
  { apply (Hturn "HANDLER_URL_" "_handler.py"); [reflexivity|simpl; lia|exact Hin]. }
  destruct (fetch_main_config_run m) as [s' [_ Hrun]]. rewrite Hrun in Hin.
  destruct (nonempty (sh_get (sh m) "LITELLM_CONFIG_URL")); [|contradiction].
  cbn in Hin. destruct Hin as [Hin|[]]. subst dest.
  apply (inside_dir_file _ "" "config.yaml"); [reflexivity|reflexivity|simpl; lia].
Qed.

(** C10. A variable set to the empty string is printed by [env] as the
    line NAME= ; in either loop, in every state of the shell (whether or
    not a main config is set), the turn for such a line attempts no fetch
    and writes nothing, and the loop goes on with the remaining lines
    exactly as if the line were not there.  And when LITELLM_CONFIG_URL is
    empty, the main config step does nothing at all. *)
Theorem empty_value_fetches_nothing (m : machine) (name : string) (rest : list string) :
  mem_char equals_sign name = false ->
  (sh_get (sh m) "LITELLM_CONFIG_URL" = "" -> fetch_main_config m = ([], Ret tt, m))
  /\ (forall prefix ending,
        (prefix, ending) = ("CONFIG_URL_", ".yaml")
        \/ (prefix, ending) = ("HANDLER_URL_", "_handler.py") ->
        trace ((read_line (name ++ "=") ;; loop_body prefix ending) m) = []
        /\ outcome_of ((read_line (name ++ "=") ;; loop_body prefix ending) m) = Ret tt
        /\ trace (while_read (loop_body prefix ending) ((name ++ "=") :: rest) m)
           = trace (while_read (loop_body prefix ending) rest m)
        /\ outcome_of (while_read (loop_body prefix ending) ((name ++ "=") :: rest) m)
           = outcome_of (while_read (loop_body prefix ending) rest m)).
Proof.
  intros Hname. split.
  - intros Hmain. destruct (fetch_main_config_run m) as [s' [_ Hrun]].
    rewrite Hrun, Hmain. reflexivity.
  - intros prefix ending _.
    assert (Hreq : forall config_dir,
               line_request prefix ending config_dir (name ++ "=") = None).
    { intros config_dir. unfold line_request.
      change (name ++ "=") with (name ++ "=" ++ "").
      rewrite (read_name_url_entry name "" Hname). reflexivity. }
    destruct (loop_turn_run prefix ending (name ++ "=") m) as [s1 [_ Hturn]].
    rewrite Hreq in Hturn. rewrite Hturn.
    destruct (while_read_run prefix ending ((name ++ "=") :: rest) m) as [s2 [_ Hall]].
    destruct (while_read_run prefix ending rest m) as [s3 [_ Hrest]].
    cbn [requests] in Hall. rewrite Hreq in Hall. rewrite Hall, Hrest.
    destruct (fetch_all _ _ _) as [[evs r] w'].
    repeat split; reflexivity.
Qed.

(** C3. When exactly one of the key id and the application key is present
    after the BACKBLAZE_ / B2_ aliases are resolved, the script creates
    CONFIG_DIR, writes the error message and exits with status 1: the
    trace holds no HTTP call. *)
Theorem half_credentials_exit_before_any_call
    (env : list (string * string)) (argv : list string) (w : World) :
  xorb (nonempty (key_id_of (import_env env)))
       (nonempty (application_key_of (import_env env))) = true ->
  cloud_run_entrypoint env argv w
  = ([EvMkdir (config_dir_of (import_env env)); EvStderr both_must_be_set], Exited 1)
  /\ curl_calls (fst (cloud_run_entrypoint env argv w)) = [].
Proof.
  intros Hx.
  assert (Hrun : cloud_run_entrypoint env argv w
                 = ([EvMkdir (config_dir_of (import_env env)); EvStderr both_must_be_set],
                    Exited 1)).
  { unfold cloud_run_entrypoint, bootstrap.
    destruct (init_run (mk_machine (import_env env) w))
      as [s1 [Hinit [_ [_ [_ [Hk [Ha _]]]]]]].
    cbn [sh world] in Hinit, Hk, Ha.
    rewrite (bind_continues _ _ _ _ _ _ Hinit).
    destruct (authorize_run (mk_machine s1 (mkdir_p (config_dir_of (import_env env)) w)))
      as [s2 [_ [Hauth _]]].
    cbn [sh world] in Hauth. rewrite Hk, Ha in Hauth.
    assert (Hstop : authorize (mk_machine s1 (mkdir_p (config_dir_of (import_env env)) w))
                    = ([EvStderr both_must_be_set], Exit 1,
                       mk_machine s1 (mkdir_p (config_dir_of (import_env env)) w))).
    { rewrite Hauth.
      destruct (nonempty (key_id_of (import_env env)));
        destruct (nonempty (application_key_of (import_env env)));
        first [discriminate Hx | reflexivity]. }
    rewrite (bind_stops _ _ _ _ _ _ Hstop). reflexivity. }
  split; [exact Hrun|rewrite Hrun; reflexivity].
Qed.

(** C4. With both credential halves present, when the authorizationToken
    extracted from the authorization response is empty the script exits
    with a non-zero status and attempts no artifact fetch; when curl itself
    reported success it writes the error message about the token and exits
    with status 1, the authorization call being the only HTTP call. *)
Theorem missing_token_exit_before_any_fetch
    (env : list (string * string)) (argv : list string) (w : World) :
  nonempty (key_id_of (import_env env)) = true ->
  nonempty (application_key_of (import_env env)) = true ->
  extract_json_field (authorization_response env w) "authorizationToken" = "" ->
  exists code,
    code <> 0
    /\ snd (cloud_run_entrypoint env argv w) = Exited code
    /\ fetch_attempts (fst (cloud_run_entrypoint env argv w)) = []
    /\ (fst (fst (authorization_reply env w)) = 0 ->
        cloud_run_entrypoint env argv w
        = ([EvMkdir (config_dir_of (import_env env));
            EvStdout "Authorizing with Backblaze B2...";
            EvCurl (authorization_request env) 0;
            EvStderr failed_to_read_token],
           Exited 1)).
Proof.
  intros Hk Ha Htok.
  unfold cloud_run_entrypoint, bootstrap.
  destruct (init_run (mk_machine (import_env env) w))
    as [s1 [Hinit [_ [_ [Hurl [Hkey [Happ _]]]]]]].
  cbn [sh world] in Hinit, Hurl, Hkey, Happ.
  rewrite (bind_continues _ _ _ _ _ _ Hinit).
  destruct (authorize_run (mk_machine s1 (mkdir_p (config_dir_of (import_env env)) w)))
    as [s2 [_ [Hauth _]]].
  unfold authorize_call in Hauth. cbn [sh world] in Hauth.
  rewrite Hkey, Happ, Hurl, Hk, Ha in Hauth. cbn [orb negb] in Hauth.
  fold (authorization_request env) in Hauth.
  fold (authorization_reply env w) in Hauth.
  fold (authorization_response env w) in Hauth.
  rewrite Htok in Hauth. cbn [nonempty] in Hauth.
  destruct (Nat.eqb (fst (fst (authorization_reply env w))) 0) eqn:Est.
  - rewrite (bind_stops _ _ _ _ _ _ Hauth). cbn [prepend app fst snd].
    apply Nat.eqb_eq in Est. rewrite Est.
    exists 1. repeat split; try reflexivity. discriminate.
  - rewrite (bind_stops _ _ _ _ _ _ Hauth). cbn [prepend app fst snd].
    apply Nat.eqb_neq in Est.
    exists (fst (fst (authorization_reply env w))).
    repeat split; try reflexivity; try assumption.
    intros H. contradiction.
Qed.

(** C9. Whenever the script reaches [exec], the environment it hands to
    the downstream entrypoint has PYTHONPATH equal to CONFIG_DIR, a colon,
    and the value PYTHONPATH had at start, unchanged (nothing after the
    colon when it was unset); the entrypoint gets the original arguments. *)
Theorem pythonpath_starts_with_config_dir
    (env : list (string * string)) (argv : list string) (w : World)
    (evs : list event) (prog : string) (args : list string)
    (envp : list (string * string)) :
  cloud_run_entrypoint env argv w = (evs, Execed prog args envp) ->
  env_lookup envp "PYTHONPATH"
  = Some (config_dir_of (import_env env) ++ ":" ++
          match env_lookup env "PYTHONPATH" with Some old => old | None => "" end)
  /\ prog = downstream_entrypoint /\ args = argv.
Proof.
  unfold cloud_run_entrypoint.
  destruct (bootstrap (mk_machine (import_env env) w)) as [[evs0 [[]|code]] m'] eqn:Hb;
    [|discriminate].
  intros H. inversion H; subst. clear H.
  destruct (bootstrap_completed _ _ _ Hb) as [s6 [Hsh [Hcfg Hpp]]].
  cbn [sh] in Hsh, Hcfg, Hpp.
  rewrite Hsh, env_lookup_export, Hcfg, Hpp, sh_get_import.
  split; [|split; reflexivity].
  destruct (env_lookup env "PYTHONPATH") as [[|c old]|]; reflexivity.
Qed.

Lemma run_trace (env : list (string * string)) (argv : list string) (w : World) :
  fst (cloud_run_entrypoint env argv w)
  = trace (bootstrap (mk_machine (import_env env) w)).
Proof.
  unfold cloud_run_entrypoint, trace.
  destruct (bootstrap _) as [[evs [a|code]] m]; reflexivity.
Qed.

(** In every run, a call of curl that exits with a non-zero status is
    the last entry of the trace, and the script ends by exiting with that
    status. *)
Lemma failed_call_is_last
    (env : list (string * string)) (argv : list string) (w : World)
    (pre post : list event) (c : curl_call) (status : nat) :
  fst (cloud_run_entrypoint env argv w) = (pre ++ EvCurl c status :: post)%list ->
  status <> 0 ->
  post = [] /\ snd (cloud_run_entrypoint env argv w) = Exited status.
Proof.
  unfold cloud_run_entrypoint.
  pose proof (bootstrap_fails_last (mk_machine (import_env env) w)) as Hff.
  unfold trace, outcome_of in Hff.
  destruct (bootstrap (mk_machine (import_env env) w)) as [[evs r] m'].
  cbn [fst snd] in Hff.
  assert (Hevs : fst (match r with
                      | Ret _ => (evs, Execed downstream_entrypoint argv (exported_env (sh m')))
                      | Exit code => (evs, Exited code)
                      end) = evs) by (destruct r; reflexivity).
  rewrite Hevs. intros E Hst. subst evs.
  destruct Hff as [Hok|[pre' [c' [st' [E' [Hpre [Hst' Hr]]]]]]].
  - exfalso. apply Hst. apply (Hok c). apply in_or_app. right. left. reflexivity.
  - assert (Hpost : post = []).
    { destruct post as [|p ps] using rev_ind; [reflexivity|]. exfalso.
      change (pre ++ EvCurl c status :: ps ++ [p])%list
        with (pre ++ (EvCurl c status :: ps) ++ [p])%list in E'.
      rewrite app_assoc in E'. apply app_inj_tail in E'. destruct E' as [E' _].
      apply Hst. apply (Hpre c). rewrite <- E'.
      apply in_or_app. right. left. reflexivity. }
    subst post. apply app_inj_tail in E'. destruct E' as [_ E'].
    inversion E'; subst. split; [reflexivity|reflexivity].
Qed.

(** The statuses of a trace are those the outside world gave. *)
Lemma reported_nil : reported [].
Proof. intros c st []. Qed.

Lemma reported_app e1 e2 : reported e1 -> reported e2 -> reported (e1 ++ e2)%list.
Proof.
  intros H1 H2 c st Hin. apply in_app_or in Hin.
  destruct Hin; [apply (H1 c st)|apply (H2 c st)]; assumption.
Qed.

Lemma reported_bind {A B} (c : sh_m A) (k : A -> sh_m B) (m : machine) :
  reported (trace (c m)) ->
  (forall a m1, reported (trace (k a m1))) ->
  reported (trace (bind c k m)).
Proof.
  intros Hc Hk call st Hin. apply trace_bind_in in Hin.
  destruct Hin as [Hin|[e1 [a [m1 [_ Hin]]]]]; [exact (Hc call st Hin)|exact (Hk a m1 call st Hin)].
Qed.

Lemma fetch_trace_reported s u d w : reported (fetch_trace s u d w).
Proof.
  intros c st [H|[H|[]]]; [discriminate H|]. inversion H; subst. exists w. reflexivity.
Qed.

Lemma fetch_all_reported s reqs w : reported (fst (fst (fetch_all s reqs w))).
Proof.
  revert w. induction reqs as [|[u d] rest IH]; intros w; [apply reported_nil|].
  cbn [fetch_all]. destruct (Nat.eqb _ 0).
  - specialize (IH (snd (curl (fetch_call s u d) w))).
    destruct (fetch_all s rest _) as [[evs r] w']. cbn [fst] in *.
    apply reported_app; [apply fetch_trace_reported|exact IH].
  - cbn [fst]. apply fetch_trace_reported.
Qed.

Lemma bootstrap_reported (m : machine) : reported (trace (bootstrap m)).
Proof.
  unfold bootstrap. apply reported_bind.
  { destruct (init_run m) as [s1 [Hinit _]]. rewrite Hinit.
    intros c st [H|[]]. discriminate H. }
  intros _ m1. apply reported_bind.
  { destruct (authorize_run m1) as [s' [_ [Hrun _]]]. rewrite Hrun. unfold trace.
    repeat match goal with
           | |- context [if ?b then _ else _] => destruct b
           end; cbn [fst]; intros c st Hin; cbn [In] in Hin;
      repeat match goal with
             | H : _ \/ _ |- _ => destruct H as [H|H]
             end; try contradiction; try discriminate;
      inversion Hin; subst; exists (world m1); reflexivity. }
  intros _ m2. apply reported_bind.
  { destruct (fetch_main_config_run m2) as [s' [_ Hrun]]. rewrite Hrun.
    destruct (nonempty _); [|apply reported_nil].
    unfold trace. cbn [fst]. apply fetch_trace_reported. }
  assert (Hloop : forall prefix ending m',
             reported (trace (env_grep_while prefix (loop_body prefix ending) m'))).
  { intros prefix ending m'. rewrite env_grep_while_run.
    pose proof (fetch_all_reported (sh m')
                  (requests prefix ending (sh_get (sh m') "CONFIG_DIR")
                     (grep_anchored prefix (env_lines (sh m')))) (world m')) as H.
    destruct (fetch_all _ _ _) as [[evs r] w']. exact H. }
  intros _ m3. apply reported_bind; [apply Hloop|].
  intros _ m4. apply reported_bind; [apply Hloop|].
  intros _ m5. apply reported_bind.
  { rewrite list_files_run. destruct (dir_has_entries _ _); [|apply reported_nil].
    intros c st [H|[H|[]]]; discriminate H. }
  intros _ m6. rewrite export_pythonpath_run. apply reported_nil.
Qed.

(** C2, as the code has it.  In every run, a call of curl that fails
    (exits with a non-zero status) is the last entry of the trace, and
    the script ends by exiting with that status: nothing is fetched
    afterwards, nothing is retried and the downstream entrypoint is not
    reached.  Which answers make curl fail is the business of [-f]:
    where every file transfer ends with an HTTP status, a fetch answered
    with a status of 400 or above is fatal in this way, with exit status
    22, and one answered with a status below 400, be it outside 200-299,
    is no failure. *)
Theorem fetch_failure_is_fatal
    (env : list (string * string)) (argv : list string) (w : World)
    (pre post : list event) (c : curl_call) (status : nat) :
  fst (cloud_run_entrypoint env argv w) = (pre ++ EvCurl c status :: post)%list ->
  (status <> 0 ->
   post = [] /\ snd (cloud_run_entrypoint env argv w) = Exited status)
  /\ (forall (answer : curl_call -> World -> nat) (dest : string),
        curl_output c = Some dest ->
        (forall c' w', curl_output c' <> None ->
                       fst (fst (curl c' w')) = curl_f_status (answer c' w')) ->
        exists w',
          status = curl_f_status (answer c w')
          /\ (400 <= answer c w' ->
              post = [] /\ snd (cloud_run_entrypoint env argv w) = Exited 22)
          /\ (answer c w' < 400 -> status = 0)).
Proof.
  intros E. split; [intros Hst; exact (failed_call_is_last env argv w pre post c status E Hst)|].
  intros answer dest Hout Hanswer.
  assert (Hin : In (EvCurl c status) (trace (bootstrap (mk_machine (import_env env) w)))).
  { rewrite <- (run_trace env argv w), E. apply in_or_app. right. left. reflexivity. }
  destruct (bootstrap_reported _ c status Hin) as [w' Hw'].
  rewrite Hanswer in Hw' by (rewrite Hout; discriminate). exists w'. split; [exact Hw'|].
  unfold curl_f_status in Hw'. split.
  - intros Hge. apply Nat.leb_le in Hge. rewrite Hge in Hw'. subst status.
    apply (failed_call_is_last env argv w pre post c 22 E). discriminate.
  - intros Hlt. destruct (Nat.leb 400 (answer c w')) eqn:Ele; [|exact Hw'].
    apply Nat.leb_le in Ele. lia.
Qed.


(** ** The run as a whole *)

(** *** The variables of the main shell, step by step *)

Ltac assigned_tac :=
  repeat (apply assigned_more; [|unfold script_vars; simpl; tauto]);
  apply assigned_none.

Ltac plain_tac :=
  repeat first
    [ assumption
    | reflexivity
    | apply extract_json_field_plain
    | apply plain_default
    | apply plain_append
    | (apply neat_get; [assumption|reflexivity]) ].

Ltac neat_tac :=
  repeat (apply neat_assign; [|first [left; reflexivity | right; plain_tac]]);
  try assumption.

Lemma init_store m evs r m' :
  init m = (evs, r, m') ->
  assigned script_vars (sh m) (sh m') /\ (neat (sh m) = true -> neat (sh m') = true).
Proof.
  unfold init. destruct m as [s w]. sh_run.
  intros H. inversion H; subst. cbn [sh]. split; [assigned_tac|].
  intros Hn. neat_tac.
Qed.

Lemma authorize_store m evs r m' :
  authorize m = (evs, r, m') ->
  assigned script_vars (sh m) (sh m') /\ (neat (sh m) = true -> neat (sh m') = true).
Proof.
  unfold authorize, echo, echo_err. destruct m as [s w]. sh_run.
  destruct (nonempty (sh_get s "BACKBLAZE_KEY_ID")
            || nonempty (sh_get s "BACKBLAZE_APPLICATION_KEY")).
  2:{ intros H. inversion H; subst. split; [apply assigned_none|tauto]. }
  sh_run.
  destruct (negb (nonempty (sh_get s "BACKBLAZE_KEY_ID"))
            || negb (nonempty (sh_get s "BACKBLAZE_APPLICATION_KEY"))).
  { sh_run. intros H. inversion H; subst. split; [apply assigned_none|tauto]. }
  sh_run.
  match goal with
  | |- context [Nat.eqb ?st 0] => destruct (Nat.eqb st 0)
  end.
  - match goal with
    | |- context [negb (nonempty ?t)] => destruct (nonempty t)
    end; cbn [negb]; sh_run;
      (intros H; inversion H; subst; cbn [sh]; split; [assigned_tac|intros Hn; neat_tac]).
  - intros H; inversion H; subst; cbn [sh]; split; [assigned_tac|intros Hn; neat_tac].
Qed.

Lemma fetch_file_store u d m evs r m' :
  fetch_file u d m = (evs, r, m') ->
  assigned script_vars (sh m) (sh m')
  /\ (neat (sh m) = true -> mem_char newline u = false -> mem_char newline d = false ->
      neat (sh m') = true).
Proof.
  unfold fetch_file, echo, curl_to_file, call_is_backblaze_url.
  destruct m as [s w]. sh_run.
  destruct (nonempty (sh_get s "AUTH_HEADER")); simpl;
    [|destruct (nonempty (sh_get s "BACKBLAZE_AUTH_HEADER")); simpl;
      [destruct (is_backblaze_url (sh_get s "BACKBLAZE_DOWNLOAD_URL") u)|]];
    sh_run;
    unfold errexit;
    match goal with
    | |- context [Nat.eqb ?st 0] => destruct (Nat.eqb st 0)
    end;
    (intros H; inversion H; subst; cbn [sh]; split;
     [assigned_tac|intros Hn Hu Hd; neat_tac]).
Qed.

Lemma fetch_main_config_store m evs r m' :
  fetch_main_config m = (evs, r, m') ->
  assigned script_vars (sh m) (sh m') /\ (neat (sh m) = true -> neat (sh m') = true).
Proof.
  unfold fetch_main_config. rewrite bind_var.
  destruct (nonempty (sh_get (sh m) "LITELLM_CONFIG_URL")).
  - rewrite bind_var. intros H. apply fetch_file_store in H. destruct H as [Ha Hn].
    split; [exact Ha|]. intros Hneat. apply Hn; plain_tac.
  - intros H. inversion H; subst. split; [apply assigned_none|tauto].
Qed.

(** A run that reaches [exec], cut into its steps. *)
Lemma bootstrap_phases (m : machine) evs m' :
  bootstrap m = (evs, Ret tt, m') ->
  exists e1 m1 e2 m2 e3 m3 e4 m4 e5 m5 e6 m6,
    init m = (e1, Ret tt, m1)
    /\ authorize m1 = (e2, Ret tt, m2)
    /\ fetch_main_config m2 = (e3, Ret tt, m3)
    /\ fetch_additional_configs m3 = (e4, Ret tt, m4)
    /\ fetch_handlers m4 = (e5, Ret tt, m5)
    /\ list_files m5 = (e6, Ret tt, m6)
    /\ export_pythonpath m6 = ([], Ret tt, m')
    /\ evs = (e1 ++ e2 ++ e3 ++ e4 ++ e5 ++ e6)%list.
Proof.
  unfold bootstrap. intros H.
  apply bind_completed in H. destruct H as [e1 [[] [m1 [r1 [H1 [H E1]]]]]].
  apply bind_completed in H. destruct H as [e2 [[] [m2 [r2 [H2 [H E2]]]]]].
  apply bind_completed in H. destruct H as [e3 [[] [m3 [r3 [H3 [H E3]]]]]].
  apply bind_completed in H. destruct H as [e4 [[] [m4 [r4 [H4 [H E4]]]]]].
  apply bind_completed in H. destruct H as [e5 [[] [m5 [r5 [H5 [H E5]]]]]].
  apply bind_completed in H. destruct H as [e6 [[] [m6 [r6 [H6 [H E6]]]]]].
  pose proof H as H7. rewrite export_pythonpath_run in H. inversion H; subst.
  exists e1, m1, e2, m2, e3, m3, e4, m4, e5, m5, e6, m6.
  repeat (split; [assumption|]). rewrite app_nil_r. reflexivity.
Qed.

(** The store before line 140 of a run that reaches [exec]. *)
Lemma bootstrap_store (m : machine) evs m' :
  bootstrap m = (evs, Ret tt, m') ->
  exists s6,
    sh m' = sh_export s6 "PYTHONPATH"
              (sh_get s6 "CONFIG_DIR" ++ ":" ++ default_if_null (sh_get s6 "PYTHONPATH") "")
    /\ assigned script_vars (sh m) s6.
Proof.
  intros H. apply bootstrap_phases in H.
  destruct H as [e1 [m1 [e2 [m2 [e3 [m3 [e4 [m4 [e5 [m5 [e6 [m6 H]]]]]]]]]]]].
  destruct H as [H1 [H2 [H3 [H4 [H5 [H6 [H7 _]]]]]]].
  rewrite export_pythonpath_run in H7. inversion H7; subst. clear H7.
  exists (sh m6). split; [reflexivity|].
  apply init_store in H1. apply authorize_store in H2.
  apply fetch_main_config_store in H3.
  apply env_grep_while_frame in H4. apply env_grep_while_frame in H5.
  apply list_files_frame in H6. rewrite H6, H5, H4.
  eapply assigned_trans; [|exact (proj1 H3)].
  eapply assigned_trans; [exact (proj1 H1)|exact (proj1 H2)].
Qed.

(** X6. What the downstream entrypoint inherits from the script.  In a
    run that reaches [exec], an environment variable with a proper
    variable name, other than PYTHONPATH and the ten variables the script
    assigns, is handed on with the value it came with; and a variable the
    script assigns is handed on only when the environment already
    exported that name: the authorization token and the other working
    variables do not leak into the downstream process.  (Variables a
    shell keeps of its own accord, PWD for one, are outside the model.) *)
Theorem environment_handed_on
    (env : list (string * string)) (argv : list string) (w : World)
    (evs : list event) (prog : string) (args : list string)
    (envp : list (string * string)) :
  cloud_run_entrypoint env argv w = (evs, Execed prog args envp) ->
  (forall x, variable_name x = true -> ~ In x script_vars -> x <> "PYTHONPATH" ->
             env_lookup envp x = env_lookup env x)
  /\ (forall x, In x script_vars -> env_lookup env x = None ->
                env_lookup envp x = None).
Proof.
  unfold cloud_run_entrypoint.
  destruct (bootstrap (mk_machine (import_env env) w)) as [[evs0 [[]|code]] m'] eqn:E;
    [|discriminate].
  intros H. inversion H; subst. clear H.
  apply bootstrap_store in E. destruct E as [s6 [Hs Ha]]. cbn [sh] in Ha.
  rewrite Hs. split.
  - intros x _ Hx Hp. rewrite env_lookup_export_other.
    + rewrite (assigned_lookup _ _ _ x Ha Hx), exported_env_import. reflexivity.
    + apply String.eqb_neq. intros Heq. apply Hp. symmetry. exact Heq.
  - intros x Hx Hnone. rewrite env_lookup_export_other.
    + apply (assigned_lookup_none _ _ _ x Ha). rewrite exported_env_import. exact Hnone.
    + apply String.eqb_neq. intros Heq. subst x.
      unfold script_vars in Hx. simpl in Hx. intuition discriminate.
Qed.

(** *** The fetches of a run that reaches [exec] *)







(** *** The shape of every run *)

Lemma bind_anatomy {A B} (c : sh_m A) (k : A -> sh_m B) (m : machine) :
  (exists e1 a m1,
     c m = (e1, Ret a, m1)
     /\ trace (bind c k m) = (e1 ++ trace (k a m1))%list
     /\ outcome_of (bind c k m) = outcome_of (k a m1))
  \/ (exists e1 code m1,
        c m = (e1, Exit code, m1)
        /\ trace (bind c k m) = e1
        /\ outcome_of (bind c k m) = Exit code).
Proof.
  unfold bind, trace, outcome_of. destruct (c m) as [[e1 [a|code]] m1].
  - left. exists e1, a, m1. destruct (k a m1) as [[e2 r] m2]. repeat split.
  - right. exists e1, code, m1. repeat split.
Qed.

Lemma fetch_blocks_app cfg e1 e2 :
  fetch_blocks cfg e1 -> fetch_blocks cfg e2 -> fetch_blocks cfg (e1 ++ e2)%list.
Proof.
  intros H1 H2. induction H1 as [|u d h st rest Hd H1 IH]; [exact H2|].
  cbn [app]. apply fetch_blocks_more; assumption.
Qed.

Lemma fetch_blocks_events cfg evs : fetch_blocks cfg evs -> fetch_events cfg evs.
Proof.
  intros H. induction H as [|u d h st rest Hd H IH]; [intros ev []|].
  intros ev [<-|[<-|Hin]]; [| |exact (IH ev Hin)]; exists u, d; (split; [exact Hd|]).
  - left. reflexivity.
  - right. exists h, st. reflexivity.
Qed.

Lemma fetch_trace_blocks cfg s u d w :
  fetched_path cfg d -> fetch_blocks cfg (fetch_trace s u d w).
Proof.
  intros Hd. unfold fetch_trace, fetch_call.
  apply fetch_blocks_more; [exact Hd|apply fetch_blocks_none].
Qed.

Lemma fetch_all_blocks cfg s reqs w :
  (forall u d, In (u, d) reqs -> fetched_path cfg d) ->
  fetch_blocks cfg (fst (fst (fetch_all s reqs w))).
Proof.
  revert w. induction reqs as [|[u d] rest IH]; intros w Hreqs; [apply fetch_blocks_none|].
  cbn [fetch_all].
  assert (Hd : fetched_path cfg d) by (apply (Hreqs u d); left; reflexivity).
  assert (Hrest : forall u' d', In (u', d') rest -> fetched_path cfg d')
    by (intros u' d' Hin; apply (Hreqs u' d'); right; exact Hin).
  destruct (Nat.eqb _ 0).
  - specialize (IH (snd (curl (fetch_call s u d) w)) Hrest).
    destruct (fetch_all s rest _) as [[evs r] w']. cbn [fst] in *.
    apply fetch_blocks_app; [apply fetch_trace_blocks; exact Hd|exact IH].
  - cbn [fst]. apply fetch_trace_blocks; exact Hd.
Qed.

Lemma requests_paths prefix ending cfg lines u d :
  ending = ".yaml" \/ ending = "_handler.py" ->
  In (u, d) (requests prefix ending cfg lines) -> fetched_path cfg d.
Proof.
  intros He. induction lines as [|line rest IH]; [intros []|].
  cbn [requests]. unfold line_request.
  destruct (nonempty (snd (read_name_url line))); [|exact IH].
  intros [H|H]; [|exact (IH H)]. inversion H; subst.
  exists (sed_tr_suffix prefix (fst (read_name_url line))), ending.
  split; [reflexivity|]. split; [apply sed_tr_suffix_no_upper|exact He].
Qed.

Lemma env_grep_while_blocks cfg prefix ending (m : machine) :
  ending = ".yaml" \/ ending = "_handler.py" ->
  sh_get (sh m) "CONFIG_DIR" = cfg ->
  fetch_blocks cfg (trace (env_grep_while prefix (loop_body prefix ending) m)).
Proof.
  intros He Hcfg. rewrite env_grep_while_run.
  pose proof (fetch_all_blocks cfg (sh m)
                (requests prefix ending (sh_get (sh m) "CONFIG_DIR")
                   (grep_anchored prefix (env_lines (sh m)))) (world m)) as H.
  destruct (fetch_all _ _ _) as [[evs r] w']. unfold trace. cbn [fst] in *.
  apply H. intros u d Hin. rewrite Hcfg in Hin. exact (requests_paths _ _ _ _ _ _ He Hin).
Qed.

Lemma fetch_main_config_blocks cfg (m : machine) :
  sh_get (sh m) "CONFIG_DIR" = cfg ->
  fetch_blocks cfg (trace (fetch_main_config m)).
Proof.
  intros Hcfg. destruct (fetch_main_config_run m) as [s' [_ Hrun]]. rewrite Hrun.
  destruct (nonempty _); [|apply fetch_blocks_none].
  unfold trace. cbn [fst]. apply fetch_trace_blocks. rewrite Hcfg.
  exists "config", ".yaml". split; [reflexivity|]. split; [reflexivity|left; reflexivity].
Qed.

Lemma authorize_events (m : machine) :
  authorization_events (authorize_call (sh m)) (trace (authorize m)).
Proof.
  destruct (authorize_run m) as [s' [_ [Hrun _]]]. rewrite Hrun.
  unfold authorization_events, trace.
  repeat match goal with
         | |- context [if ?b then _ else _] => destruct b
         end; cbn [fst];
    first [ left; reflexivity
          | right; left; reflexivity
          | right; right; eexists; left; reflexivity
          | right; right; eexists; right; reflexivity ].
Qed.

Lemma listing_anatomy cfg (m : machine) :
  sh_get (sh m) "CONFIG_DIR" = cfg ->
  listing_events cfg (trace ((list_files ;; export_pythonpath) m))
                     (outcome_of ((list_files ;; export_pythonpath) m)).
Proof.
  intros Hcfg. unfold bind. rewrite list_files_run, Hcfg.
  destruct (dir_has_entries cfg (world m)).
  - unfold status_result. destruct (Nat.eqb (fst (ls_la cfg (world m))) 0) eqn:Est.
    + rewrite export_pythonpath_run. unfold trace, outcome_of. cbn [fst snd app].
      right. exists (fst (ls_la cfg (world m))). split; [reflexivity|].
      unfold status_result. rewrite Est. reflexivity.
    + unfold trace, outcome_of. cbn [fst snd].
      right. exists (fst (ls_la cfg (world m))). split; [reflexivity|].
      unfold status_result. rewrite Est. reflexivity.
  - rewrite export_pythonpath_run. left. reflexivity.
Qed.

(** One more fetching step in front of a tail of the script. *)
Lemma fetch_step_anatomy cfg (c k : sh_m unit) :
  (forall m, sh_get (sh m) "CONFIG_DIR" = cfg -> fetch_blocks cfg (trace (c m))) ->
  (forall m e r m1, c m = (e, r, m1) ->
                    sh_get (sh m1) "CONFIG_DIR" = sh_get (sh m) "CONFIG_DIR") ->
  (forall m, sh_get (sh m) "CONFIG_DIR" = cfg ->
             exists e3 e6,
               trace (k m) = (e3 ++ e6)%list /\ fetch_blocks cfg e3
               /\ listing_events cfg e6 (outcome_of (k m))) ->
  forall m, sh_get (sh m) "CONFIG_DIR" = cfg ->
            exists e3 e6,
              trace ((c ;; k) m) = (e3 ++ e6)%list /\ fetch_blocks cfg e3
              /\ listing_events cfg e6 (outcome_of ((c ;; k) m)).
Proof.
  intros Hc Hframe Hk m Hcfg.
  destruct (bind_anatomy c (fun _ => k) m) as [[e1 [[] [m1 [E [Ht Ho]]]]]|[e1 [code [m1 [E [Ht Ho]]]]]].
  - assert (Hcfg1 : sh_get (sh m1) "CONFIG_DIR" = cfg)
      by (rewrite (Hframe _ _ _ _ E); exact Hcfg).
    destruct (Hk m1 Hcfg1) as [e3 [e6 [Htk [H3 H6]]]].
    exists (e1 ++ e3)%list, e6. rewrite Ht, Ho, Htk, app_assoc.
    split; [reflexivity|]. split; [|exact H6].
    apply fetch_blocks_app; [|exact H3].
    pose proof (Hc m Hcfg) as H. rewrite E in H. exact H.
  - exists e1, []. rewrite Ht, Ho, app_nil_r. split; [reflexivity|].
    split; [|left; reflexivity].
    pose proof (Hc m Hcfg) as H. rewrite E in H. exact H.
Qed.

Lemma fetch_steps_anatomy cfg (m : machine) :
  sh_get (sh m) "CONFIG_DIR" = cfg ->
  exists e3 e6,
    trace ((fetch_main_config ;; fetch_additional_configs ;; fetch_handlers ;;
            list_files ;; export_pythonpath) m) = (e3 ++ e6)%list
    /\ fetch_blocks cfg e3
    /\ listing_events cfg e6
         (outcome_of ((fetch_main_config ;; fetch_additional_configs ;; fetch_handlers ;;
                       list_files ;; export_pythonpath) m)).
Proof.
  revert m. apply fetch_step_anatomy.
  { apply fetch_main_config_blocks. }
  { intros m e r m1 H. apply fetch_main_config_frame in H. apply H. not_in_list. }
  apply fetch_step_anatomy.
  { intros m. apply env_grep_while_blocks. left; reflexivity. }
  { intros m e r m1 H. apply env_grep_while_frame in H. rewrite H. reflexivity. }
  apply fetch_step_anatomy.
  { intros m. apply env_grep_while_blocks. right; reflexivity. }
  { intros m e r m1 H. apply env_grep_while_frame in H. rewrite H. reflexivity. }
  intros m Hcfg. exists [], (trace ((list_files ;; export_pythonpath) m)).
  split; [reflexivity|]. split; [apply fetch_blocks_none|].
  apply listing_anatomy, Hcfg.
Qed.

(** Every run: the directory is made, then come the authorization step,
    the fetches and the listing, as far as the run gets. *)
Lemma bootstrap_anatomy (m : machine) :
  exists e2 e3 e6,
    trace (bootstrap m) = (EvMkdir (config_dir_of (sh m)) :: e2 ++ e3 ++ e6)%list
    /\ authorization_events
         (mk_curl (Some (key_id_of (sh m) ++ ":" ++ application_key_of (sh m)))
                  None (auth_url_of (sh m)) None) e2
    /\ fetch_blocks (config_dir_of (sh m)) e3
    /\ listing_events (config_dir_of (sh m)) e6 (outcome_of (bootstrap m)).
Proof.
  unfold bootstrap.
  destruct (init_run m) as [s1 [Hinit [_ [Hcfg [Hurl [Hkey [Happ _]]]]]]].
  rewrite (bind_continues _ _ _ _ _ _ Hinit).
  pose proof (authorize_events
                (mk_machine s1 (mkdir_p (config_dir_of (sh m)) (world m)))) as Hauth.
  unfold authorize_call in Hauth. cbn [sh] in Hauth.
  rewrite Hurl, Hkey, Happ in Hauth.
  set (m1 := mk_machine s1 _) in *.
  destruct (bind_anatomy authorize
              (fun _ => fetch_main_config ;; fetch_additional_configs ;; fetch_handlers ;;
                        list_files ;; export_pythonpath) m1)
    as [[e2 [[] [m2 [E [Ht Ho]]]]]|[e2 [code [m2 [E [Ht Ho]]]]]].
  - assert (Hcfg2 : sh_get (sh m2) "CONFIG_DIR" = config_dir_of (sh m)).
    { pose proof (authorize_frame _ _ _ _ E) as Hf.
      rewrite (Hf "CONFIG_DIR") by (unfold auth_vars; not_in_list). exact Hcfg. }
    destruct (fetch_steps_anatomy _ m2 Hcfg2) as [e3 [e6 [Htk [H3 H6]]]].
    exists e2, e3, e6. rewrite E in Hauth. unfold trace in Hauth. cbn [fst] in Hauth.
    unfold trace, outcome_of, prepend in *.
    destruct ((authorize ;; _) m1) as [[evs r] mx]. cbn [fst snd] in *.
    subst evs r. rewrite Htk. repeat split; assumption.
  - exists e2, [], []. rewrite E in Hauth. unfold trace in Hauth. cbn [fst] in Hauth.
    unfold trace, outcome_of, prepend in *.
    destruct ((authorize ;; _) m1) as [[evs r] mx]. cbn [fst snd] in *.
    subst evs r. rewrite !app_nil_r. repeat split; try assumption.
    + apply fetch_blocks_none.
    + left. reflexivity.
Qed.

(** *** The run and its bootstrap *)

Lemma run_outcome (env : list (string * string)) (argv : list string) (w : World) :
  match outcome_of (bootstrap (mk_machine (import_env env) w)) with
  | Ret _ => exists envp,
      snd (cloud_run_entrypoint env argv w) = Execed downstream_entrypoint argv envp
  | Exit code => snd (cloud_run_entrypoint env argv w) = Exited code
  end.
Proof.
  unfold cloud_run_entrypoint, outcome_of.
  destruct (bootstrap _) as [[evs [a|code]] m]; cbn [fst snd]; [eexists|]; reflexivity.
Qed.

(** *** Why a run exits *)

Lemma exit_explained_ret {A} evs (a : A) : exit_explained evs (Ret a).
Proof. intros code H. discriminate H. Qed.

Lemma exit_explained_bind {A B} (c : sh_m A) (k : A -> sh_m B) (m : machine) :
  exit_explained (trace (c m)) (outcome_of (c m)) ->
  (forall a m1, exit_explained (trace (k a m1)) (outcome_of (k a m1))) ->
  exit_explained (trace (bind c k m)) (outcome_of (bind c k m)).
Proof.
  intros Hc Hk.
  destruct (bind_anatomy c k m) as [[e1 [a [m1 [E [Ht Ho]]]]]|[e1 [code [m1 [E [Ht Ho]]]]]];
    rewrite Ht, Ho.
  - intros code Hcode. destruct (Hk a m1 code Hcode) as [Hnz [pre [last [Hevs Hcause]]]].
    split; [exact Hnz|]. exists (e1 ++ pre)%list, last.
    rewrite Hevs, app_assoc. split; [reflexivity|exact Hcause].
  - rewrite E in Hc. unfold trace, outcome_of in Hc. cbn [fst snd] in Hc.
    intros code0 H. inversion H; subst code0. exact (Hc code eq_refl).
Qed.

Lemma status_result_explained (pre : list event) (last : event) (status : nat) :
  (exists c, last = EvCurl c status) \/ (exists dir, last = EvLs dir status) ->
  exit_explained (pre ++ [last])%list (status_result status).
Proof.
  intros Hlast code. unfold status_result.
  destruct (Nat.eqb status 0) eqn:E; [discriminate|].
  intros H. inversion H; subst code. apply Nat.eqb_neq in E. split; [exact E|].
  exists pre, last. split; [reflexivity|]. right. exact Hlast.
Qed.

Lemma authorize_exit_explained (m : machine) :
  exit_explained (trace (authorize m)) (outcome_of (authorize m)).
Proof.
  destruct (authorize_run m) as [s' [_ [Hrun _]]]. rewrite Hrun.
  unfold trace, outcome_of.
  destruct (_ || _); [|apply exit_explained_ret].
  destruct (_ || _).
  { intros code H. inversion H; subst code. split; [discriminate|].
    exists [], (EvStderr both_must_be_set). split; [reflexivity|].
    left. split; [reflexivity|left; reflexivity]. }
  destruct (Nat.eqb _ 0) eqn:Est.
  - destruct (nonempty _); [apply exit_explained_ret|].
    intros code H. inversion H; subst code. split; [discriminate|].
    eexists [_; _], (EvStderr failed_to_read_token). split; [reflexivity|].
    left. split; [reflexivity|right; reflexivity].
  - intros code H. inversion H; subst code. apply Nat.eqb_neq in Est.
    split; [exact Est|]. eexists [_], _. split; [reflexivity|].
    right. left. eexists. reflexivity.
Qed.

Lemma fetch_main_config_exit_explained (m : machine) :
  exit_explained (trace (fetch_main_config m)) (outcome_of (fetch_main_config m)).
Proof.
  destruct (fetch_main_config_run m) as [s' [_ Hrun]]. rewrite Hrun.
  destruct (nonempty _); [|apply exit_explained_ret].
  unfold trace, outcome_of, fetch_trace. cbn [fst snd].
  apply (status_result_explained [_]). left. eexists. reflexivity.
Qed.

Lemma fetch_all_exit_explained s reqs w :
  exit_explained (fst (fst (fetch_all s reqs w))) (snd (fst (fetch_all s reqs w))).
Proof.
  revert w. induction reqs as [|[u d] rest IH]; intros w; [apply exit_explained_ret|].
  cbn [fetch_all]. destruct (Nat.eqb _ 0) eqn:Est.
  - specialize (IH (snd (curl (fetch_call s u d) w))).
    destruct (fetch_all s rest _) as [[evs r] w']. cbn [fst snd] in *.
    intros code Hcode. destruct (IH code Hcode) as [Hnz [pre [last [Hevs Hcause]]]].
    split; [exact Hnz|]. exists (fetch_trace s u d w ++ pre)%list, last.
    rewrite Hevs, app_assoc. split; [reflexivity|exact Hcause].
  - cbn [fst snd]. intros code H. inversion H; subst code. apply Nat.eqb_neq in Est.
    split; [exact Est|]. unfold fetch_trace. eexists [_], _. split; [reflexivity|].
    right. left. eexists. reflexivity.
Qed.

Lemma env_grep_while_exit_explained prefix ending (m : machine) :
  exit_explained (trace (env_grep_while prefix (loop_body prefix ending) m))
                 (outcome_of (env_grep_while prefix (loop_body prefix ending) m)).
Proof.
  rewrite env_grep_while_run.
  pose proof (fetch_all_exit_explained (sh m)
                (requests prefix ending (sh_get (sh m) "CONFIG_DIR")
                   (grep_anchored prefix (env_lines (sh m)))) (world m)) as H.
  destruct (fetch_all _ _ _) as [[evs r] w']. exact H.
Qed.

Lemma list_files_exit_explained (m : machine) :
  exit_explained (trace (list_files m)) (outcome_of (list_files m)).
Proof.
  rewrite list_files_run. destruct (dir_has_entries _ _); [|apply exit_explained_ret].
  unfold trace, outcome_of. cbn [fst snd].
  apply (status_result_explained [_]). right. eexists. reflexivity.
Qed.

Lemma bootstrap_exit_explained (m : machine) :
  exit_explained (trace (bootstrap m)) (outcome_of (bootstrap m)).
Proof.
  unfold bootstrap.
  apply exit_explained_bind.
  { destruct (init_run m) as [s1 [Hinit _]]. rewrite Hinit. apply exit_explained_ret. }
  intros _ m1. apply exit_explained_bind; [apply authorize_exit_explained|].
  intros _ m2. apply exit_explained_bind; [apply fetch_main_config_exit_explained|].
  intros _ m3. apply exit_explained_bind; [apply env_grep_while_exit_explained|].
  intros _ m4. apply exit_explained_bind; [apply env_grep_while_exit_explained|].
  intros _ m5. apply exit_explained_bind; [apply list_files_exit_explained|].
  intros _ m6. rewrite export_pythonpath_run. apply exit_explained_ret.
Qed.

(** X8. The script never exits with status 0, and what it did last
    tells why it exited: status 1 follows one of its two complaints on
    standard error; any other status is that of the curl or ls call that
    ends the trace.  A run that does not fail this way reaches [exec]. *)
Theorem exit_is_explained
    (env : list (string * string)) (argv : list string) (w : World) (code : nat) :
  snd (cloud_run_entrypoint env argv w) = Exited code ->
  code <> 0
  /\ exists pre last,
       fst (cloud_run_entrypoint env argv w) = (pre ++ [last])%list
       /\ exit_cause code last.
Proof.
  intros H. rewrite run_trace. apply bootstrap_exit_explained.
  pose proof (run_outcome env argv w) as Ho.
  destruct (outcome_of (bootstrap _)) as [[]|code'].
  - destruct Ho as [envp Ho]. rewrite Ho in H. discriminate H.
  - rewrite Ho in H. inversion H. reflexivity.
Qed.

(** *** Reading the shape of a run *)

Lemma authorization_events_in c evs ev :
  authorization_events c evs -> In ev evs ->
  ev = EvStderr both_must_be_set
  \/ ev = EvStdout "Authorizing with Backblaze B2..."
  \/ ev = EvStderr failed_to_read_token
  \/ exists status, ev = EvCurl c status.
Proof.
  intros [->|[->|[st [->| ->]]]] Hin; cbn [In] in Hin;
    repeat match goal with
           | H : _ \/ _ |- _ => destruct H as [H|H]
           end; try contradiction; subst ev; eauto 6.
Qed.

Lemma listing_events_in cfg evs r ev :
  listing_events cfg evs r -> In ev evs ->
  ev = EvStdout ("Files in " ++ cfg ++ ":") \/ exists status, ev = EvLs cfg status.
Proof.
  intros [->|[st [-> _]]] Hin; cbn [In] in Hin;
    repeat match goal with
           | H : _ \/ _ |- _ => destruct H as [H|H]
           end; try contradiction; subst ev; eauto.
Qed.

Lemma destinations_in (evs : list event) (dest : string) :
  In dest (destinations evs) ->
  exists c status, In (EvCurl c status) evs /\ curl_output c = Some dest.
Proof.
  unfold destinations. induction evs as [|ev r IH]; [intros []|].
  destruct ev as [d|l|l|[u h url [d|]] st|d st]; cbn [fetch_attempts map];
    try (intros H; destruct (IH H) as [c [st' [Hin Hout]]];
         exists c, st'; split; [right; exact Hin|exact Hout]).
  cbn [snd]. intros [H|H].
  - subst d. eexists. eexists. split; [left; reflexivity|reflexivity].
  - destruct (IH H) as [c [st' [Hin Hout]]].
    exists c, st'; split; [right; exact Hin|exact Hout].
Qed.

(** X9. Where the script writes, whatever the environment holds: every
    destination of a fetch, in every run, is the config directory
    (CONFIG_DIR, or /app/config when that is unset or empty), a slash, a
    stem without upper-case letters, and the ending .yaml or
    _handler.py. *)
Theorem every_destination_under_config_dir
    (env : list (string * string)) (argv : list string) (w : World) (dest : string) :
  In dest (destinations (fst (cloud_run_entrypoint env argv w))) ->
  fetched_path (config_dir_of (import_env env)) dest.
Proof.
  intros H. apply destinations_in in H. destruct H as [c [st [Hin Hout]]].
  rewrite run_trace in Hin.
  destruct (bootstrap_anatomy (mk_machine (import_env env) w))
    as [e2 [e3 [e6 [Ht [H2 [H3 H6]]]]]].
  apply fetch_blocks_events in H3.
  cbn [sh] in *. rewrite Ht in Hin.
  destruct Hin as [Hin|Hin]; [discriminate Hin|].
  apply in_app_or in Hin. destruct Hin as [Hin|Hin].
  { destruct (authorization_events_in _ _ _ H2 Hin) as [E|[E|[E|[st' E]]]];
      try discriminate E.
    inversion E; subst. discriminate Hout. }
  apply in_app_or in Hin. destruct Hin as [Hin|Hin].
  - destruct (H3 _ Hin) as [url [d [Hpath [E|[h [st' E]]]]]]; [discriminate E|].
    inversion E; subst. cbn [curl_output] in Hout. inversion Hout; subst. exact Hpath.
  - destruct (listing_events_in _ _ _ _ H6 Hin) as [E|[st' E]]; discriminate E.
Qed.

(** X10. Where the credentials go.  A call of curl in a run is either a
    file fetch, which carries no [-u], or the one authorization call: it
    is made for the key id and application key of the environment, to
    the authorization URL, right after the config directory is made and
    before any fetch, and no later call carries credentials. *)
Theorem credentials_sent_once
    (env : list (string * string)) (argv : list string) (w : World)
    (c : curl_call) (status : nat) :
  In (EvCurl c status) (fst (cloud_run_entrypoint env argv w)) ->
  (curl_user c = None /\ exists dest, curl_output c = Some dest)
  \/ (c = authorization_request env
      /\ exists post,
           fst (cloud_run_entrypoint env argv w)
           = ([EvMkdir (config_dir_of (import_env env));
               EvStdout "Authorizing with Backblaze B2...";
               EvCurl c status] ++ post)%list
           /\ forall c' status', In (EvCurl c' status') post -> curl_user c' = None).
Proof.
  rewrite run_trace.
  destruct (bootstrap_anatomy (mk_machine (import_env env) w))
    as [e2 [e3 [e6 [Ht [H2 [H3 H6]]]]]].
  apply fetch_blocks_events in H3.
  cbn [sh] in *. rewrite Ht. clear Ht.
  assert (Hrest : forall c' st', In (EvCurl c' st') (e3 ++ e6)%list ->
                                 curl_user c' = None /\ exists dest, curl_output c' = Some dest).
  { intros c' st' Hin. apply in_app_or in Hin. destruct Hin as [Hin|Hin].
    - destruct (H3 _ Hin) as [url [d [_ [E|[h [st'' E]]]]]]; [discriminate E|].
      inversion E; subst. split; [reflexivity|]. exists d. reflexivity.
    - destruct (listing_events_in _ _ _ _ H6 Hin) as [E|[st'' E]]; discriminate E. }
  intros [Hin|Hin]; [discriminate Hin|].
  apply in_app_or in Hin. destruct Hin as [Hin|Hin]; [|left; exact (Hrest _ _ Hin)].
  right. destruct H2 as [->|[->|[st [->| ->]]]]; cbn [In] in Hin;
    repeat match goal with
           | H : _ \/ _ |- _ => destruct H as [H|H]
           end; try contradiction; try discriminate Hin;
    inversion Hin; subst; (split; [reflexivity|]).
  - exists (e3 ++ e6)%list. split; [reflexivity|].
    intros c' st' Hc'. exact (proj1 (Hrest _ _ Hc')).
  - exists (EvStderr failed_to_read_token :: e3 ++ e6)%list. split; [reflexivity|].
    intros c' st' [Hc'|Hc']; [discriminate Hc'|]. exact (proj1 (Hrest _ _ Hc')).
Qed.

(** X11. The listing.  When the script lists the config directory, it
    is the last thing it does before handing over: every fetch before it
    succeeded, the listing is that of the config directory, after its
    heading, and its status decides the run: a failing [ls] ends the
    script with that status, a successful one is followed by [exec]. *)
Theorem listing_is_last
    (env : list (string * string)) (argv : list string) (w : World)
    (dir : string) (status : nat) :
  In (EvLs dir status) (fst (cloud_run_entrypoint env argv w)) ->
  dir = config_dir_of (import_env env)
  /\ (exists pre,
        fst (cloud_run_entrypoint env argv w)
        = (pre ++ [EvStdout ("Files in " ++ dir ++ ":"); EvLs dir status])%list)
  /\ all_ok (fst (cloud_run_entrypoint env argv w))
  /\ (status <> 0 -> snd (cloud_run_entrypoint env argv w) = Exited status)
  /\ (status = 0 -> exists envp,
        snd (cloud_run_entrypoint env argv w) = Execed downstream_entrypoint argv envp).
Proof.
  rewrite run_trace. pose proof (run_outcome env argv w) as Ho.
  pose proof (bootstrap_fails_last (mk_machine (import_env env) w)) as Hfl.
  destruct (bootstrap_anatomy (mk_machine (import_env env) w))
    as [e2 [e3 [e6 [Ht [H2 [H3 H6]]]]]].
  apply fetch_blocks_events in H3.
  cbn [sh] in *. rewrite Ht in *. clear Ht.
  intros [Hin|Hin]; [discriminate Hin|].
  apply in_app_or in Hin. destruct Hin as [Hin|Hin].
  { destruct (authorization_events_in _ _ _ H2 Hin) as [E|[E|[E|[st' E]]]]; discriminate E. }
  apply in_app_or in Hin. destruct Hin as [Hin|Hin].
  { destruct (H3 _ Hin) as [url [d [_ [E|[h [st' E]]]]]]; discriminate E. }
  destruct H6 as [->|[st [-> Hr]]]; [destruct Hin|].
  destruct Hin as [Hin|[Hin|[]]]; [discriminate Hin|]. inversion Hin; subst dir st.
  split; [reflexivity|]. split.
  { exists (EvMkdir (config_dir_of (import_env env)) :: e2 ++ e3)%list.
    cbn [app]. rewrite <- !app_assoc. reflexivity. }
  split.
  { destruct Hfl as [Hok|[pre [c [st [Hevs _]]]]]; [exact Hok|].
    exfalso.
    change (EvMkdir (config_dir_of (import_env env))
              :: e2 ++ e3 ++ [EvStdout ("Files in " ++ config_dir_of (import_env env) ++ ":");
                              EvLs (config_dir_of (import_env env)) status])%list
      with ((EvMkdir (config_dir_of (import_env env))
               :: e2 ++ e3 ++ [EvStdout ("Files in " ++ config_dir_of (import_env env) ++ ":")]
                 ++ [EvLs (config_dir_of (import_env env)) status]))%list in Hevs.
    rewrite !app_assoc, app_comm_cons in Hevs.
    apply app_inj_tail in Hevs. destruct Hevs as [_ Hevs]. discriminate Hevs. }
  rewrite Hr in Ho. unfold status_result in Ho. split.
  - intros Hnz. apply Nat.eqb_neq in Hnz. rewrite Hnz in Ho. exact Ho.
  - intros ->. exact Ho.
Qed.

(** X12. A pre-made Backblaze header cannot be handed in.  When the
    environment sets neither a key id nor an application key, no fetch
    carries a header other than AUTH_HEADER, whatever the environment
    puts in BACKBLAZE_AUTH_HEADER and BACKBLAZE_DOWNLOAD_URL and
    whatever the URL: lines 43-44 clear both before the first fetch. *)
Theorem environment_backblaze_header_unused
    (env : list (string * string)) (argv : list string) (w : World)
    (c : curl_call) (status : nat) (dest : string) :
  key_id_of (import_env env) = "" ->
  application_key_of (import_env env) = "" ->
  In (EvCurl c status) (fst (cloud_run_entrypoint env argv w)) ->
  curl_output c = Some dest ->
  curl_header c
  = if nonempty (sh_get (import_env env) "AUTH_HEADER")
    then Some (sh_get (import_env env) "AUTH_HEADER")
    else None.
Proof.
  intros Hkey Happ Hin Hout. rewrite run_trace in Hin.
  pose proof (bootstrap_header_rule env w c status dest Hin Hout) as H.
  cbv beta in H. rewrite H.
  unfold registered_backblaze_header. rewrite Hkey, Happ. reflexivity.
Qed.

(** *** The fetches of a run against its plan *)










Lemma fetch_blocks_announced cfg evs :
  fetch_blocks cfg evs -> announced_fetches cfg evs.
Proof.
  intros H. induction H as [|u d h st rest Hd H IH]; [apply announced_none|].
  apply announced_more; [exact Hd|reflexivity|exact IH].
Qed.

(** X13. The shape of every run, whatever the environment and the
    outside world answer, as far as mkdir, echo, curl and ls -la go.
    The script makes the config directory; then comes the authorization
    step: nothing, or the complaint about half a credential, or the
    announcement and the one authorization call, followed or not by the
    complaint about the token; then come the fetches, each a line
    written and, right after it, the call of curl into a file under the
    config directory (the line is Fetching URL -> DEST for the URL and
    destination of that call when these hold no backslash); then at most
    a heading and the listing of the config directory (the heading is
    Files in DIR: when the directory holds no backslash).  The run has
    no other call of mkdir, curl or ls -la and no other echo. *)
Theorem run_shape
    (env : list (string * string)) (argv : list string) (w : World) :
  exists authorization fetches listing,
    fst (cloud_run_entrypoint env argv w)
    = (EvMkdir (config_dir_of (import_env env))
         :: authorization ++ fetches ++ listing)%list
    /\ authorization_events (authorization_request env) authorization
    /\ announced_fetches (config_dir_of (import_env env)) fetches
    /\ (listing = []
        \/ exists heading status,
             listing = [EvStdout heading; EvLs (config_dir_of (import_env env)) status]
             /\ (no_backslash (config_dir_of (import_env env)) = true ->
                 heading = "Files in " ++ config_dir_of (import_env env) ++ ":")).
Proof.
  rewrite run_trace.
  destruct (bootstrap_anatomy (mk_machine (import_env env) w))
    as [e2 [e3 [e6 [Ht [H2 [H3 H6]]]]]].
  cbn [sh] in *. exists e2, e3, e6.
  split; [exact Ht|]. split; [exact H2|].
  split; [apply fetch_blocks_announced; exact H3|].
  destruct H6 as [->|[st [-> _]]]; [left; reflexivity|].
  right. eexists. exists st. split; [reflexivity|]. intros _. reflexivity.
Qed.

Lemma trace_prepend {A} e (x : list event * result A * machine) :
  trace (prepend e x) = (e ++ trace x)%list.
Proof. destruct x as [[e2 r] m]. reflexivity. Qed.

(** X15. When the network is asked for a token: a run makes the
    authorization call exactly when both the key id and the application
    key are set (after the aliases B2_KEY_ID and B2_APPLICATION_KEY are
    taken into account); with neither, or with one of them only, no call
    carries credentials. *)
Theorem authorization_iff_both_halves
    (env : list (string * string)) (argv : list string) (w : World) :
  (exists status,
     In (EvCurl (authorization_request env) status) (fst (cloud_run_entrypoint env argv w)))
  <-> nonempty (key_id_of (import_env env))
      && nonempty (application_key_of (import_env env)) = true.
Proof.
  rewrite run_trace. unfold bootstrap.
  destruct (init_run (mk_machine (import_env env) w))
    as [s1 [Hinit [_ [Hcfg [Hurl [Hkey [Happ _]]]]]]].
  cbn [sh world] in *.
  rewrite (bind_continues _ _ _ _ _ _ Hinit), trace_prepend.
  set (rest := fetch_main_config ;; fetch_additional_configs ;; fetch_handlers ;;
               list_files ;; export_pythonpath).
  assert (Hcall : authorize_call s1 = authorization_request env).
  { unfold authorize_call, authorization_request. rewrite Hurl, Hkey, Happ.
    reflexivity. }
  assert (Hrest : forall m2 status,
             sh_get (sh m2) "CONFIG_DIR" = config_dir_of (import_env env) ->
             ~ In (EvCurl (authorization_request env) status) (trace (rest m2))).
  { intros m2 status Hcfg2 Hin.
    destruct (fetch_steps_anatomy _ m2 Hcfg2) as [e3 [e6 [Ht [H3 H6]]]].
    fold rest in Ht. rewrite Ht in Hin. apply in_app_or in Hin. destruct Hin as [Hin|Hin].
    - apply fetch_blocks_events in H3.
      destruct (H3 _ Hin) as [url [d [_ [E|[h [st E]]]]]]; discriminate E.
    - destruct (listing_events_in _ _ _ _ H6 Hin) as [E|[st E]]; discriminate E. }
  destruct (authorize_run (mk_machine s1 (mkdir_p (config_dir_of (import_env env)) w)))
    as [s2 [Hag [Hrun _]]].
  cbv zeta in Hrun. cbn [sh world] in Hrun. rewrite Hcall, Hkey, Happ in Hrun.
  destruct (nonempty (key_id_of (import_env env)));
    destruct (nonempty (application_key_of (import_env env)));
    cbn [orb andb negb] in Hrun |- *.
  - (* both halves: the call is the third event *)
    split; [reflexivity|]. intros _. eexists.
    destruct (Nat.eqb _ 0); [destruct (nonempty _)|].
    + rewrite (bind_continues _ _ _ _ _ _ Hrun), trace_prepend.
      cbn [app]. right. right. left. reflexivity.
    + rewrite (bind_stops _ _ _ _ _ _ Hrun). unfold trace. cbn [fst app].
      right. right. left. reflexivity.
    + rewrite (bind_stops _ _ _ _ _ _ Hrun). unfold trace. cbn [fst app].
      right. right. left. reflexivity.
  - split; [|discriminate]. intros [status Hin]. exfalso.
    rewrite (bind_stops _ _ _ _ _ _ Hrun) in Hin. unfold trace in Hin.
    cbn [fst app] in Hin. destruct Hin as [Hin|[Hin|[]]]; discriminate Hin.
  - split; [|discriminate]. intros [status Hin]. exfalso.
    rewrite (bind_stops _ _ _ _ _ _ Hrun) in Hin. unfold trace in Hin.
    cbn [fst app] in Hin. destruct Hin as [Hin|[Hin|[]]]; discriminate Hin.
  - split; [|discriminate]. intros [status Hin]. exfalso.
    rewrite (bind_continues _ _ _ _ _ _ Hrun), prepend_nil in Hin.
    cbn [app] in Hin. destruct Hin as [Hin|Hin]; [discriminate Hin|].
    apply (Hrest _ status) in Hin; [exact Hin|exact Hcfg].
Qed.

End Facts.

(* ================================================================== *)
(** * Part III. The properties on the scripted world *)
(* ================================================================== *)

(** C2 on a run whose first additional config the server answers with
    404: curl -f exits with 22, the second config is not fetched, and
    the script exits with 22. *)
Lemma fetch_failure_is_fatal_witness :
  fst (@cloud_run_entrypoint nat (http_outside sample_server)
         [("CONFIG_URL_A", "https://x/missing.yaml");
          ("CONFIG_URL_B", "https://x/b.yaml")] [] 0)
  = ([EvMkdir "/app/config";
      EvStdout "Fetching https://x/missing.yaml -> /app/config/a.yaml"]
     ++ EvCurl (mk_curl None None "https://x/missing.yaml" (Some "/app/config/a.yaml")) 22
     :: [])%list
  /\ sample_server "https://x/missing.yaml" = 404
  /\ ([] = ([] : list event)
      /\ snd (@cloud_run_entrypoint nat (http_outside sample_server)
                [("CONFIG_URL_A", "https://x/missing.yaml");
                 ("CONFIG_URL_B", "https://x/b.yaml")] [] 0)
         = Exited 22).
Proof.
  split; [vm_compute; reflexivity|]. split; [reflexivity|].
  destruct (@fetch_failure_is_fatal nat (http_outside sample_server)
              [("CONFIG_URL_A", "https://x/missing.yaml");
               ("CONFIG_URL_B", "https://x/b.yaml")] [] 0
              [EvMkdir "/app/config";
               EvStdout "Fetching https://x/missing.yaml -> /app/config/a.yaml"]
              []
              (mk_curl None None "https://x/missing.yaml" (Some "/app/config/a.yaml")) 22
              eq_refl)
    as [_ Hhttp].
  destruct (Hhttp (fun c _ => sample_server (curl_url c)) "/app/config/a.yaml"
              eq_refl (fun c' w' _ => eq_refl))
    as [w' [_ [Hfatal _]]].
  apply Hfatal. apply Nat.leb_le. reflexivity.
Defined.

(** C3 with only B2_KEY_ID set. *)
Lemma half_credentials_witness :
  xorb (nonempty (key_id_of (import_env [("B2_KEY_ID", "id")])))
       (nonempty (application_key_of (import_env [("B2_KEY_ID", "id")]))) = true
  /\ (lab_run [("B2_KEY_ID", "id")] []
      = ([EvMkdir (config_dir_of (import_env [("B2_KEY_ID", "id")]));
          EvStderr both_must_be_set], Exited 1)
      /\ curl_calls (fst (lab_run [("B2_KEY_ID", "id")] [])) = []).
Proof.
  split; [reflexivity|].
  apply (half_credentials_exit_before_any_call [("B2_KEY_ID", "id")] [] 0).
  reflexivity.
Defined.

(** C4 with both halves set and the reply {} of the scripted endpoint. *)
Lemma missing_token_witness :
  nonempty (key_id_of (import_env [("B2_KEY_ID", "id"); ("BACKBLAZE_APPLICATION_KEY", "key")]))
  = true
  /\ nonempty (application_key_of
                 (import_env [("B2_KEY_ID", "id"); ("BACKBLAZE_APPLICATION_KEY", "key")]))
     = true
  /\ extract_json_field
       (authorization_response
          [("B2_KEY_ID", "id"); ("BACKBLAZE_APPLICATION_KEY", "key")] 0)
       "authorizationToken" = ""
  /\ exists code,
       code <> 0
       /\ snd (lab_run [("B2_KEY_ID", "id"); ("BACKBLAZE_APPLICATION_KEY", "key")] [])
          = Exited code
       /\ fetch_attempts
            (fst (lab_run [("B2_KEY_ID", "id"); ("BACKBLAZE_APPLICATION_KEY", "key")] []))
          = []
       /\ (fst (fst (authorization_reply
                       [("B2_KEY_ID", "id"); ("BACKBLAZE_APPLICATION_KEY", "key")] 0)) = 0 ->
           lab_run [("B2_KEY_ID", "id"); ("BACKBLAZE_APPLICATION_KEY", "key")] []
           = ([EvMkdir (config_dir_of
                          (import_env [("B2_KEY_ID", "id");
                                       ("BACKBLAZE_APPLICATION_KEY", "key")]));
               EvStdout "Authorizing with Backblaze B2...";
               EvCurl (authorization_request
                         [("B2_KEY_ID", "id"); ("BACKBLAZE_APPLICATION_KEY", "key")]) 0;
               EvStderr failed_to_read_token],
              Exited 1)).
Proof.
  split; [reflexivity|]. split; [reflexivity|]. split; [reflexivity|].
  apply (missing_token_exit_before_any_fetch
           [("B2_KEY_ID", "id"); ("BACKBLAZE_APPLICATION_KEY", "key")] [] 0);
    reflexivity.
Defined.



(** C9 on a run with a PYTHONPATH already set. *)
Lemma pythonpath_witness :
  lab_run [("PYTHONPATH", "/opt/lib"); ("HANDLER_URL_CUSTOM", "https://x/custom.py")]
          ["--port"; "4000"]
  = ([EvMkdir "/app/config";
      EvStdout "Fetching https://x/custom.py -> /app/config/custom_handler.py";
      EvCurl (mk_curl None None "https://x/custom.py" (Some "/app/config/custom_handler.py")) 0;
      EvStdout "Files in /app/config:"; EvLs "/app/config" 0],
     Execed "/app/docker/prod_entrypoint.sh" ["--port"; "4000"]
       [("PYTHONPATH", "/app/config:/opt/lib");
        ("HANDLER_URL_CUSTOM", "https://x/custom.py")])
  /\ (env_lookup [("PYTHONPATH", "/app/config:/opt/lib");
                  ("HANDLER_URL_CUSTOM", "https://x/custom.py")] "PYTHONPATH"
      = Some ("/app/config" ++ ":" ++ "/opt/lib")
      /\ "/app/docker/prod_entrypoint.sh" = downstream_entrypoint
      /\ ["--port"; "4000"] = ["--port"; "4000"]).
Proof.
  split; [vm_compute; reflexivity|].
  apply (pythonpath_starts_with_config_dir
           [("PYTHONPATH", "/opt/lib"); ("HANDLER_URL_CUSTOM", "https://x/custom.py")]
           ["--port"; "4000"] 0
           [EvMkdir "/app/config";
            EvStdout "Fetching https://x/custom.py -> /app/config/custom_handler.py";
            EvCurl (mk_curl None None "https://x/custom.py"
                      (Some "/app/config/custom_handler.py")) 0;
            EvStdout "Files in /app/config:"; EvLs "/app/config" 0]).
  vm_compute; reflexivity.
Defined.

(** C10 in a shell whose main config is set: CONFIG_URL_TEAMS and
    HANDLER_URL_TEAMS set to empty get no fetch, and the loop goes on to
    the next variable; and in a shell whose LITELLM_CONFIG_URL is empty
    the main config step does nothing. *)
Lemma empty_value_witness :
  mem_char equals_sign "CONFIG_URL_TEAMS" = false
  /\ mem_char equals_sign "HANDLER_URL_TEAMS" = false
  /\ sh_get (sh (lab_machine [("LITELLM_CONFIG_URL", "https://x/config.yaml");
                              ("CONFIG_URL_TEAMS", "")])) "LITELLM_CONFIG_URL"
     = "https://x/config.yaml"
  /\ trace ((read_line ("CONFIG_URL_TEAMS" ++ "=") ;; loop_body "CONFIG_URL_" ".yaml")
              (lab_machine [("LITELLM_CONFIG_URL", "https://x/config.yaml");
                            ("CONFIG_URL_TEAMS", "")])) = []
  /\ trace (while_read (loop_body "CONFIG_URL_" ".yaml")
              (("CONFIG_URL_TEAMS" ++ "=") :: ["CONFIG_URL_B=https://x/b.yaml"])
              (lab_machine [("LITELLM_CONFIG_URL", "https://x/config.yaml");
                            ("CONFIG_URL_TEAMS", "")]))
     = trace (while_read (loop_body "CONFIG_URL_" ".yaml")
                ["CONFIG_URL_B=https://x/b.yaml"]
                (lab_machine [("LITELLM_CONFIG_URL", "https://x/config.yaml");
                              ("CONFIG_URL_TEAMS", "")]))
  /\ trace ((read_line ("HANDLER_URL_TEAMS" ++ "=") ;;
             loop_body "HANDLER_URL_" "_handler.py")
              (lab_machine [("LITELLM_CONFIG_URL", "https://x/config.yaml");
                            ("HANDLER_URL_TEAMS", "")])) = []
  /\ fetch_main_config (lab_machine [("LITELLM_CONFIG_URL", ""); ("CONFIG_URL_TEAMS", "")])
     = ([], Ret tt, lab_machine [("LITELLM_CONFIG_URL", ""); ("CONFIG_URL_TEAMS", "")]).
Proof.
  split; [reflexivity|]. split; [reflexivity|]. split; [reflexivity|].
  destruct (empty_value_fetches_nothing
              (lab_machine [("LITELLM_CONFIG_URL", "https://x/config.yaml");
                            ("CONFIG_URL_TEAMS", "")])
              "CONFIG_URL_TEAMS" ["CONFIG_URL_B=https://x/b.yaml"] eq_refl)
    as [_ Hconfigs].
  destruct (Hconfigs "CONFIG_URL_" ".yaml" (or_introl eq_refl)) as [Hturn [_ [Hloop _]]].
  split; [exact Hturn|]. split; [exact Hloop|].
  destruct (empty_value_fetches_nothing
              (lab_machine [("LITELLM_CONFIG_URL", "https://x/config.yaml");
                            ("HANDLER_URL_TEAMS", "")])
              "HANDLER_URL_TEAMS" [] eq_refl)
    as [_ Hhandlers].
  destruct (Hhandlers "HANDLER_URL_" "_handler.py" (or_intror eq_refl)) as [Hturn' _].
  split; [exact Hturn'|].
  destruct (empty_value_fetches_nothing
              (lab_machine [("LITELLM_CONFIG_URL", ""); ("CONFIG_URL_TEAMS", "")])
              "CONFIG_URL_TEAMS" [] eq_refl)
    as [Hmain _].
  exact (Hmain eq_refl).
Defined.


(** Runs with Backblaze credentials: the token goes to the URLs under
    the download URL only; with AUTH_HEADER set as well, every fetch
    carries AUTH_HEADER and the token is never sent. *)
Example third_party_header_by_url :
  fetch_headers
    (fst (@cloud_run_entrypoint nat b2_outside
            [("B2_KEY_ID", "id"); ("B2_APPLICATION_KEY", "key");
             ("CONFIG_URL_A", "https://f002.backblazeb2.com/file/b/a.yaml");
             ("CONFIG_URL_B", "https://x/b.yaml")] [] 0))
  = [("https://f002.backblazeb2.com/file/b/a.yaml", Some "Authorization: TOK");
     ("https://x/b.yaml", None)].
Proof. vm_compute. reflexivity. Qed.

Example explicit_header_shadows_token :
  fetch_headers
    (fst (@cloud_run_entrypoint nat b2_outside
            [("AUTH_HEADER", "Authorization: Bearer t1");
             ("B2_KEY_ID", "id"); ("B2_APPLICATION_KEY", "key");
             ("CONFIG_URL_A", "https://f002.backblazeb2.com/file/b/a.yaml");
             ("CONFIG_URL_B", "https://x/b.yaml")] [] 0))
  = [("https://f002.backblazeb2.com/file/b/a.yaml", Some "Authorization: Bearer t1");
     ("https://x/b.yaml", Some "Authorization: Bearer t1")].
Proof. vm_compute. reflexivity. Qed.

(** The two end-to-end runs without credentials. *)
Example two_configs_unauthenticated :
  fetch_attempts
    (fst (lab_run [("LITELLM_CONFIG_URL", "https://x/y/config.yaml");
                   ("CONFIG_URL_TEAMS", "https://x/y/teams.yaml")] []))
  = [("https://x/y/config.yaml", "/app/config/config.yaml");
     ("https://x/y/teams.yaml", "/app/config/teams.yaml")]
  /\ fetch_headers
       (fst (lab_run [("LITELLM_CONFIG_URL", "https://x/y/config.yaml");
                      ("CONFIG_URL_TEAMS", "https://x/y/teams.yaml")] []))
     = [("https://x/y/config.yaml", None); ("https://x/y/teams.yaml", None)].
Proof. split; vm_compute; reflexivity. Qed.

Example handler_with_explicit_header :
  fst (lab_run [("HANDLER_URL_CUSTOM", "https://x/custom.py");
                ("AUTH_HEADER", "Authorization: Bearer t1")] [])
  = [EvMkdir "/app/config";
     EvStdout "Fetching https://x/custom.py -> /app/config/custom_handler.py";
     EvCurl (mk_curl None (Some "Authorization: Bearer t1") "https://x/custom.py"
               (Some "/app/config/custom_handler.py")) 0;
     EvStdout "Files in /app/config:";
     EvLs "/app/config" 0].
Proof. vm_compute. reflexivity. Qed.

(** C6 as stated fails: this URL begins with the download URL and contains
    the provider's domain, and is_backblaze_url rejects it, because the
    character after the domain is a colon and not a slash. *)
Lemma is_backblaze_url_counterexample :
  starts_with "https://f002.backblazeb2.com" "https://f002.backblazeb2.com:443/file/b/k" = true
  /\ contains "backblazeb2.com" "https://f002.backblazeb2.com:443/file/b/k" = true
  /\ is_backblaze_url "https://f002.backblazeb2.com"
                      "https://f002.backblazeb2.com:443/file/b/k" = false.
Proof. repeat split; reflexivity. Qed.

(** C2 as stated fails.  The server answers the request for the first
    config with 304, a status outside 200-299 that curl does not follow
    and that [-f] lets pass: curl exits with 0, the second config is
    fetched, and the run reaches the downstream entrypoint. *)
Lemma fetch_failure_counterexample :
  sample_server "https://x/unchanged.yaml" = 304
  /\ @cloud_run_entrypoint nat (http_outside sample_server)
       [("CONFIG_URL_A", "https://x/unchanged.yaml");
        ("CONFIG_URL_B", "https://x/b.yaml")] [] 0
     = ([EvMkdir "/app/config";
         EvStdout "Fetching https://x/unchanged.yaml -> /app/config/a.yaml";
         EvCurl (mk_curl None None "https://x/unchanged.yaml"
                   (Some "/app/config/a.yaml")) 0;
         EvStdout "Fetching https://x/b.yaml -> /app/config/b.yaml";
         EvCurl (mk_curl None None "https://x/b.yaml" (Some "/app/config/b.yaml")) 0;
         EvStdout "Files in /app/config:"; EvLs "/app/config" 0],
        Execed "/app/docker/prod_entrypoint.sh" []
          [("CONFIG_URL_A", "https://x/unchanged.yaml");
           ("CONFIG_URL_B", "https://x/b.yaml");
           ("PYTHONPATH", "/app/config:")]).
Proof. split; [reflexivity|vm_compute; reflexivity]. Qed.







(** X5 on a signed URL that ends in an equals sign, and on one that has
    another before it. *)
Lemma read_url_field_witness :
  mem_char equals_sign "CONFIG_URL_TEAMS" = false
  /\ (forall f, mem_char equals_sign f = false -> "https://x/teams.yaml?sig=" = f ++ "=" ->
                read_name_url ("CONFIG_URL_TEAMS" ++ "=" ++ "https://x/teams.yaml?sig=")
                = ("CONFIG_URL_TEAMS", f))
  /\ ((forall f, mem_char equals_sign f = false -> "https://x/teams.yaml?sig=" <> f ++ "=") ->
      read_name_url ("CONFIG_URL_TEAMS" ++ "=" ++ "https://x/teams.yaml?sig=")
      = ("CONFIG_URL_TEAMS", "https://x/teams.yaml?sig=")).
Proof.
  split; [reflexivity|].
  apply (read_url_field "CONFIG_URL_TEAMS" "https://x/teams.yaml?sig=").
  reflexivity.
Defined.

(** X6 on the sample environment. *)
Lemma environment_handed_on_witness :
  lab_run lab_env ["--port"]
  = (fst (lab_run lab_env ["--port"]),
     Execed "/app/docker/prod_entrypoint.sh" ["--port"]
       [("DATABASE_URL", "postgres://db/litellm");
        ("LITELLM_CONFIG_URL", "https://x/config.yaml");
        ("CONFIG_URL_TEAMS", "https://x/teams.yaml?sig=");
        ("CONFIG_URL_EMPTY", ""); ("BACKBLAZE_AUTH_HEADER", "");
        ("HANDLER_URL_CUSTOM", "https://x/custom.py");
        ("PYTHONPATH", "/app/config:")])
  /\ ((forall x, variable_name x = true -> ~ In x script_vars -> x <> "PYTHONPATH" ->
                 env_lookup
                   [("DATABASE_URL", "postgres://db/litellm");
                    ("LITELLM_CONFIG_URL", "https://x/config.yaml");
                    ("CONFIG_URL_TEAMS", "https://x/teams.yaml?sig=");
                    ("CONFIG_URL_EMPTY", ""); ("BACKBLAZE_AUTH_HEADER", "");
                    ("HANDLER_URL_CUSTOM", "https://x/custom.py");
                    ("PYTHONPATH", "/app/config:")] x
                 = env_lookup lab_env x)
      /\ (forall x, In x script_vars -> env_lookup lab_env x = None ->
                    env_lookup
                      [("DATABASE_URL", "postgres://db/litellm");
                       ("LITELLM_CONFIG_URL", "https://x/config.yaml");
                       ("CONFIG_URL_TEAMS", "https://x/teams.yaml?sig=");
                       ("CONFIG_URL_EMPTY", ""); ("BACKBLAZE_AUTH_HEADER", "");
                       ("HANDLER_URL_CUSTOM", "https://x/custom.py");
                       ("PYTHONPATH", "/app/config:")] x
                    = None)).
Proof.
  split; [vm_compute; reflexivity|].
  apply (environment_handed_on lab_env ["--port"] 0
           (fst (lab_run lab_env ["--port"])) "/app/docker/prod_entrypoint.sh" ["--port"]).
  vm_compute; reflexivity.
Defined.


(** X8 on a run whose only config is missing. *)
Lemma exit_is_explained_witness :
  snd (lab_run [("CONFIG_URL_A", "https://x/missing.yaml")] []) = Exited 22
  /\ 22 <> 0
  /\ exists pre last,
       fst (lab_run [("CONFIG_URL_A", "https://x/missing.yaml")] []) = (pre ++ [last])%list
       /\ exit_cause 22 last.
Proof.
  split; [vm_compute; reflexivity|].
  apply (exit_is_explained [("CONFIG_URL_A", "https://x/missing.yaml")] [] 0 22).
  vm_compute; reflexivity.
Defined.

(** X9 on the handler of the sample environment. *)
Lemma every_destination_under_config_dir_witness :
  In "/app/config/custom_handler.py" (destinations (fst (lab_run lab_env [])))
  /\ fetched_path (config_dir_of (import_env lab_env)) "/app/config/custom_handler.py".
Proof.
  split; [vm_compute; tauto|].
  apply (every_destination_under_config_dir lab_env [] 0 "/app/config/custom_handler.py").
  vm_compute; tauto.
Defined.

(** X10 on a run with both credential halves. *)
Lemma credentials_sent_once_witness :
  In (EvCurl (authorization_request
                [("B2_KEY_ID", "id"); ("BACKBLAZE_APPLICATION_KEY", "key")]) 0)
     (fst (lab_run [("B2_KEY_ID", "id"); ("BACKBLAZE_APPLICATION_KEY", "key")] []))
  /\ ((curl_user (authorization_request
                    [("B2_KEY_ID", "id"); ("BACKBLAZE_APPLICATION_KEY", "key")]) = None
       /\ exists dest,
            curl_output (authorization_request
                           [("B2_KEY_ID", "id"); ("BACKBLAZE_APPLICATION_KEY", "key")])
            = Some dest)
      \/ (authorization_request [("B2_KEY_ID", "id"); ("BACKBLAZE_APPLICATION_KEY", "key")]
          = authorization_request [("B2_KEY_ID", "id"); ("BACKBLAZE_APPLICATION_KEY", "key")]
          /\ exists post,
               fst (lab_run [("B2_KEY_ID", "id"); ("BACKBLAZE_APPLICATION_KEY", "key")] [])
               = ([EvMkdir (config_dir_of
                              (import_env [("B2_KEY_ID", "id");
                                           ("BACKBLAZE_APPLICATION_KEY", "key")]));
                   EvStdout "Authorizing with Backblaze B2...";
                   EvCurl (authorization_request
                             [("B2_KEY_ID", "id"); ("BACKBLAZE_APPLICATION_KEY", "key")]) 0]
                  ++ post)%list
               /\ forall c' status', In (EvCurl c' status') post -> curl_user c' = None)).
Proof.
  split; [vm_compute; tauto|].
  apply (credentials_sent_once
           [("B2_KEY_ID", "id"); ("BACKBLAZE_APPLICATION_KEY", "key")] [] 0).
  vm_compute; tauto.
Defined.

(** X11 on the sample environment. *)
Lemma listing_is_last_witness :
  In (EvLs "/app/config" 0) (fst (lab_run lab_env []))
  /\ ("/app/config" = config_dir_of (import_env lab_env)
      /\ (exists pre,
            fst (lab_run lab_env [])
            = (pre ++ [EvStdout ("Files in " ++ "/app/config" ++ ":");
                       EvLs "/app/config" 0])%list)
      /\ all_ok (fst (lab_run lab_env []))
      /\ (0 <> 0 -> snd (lab_run lab_env []) = Exited 0)
      /\ (0 = 0 -> exists envp,
            snd (lab_run lab_env []) = Execed downstream_entrypoint [] envp)).
Proof.
  split; [vm_compute; tauto|].
  apply (listing_is_last lab_env [] 0 "/app/config" 0).
  vm_compute; tauto.
Defined.

(** X12 on the sample environment, which hands in a Backblaze header. *)
Lemma environment_backblaze_header_unused_witness :
  key_id_of (import_env lab_env) = ""
  /\ application_key_of (import_env lab_env) = ""
  /\ In (EvCurl (mk_curl None None "https://x/custom.py"
                   (Some "/app/config/custom_handler.py")) 0)
        (fst (lab_run lab_env []))
  /\ curl_output (mk_curl None None "https://x/custom.py"
                    (Some "/app/config/custom_handler.py"))
     = Some "/app/config/custom_handler.py"
  /\ curl_header (mk_curl None None "https://x/custom.py"
                    (Some "/app/config/custom_handler.py"))
     = (if nonempty (sh_get (import_env lab_env) "AUTH_HEADER")
        then Some (sh_get (import_env lab_env) "AUTH_HEADER")
        else None).
Proof.
  split; [reflexivity|]. split; [reflexivity|].
  split; [vm_compute; tauto|]. split; [reflexivity|].
  apply (environment_backblaze_header_unused lab_env [] 0
           (mk_curl None None "https://x/custom.py" (Some "/app/config/custom_handler.py"))
           0 "/app/config/custom_handler.py").
  - reflexivity.
  - reflexivity.
  - vm_compute; tauto.
  - reflexivity.
Defined.

(** X14 on the loops of the sample environment. *)
Lemma loops_write_inside_config_dir_witness :
  forallb single_line_entry
    (exported_env (sh (lab_machine (("CONFIG_DIR", "/app/config") :: lab_env)))) = true
  /\ forallb (fun nv => all_chars is_name_char (fst nv))
       (exported_env (sh (lab_machine (("CONFIG_DIR", "/app/config") :: lab_env)))) = true
  /\ In "/app/config/teams.yaml"
        (destinations
           (trace (fetch_additional_configs
                     (lab_machine (("CONFIG_DIR", "/app/config") :: lab_env))))
         ++ destinations
              (trace (fetch_handlers
                        (lab_machine (("CONFIG_DIR", "/app/config") :: lab_env)))))%list
  /\ inside_dir
       (sh_get (sh (lab_machine (("CONFIG_DIR", "/app/config") :: lab_env))) "CONFIG_DIR")
       "/app/config/teams.yaml".
Proof.
  split; [reflexivity|]. split; [reflexivity|]. split; [vm_compute; tauto|].
  apply (loops_write_inside_config_dir
           (lab_machine (("CONFIG_DIR", "/app/config") :: lab_env)) "/app/config/teams.yaml").
  - reflexivity.
  - reflexivity.
  - vm_compute; tauto.
Defined.

(** Why the plan asks for an environment that does not export
    backblaze_auth_response: the script assigns the reply of the
    authorization endpoint to that name, an exported variable stays
    exported, and [env] prints a reply of several lines as several
    lines.  A line of the reply that looks like a CONFIG_URL_ entry is
    then fetched, though no such variable was ever set. *)
Example exported_response_is_read_as_environment :
  fetch_plan [("B2_KEY_ID", "id"); ("B2_APPLICATION_KEY", "key");
              ("backblaze_auth_response", "")] = []
  /\ fetch_attempts
       (fst (@cloud_run_entrypoint nat stray_outside
               [("B2_KEY_ID", "id"); ("B2_APPLICATION_KEY", "key");
                ("backblaze_auth_response", "")] [] 0))
     = [("https://x/extra.yaml", "/app/config/extra.yaml")]
  /\ fetch_attempts
       (fst (@cloud_run_entrypoint nat stray_outside
               [("B2_KEY_ID", "id"); ("B2_APPLICATION_KEY", "key")] [] 0))
     = [].
Proof. repeat split; vm_compute; reflexivity. Qed.

End EntrypointSpec.
